(** * Effective-Python study snippets: a shallow embedding and its properties

    The repository is a set of four scripts of short Python snippets.  This
    development embeds the snippets that carry behaviour worth stating
    (helper functions, generators, file round trips, formatting) as Rocq
    functions and proves properties about them.

    Conventions of the embedding:
    - a Python [int] is a [Z]; a [float] is a binary64 number, a
      [spec_float] with precision 53 and maximal exponent 1024; a [bytes] is
      a list of octets ([Z] in 0..255); a [str] is a list of Unicode code
      points ([Z] in 0..0x10FFFF);
    - a call that may raise evaluates to a [result]: [Return v] or
      [Raise e]; code that also reads and writes a state (the file
      system, the heap, the module's namespace) is [eff] over that state;
    - a [for] loop over a finite sequence is a fold over the list of its
      items, with an explicit signal for [break] and [return];
    - a generator function is resumable code: what it does when it is
      entered and when it is resumed at a [yield]; an iteration that need
      not end carries fuel.

    The first part holds the embedding, item by item; the second part
    holds the properties. *)

From Stdlib Require Import ZArith Lia List Bool Ascii String DecimalString.
From Stdlib Require Import Floats.SpecFloat.
From stdpp Require Import base option list gmap strings.
Import ListNotations.

Local Open Scope Z_scope.

(** ** Exceptions and results *)

(** The exception classes the snippets raise or catch. *)
Inductive exn : Type :=
| ZeroDivisionError
| OverflowError
| ValueError (msg : string)
| TypeError (msg : string)
| NameError (name : string)
| AssertionError
| KeyError
| IndexError
| UnicodeDecodeError
| UnicodeEncodeError
| FileNotFoundError (path : string)
| StopIteration
| RuntimeError (msg : string)
| Reset
| MyError (msg : string).

Inductive result (A : Type) : Type :=
| Return (v : A)
| Raise (e : exn).
Arguments Return {A} v.
Arguments Raise {A} e.

#[global] Instance result_ret : MRet result := fun A v => Return v.

#[global] Instance result_bind : MBind result := fun A B k r =>
  match r with
  | Return v => k v
  | Raise e => Raise e
  end.

(** Code that reads and writes a state [St] and may raise.  The state
    survives an exception: what was written before the exception stays
    written. *)
Definition eff (St A : Type) : Type := St -> result A * St.

#[global] Instance eff_ret {St} : MRet (eff St) := fun A v st => (Return v, st).

#[global] Instance eff_bind {St} : MBind (eff St) := fun A B k m st =>
  match m st with
  | (Return v, st') => k v st'
  | (Raise e, st') => (Raise e, st')
  end.

Definition raise {St A} (e : exn) : eff St A := fun st => (Raise e, st).

(** A computation that does not touch the state. *)
Definition pure {St A} (r : result A) : eff St A := fun st => (r, st).

(** ** Values *)

#[local] Unset Elimination Schemes.
Inductive pyval : Type :=
| PyNone
| PyBool (b : bool)
| PyInt (n : Z)
| PyFloat (f : spec_float)
| PyStr (s : list Z)
| PyBytes (b : list Z)
| PyTuple (items : list pyval)
| PyList (items : list pyval)
| PyDict (entries : list (pyval * pyval)).
#[local] Set Elimination Schemes.

(** A [str] literal of the script that holds ASCII characters only. *)
Definition lit (s : string) : list Z :=
  map (fun a => Z.of_N (Ascii.N_of_ascii a)) (String.list_ascii_of_string s).

(** *** Numbers *)

(** The binary64 format. *)
Definition prec : Z := 53.
Definition emax : Z := 1024.

(** An [int] as an exact, not yet rounded, binary number. *)
Definition exact (n : Z) : spec_float :=
  match n with
  | Z0 => S754_zero false
  | Zpos p => S754_finite false p 0
  | Zneg p => S754_finite true p 0
  end.

Definition is_infinite (f : spec_float) : bool :=
  match f with S754_infinity _ => true | _ => false end.

(** [float(n)] for an [int]: the nearest binary64 number, ties to even;
    [OverflowError] when [n] is too large. *)
Definition float_of_int (n : Z) : result spec_float :=
  let f := binary_normalize prec emax n 0 false in
  if is_infinite f then Raise OverflowError else Return f.

(** The [float] a decimal literal [m * 10^e] denotes, such as [1.234]. *)
Definition float_lit (m e : Z) : spec_float :=
  if 0 <=? e then binary_normalize prec emax (m * 10 ^ e) 0 false
  else SFdiv prec emax (exact m) (exact (10 ^ (- e))).

(** The operand of an arithmetic operator: an [int] (a [bool] is one), a
    [float], or something that is not a number. *)
Inductive operand : Type :=
| IntOperand (n : Z)
| FloatOperand (f : spec_float)
| NotANumber.

Definition operand_of (v : pyval) : operand :=
  match v with
  | PyBool b => IntOperand (if b then 1 else 0)
  | PyInt n => IntOperand n
  | PyFloat f => FloatOperand f
  | _ => NotANumber
  end.

Definition is_number (v : pyval) : Prop := operand_of v <> NotANumber.

Definition float_is_zero (f : spec_float) : bool :=
  match f with S754_zero _ => true | _ => false end.

(** [v == 0] for a number [v]. *)
Definition eq_zero (v : pyval) : bool :=
  match operand_of v with
  | IntOperand n => n =? 0
  | FloatOperand f => float_is_zero f
  | NotANumber => false
  end.

(** An [int] too large to become a [float]. *)
Definition int_too_large (v : pyval) : Prop :=
  exists n, operand_of v = IntOperand n /\ float_of_int n = Raise OverflowError.

(** [a / b] on two [float]s. *)
Definition float_div (a b : spec_float) : result pyval :=
  if float_is_zero b then Raise ZeroDivisionError
  else Return (PyFloat (SFdiv prec emax a b)).

(** [a / b], true division.  Two [int]s give the correctly rounded
    quotient, or [OverflowError] when it is too large for a [float]; with
    a [float] operand the other operand is converted to [float] first,
    and only then is the divisor tested for zero. *)
Definition truediv (a b : pyval) : result pyval :=
  match operand_of a, operand_of b with
  | IntOperand x, IntOperand y =>
      if y =? 0 then Raise ZeroDivisionError
      else
        let q := SFdiv prec emax (exact x) (exact y) in
        if is_infinite q then Raise OverflowError else Return (PyFloat q)
  | IntOperand x, FloatOperand g =>
      f ← float_of_int x; float_div f g
  | FloatOperand f, IntOperand y =>
      g ← float_of_int y; float_div f g
  | FloatOperand f, FloatOperand g => float_div f g
  | _, _ => Raise (TypeError "unsupported operand type(s) for /")
  end.

(** [try: body  except E: handler], where [catches] recognises [E]. *)
Definition try_except {A} (body : result A) (catches : exn -> bool)
    (handler : exn -> result A) : result A :=
  match body with
  | Return v => Return v
  | Raise e => if catches e then handler e else Raise e
  end.

Definition is_ZeroDivisionError (e : exn) : bool :=
  match e with ZeroDivisionError => true | _ => false end.

(** [range(lo, hi)]: the integers [lo], [lo+1], ..., [hi-1]. *)
Definition range (lo hi : Z) : list Z :=
  map (fun i => lo + Z.of_nat i) (seq 0 (Z.to_nat (hi - lo))).

(** ** Chap1, Item 3: [bytes] and [str] *)
Module Item3.

Definition is_code_point (cp : Z) : Prop := 0 <= cp <= 0x10FFFF.
Definition is_surrogate (cp : Z) : bool := (0xD800 <=? cp) && (cp <=? 0xDFFF).

(** *** The UTF-8 codec in strict mode

    [str.encode('utf-8')]: one to four octets for each code point; the
    codec refuses the surrogate code points U+D800..U+DFFF. *)
Definition encode_char (cp : Z) : result (list Z) :=
  if cp <? 0x80 then Return [cp]
  else if cp <? 0x800 then
    Return [Z.lor 0xC0 (Z.shiftr cp 6);
            Z.lor 0x80 (Z.land cp 0x3F)]
  else if cp <? 0x10000 then
    if is_surrogate cp then Raise UnicodeEncodeError
    else
      Return [Z.lor 0xE0 (Z.shiftr cp 12);
              Z.lor 0x80 (Z.land (Z.shiftr cp 6) 0x3F);
              Z.lor 0x80 (Z.land cp 0x3F)]
  else
    Return [Z.lor 0xF0 (Z.shiftr cp 18);
            Z.lor 0x80 (Z.land (Z.shiftr cp 12) 0x3F);
            Z.lor 0x80 (Z.land (Z.shiftr cp 6) 0x3F);
            Z.lor 0x80 (Z.land cp 0x3F)].

Fixpoint utf8_encode (s : list Z) : result (list Z) :=
  match s with
  | [] => Return []
  | cp :: s' =>
      b ← encode_char cp;
      bs ← utf8_encode s';
      mret (b ++ bs)
  end.

Definition in_range (lo hi b : Z) : bool := (lo <=? b) && (b <=? hi).

(** The octets allowed right after the lead octet [b0] of a three- or
    four-octet sequence: the bounds exclude overlong forms, surrogates and
    code points above U+10FFFF. *)
Definition second_octet_ok (b0 b1 : Z) : bool :=
  if b0 =? 0xE0 then in_range 0xA0 0xBF b1
  else if b0 =? 0xED then in_range 0x80 0x9F b1
  else if b0 =? 0xF0 then in_range 0x90 0xBF b1
  else if b0 =? 0xF4 then in_range 0x80 0x8F b1
  else in_range 0x80 0xBF b1.

Definition join6 (hi lo : Z) : Z := Z.lor (Z.shiftl hi 6) (Z.land lo 0x3F).

(** [bytes.decode('utf-8')]: any malformed, truncated, overlong or
    surrogate sequence raises [UnicodeDecodeError]. *)
Fixpoint utf8_decode (bs : list Z) : result (list Z) :=
  match bs with
  | [] => Return []
  | b0 :: rest =>
      if in_range 0x00 0x7F b0 then
        s ← utf8_decode rest; mret (b0 :: s)
      else if in_range 0xC2 0xDF b0 then
        match rest with
        | b1 :: rest1 =>
            if in_range 0x80 0xBF b1 then
              s ← utf8_decode rest1;
              mret (join6 (Z.land b0 0x1F) b1 :: s)
            else Raise UnicodeDecodeError
        | _ => Raise UnicodeDecodeError
        end
      else if in_range 0xE0 0xEF b0 then
        match rest with
        | b1 :: b2 :: rest2 =>
            if second_octet_ok b0 b1 && in_range 0x80 0xBF b2 then
              s ← utf8_decode rest2;
              mret (join6 (join6 (Z.land b0 0x0F) b1) b2 :: s)
            else Raise UnicodeDecodeError
        | _ => Raise UnicodeDecodeError
        end
      else if in_range 0xF0 0xF4 b0 then
        match rest with
        | b1 :: b2 :: b3 :: rest3 =>
            if second_octet_ok b0 b1 && in_range 0x80 0xBF b2
               && in_range 0x80 0xBF b3 then
              s ← utf8_decode rest3;
              mret (join6 (join6 (join6 (Z.land b0 0x07) b1) b2) b3 :: s)
            else Raise UnicodeDecodeError
        | _ => Raise UnicodeDecodeError
        end
      else Raise UnicodeDecodeError
  end.

(** *** The helpers *)

(** [def to_str(bytes_or_str)] *)
Definition to_str (bytes_or_str : pyval) : result pyval :=
  match bytes_or_str with
  | PyBytes b => value ← utf8_decode b; mret (PyStr value)
  | _ => mret bytes_or_str
  end.

(** [def to_bytes(bytes_or_str)] *)
Definition to_bytes (bytes_or_str : pyval) : result pyval :=
  match bytes_or_str with
  | PyStr s => value ← utf8_encode s; mret (PyBytes value)
  | _ => mret bytes_or_str
  end.

(** *** The Windows-1252 codec *)

(** The code point of an octet in 0x80..0x9F; five octets are undefined. *)
Definition cp1252_high : list (option Z) :=
  [Some 0x20AC; None;        Some 0x201A; Some 0x0192;
   Some 0x201E; Some 0x2026; Some 0x2020; Some 0x2021;
   Some 0x02C6; Some 0x2030; Some 0x0160; Some 0x2039;
   Some 0x0152; None;        Some 0x017D; None;
   None;        Some 0x2018; Some 0x2019; Some 0x201C;
   Some 0x201D; Some 0x2022; Some 0x2013; Some 0x2014;
   Some 0x02DC; Some 0x2122; Some 0x0161; Some 0x203A;
   Some 0x0153; None;        Some 0x017E; Some 0x0178].

Definition cp1252_decode_octet (b : Z) : option Z :=
  if in_range 0x80 0x9F b then
    mjoin (cp1252_high !! Z.to_nat (b - 0x80))
  else if in_range 0x00 0xFF b then Some b
  else None.

Fixpoint cp1252_decode (bs : list Z) : result (list Z) :=
  match bs with
  | [] => Return []
  | b :: rest =>
      match cp1252_decode_octet b with
      | Some cp => s ← cp1252_decode rest; mret (cp :: s)
      | None => Raise UnicodeDecodeError
      end
  end.

Definition cp1252_encode_char (cp : Z) : option Z :=
  find (fun b => bool_decide (cp1252_decode_octet b = Some cp)) (range 0 0x100).

Fixpoint cp1252_encode (s : list Z) : result (list Z) :=
  match s with
  | [] => Return []
  | cp :: s' =>
      match cp1252_encode_char cp with
      | Some b => bs ← cp1252_encode s'; mret (b :: bs)
      | None => Raise UnicodeEncodeError
      end
  end.

(** *** Files

    The file system maps a path to the octets stored under it; the code
    that uses files is [eff] over that map.  A file truncated by
    [open(path, 'w')] stays truncated when the [write] that follows
    raises. *)

Inductive codec : Type := UTF8 | CP1252.

Definition decode (c : codec) (bs : list Z) : result (list Z) :=
  match c with
  | UTF8 => utf8_decode bs
  | CP1252 => cp1252_decode bs
  end.

Definition encode (c : codec) (s : list Z) : result (list Z) :=
  match c with
  | UTF8 => utf8_encode s
  | CP1252 => cp1252_encode s
  end.

(** The [mode] argument of [open]. *)
Inductive open_mode : Type := mode_r | mode_w | mode_rb | mode_wb.

(** An open file: where it is, how it was opened, and the position of the
    next read or write. *)
Record file : Type := mk_file {
  f_path : string;
  f_mode : open_mode;
  f_encoding : codec;
  f_pos : nat
}.

(** [open(path, mode, encoding=...)]; without [encoding] a text file uses
    the platform's preferred encoding [preferred]. *)
Definition open_ (preferred : codec) (path : string) (mode : open_mode)
    (encoding : option codec) : eff (gmap string (list Z)) file :=
  fun fs =>
    let f := mk_file path mode (default preferred encoding) 0 in
    match mode with
    | mode_w | mode_wb => (Return f, <[path := []]> fs)
    | mode_r | mode_rb =>
        match fs !! path with
        | Some _ => (Return f, fs)
        | None => (Raise (FileNotFoundError path), fs)
        end
    end.

Definition store (f : file) (octets : list Z)
  : eff (gmap string (list Z)) (file * Z) :=
  fun fs =>
    let old := default [] (fs !! f_path f) in
    let new := take (f_pos f) old ++ octets
               ++ drop (f_pos f + length octets) old in
    (Return (mk_file (f_path f) (f_mode f) (f_encoding f)
                     (f_pos f + length octets),
             Z.of_nat (length octets)),
     <[f_path f := new]> fs).

(** [f.write(data)]: a binary file takes [bytes], a text file takes [str]
    and encodes it.  (On POSIX the text layer writes ['\n'] as it is.) *)
Definition write (f : file) (data : pyval)
  : eff (gmap string (list Z)) (file * Z) :=
  match f_mode f, data with
  | mode_wb, PyBytes b => store f b
  | mode_wb, PyStr _ =>
      raise (TypeError "a bytes-like object is required, not 'str'")
  | mode_w, PyStr s =>
      match encode (f_encoding f) s with
      | Return b =>
          '(f', _) ← store f b; mret (f', Z.of_nat (length s))
      | Raise e => raise e
      end
  | mode_w, PyBytes _ =>
      raise (TypeError "write() argument must be str, not bytes")
  | _, _ => raise (ValueError "not writable")
  end.

(** Universal newlines, applied by a text file when it is read:
    ['\r\n'] and a lone ['\r'] become ['\n']. *)
Fixpoint universal_newlines (s : list Z) : list Z :=
  match s with
  | [] => []
  | c :: s' =>
      if c =? 0x0D then
        match s' with
        | c' :: s'' =>
            if c' =? 0x0A then 0x0A :: universal_newlines s''
            else 0x0A :: universal_newlines s'
        | [] => [0x0A]
        end
      else c :: universal_newlines s'
  end.

(** [f.read()]: everything from the current position to the end. *)
Definition read (f : file)
  : eff (gmap string (list Z)) (file * pyval) :=
  fun fs =>
    let octets := drop (f_pos f) (default [] (fs !! f_path f)) in
    let f' := mk_file (f_path f) (f_mode f) (f_encoding f)
                      (f_pos f + length octets) in
    match f_mode f with
    | mode_rb => (Return (f', PyBytes octets), fs)
    | mode_r =>
        match decode (f_encoding f) octets with
        | Return s => (Return (f', PyStr (universal_newlines s)), fs)
        | Raise e => (Raise e, fs)
        end
    | _ => (Raise (ValueError "not readable"), fs)
    end.

(** The octets [b'\xf1\xf2\xf3\xf4\xf5'] the snippets write. *)
Definition payload : list Z := [0xF1; 0xF2; 0xF3; 0xF4; 0xF5].

(** The literal ['ñòóôõ'] of the script: U+00F1 .. U+00F5. *)
Definition n_tilde_to_o_tilde : list Z := [0xF1; 0xF2; 0xF3; 0xF4; 0xF5].

(** A [bytes] value is valid UTF-8 when the strict decoder accepts it. *)
Definition valid_utf8 (b : list Z) : Prop :=
  exists s, utf8_decode b = Return s.

(** [with open('data.bin', 'w') as f: f.write(b'\xf1\xf2\xf3\xf4\xf5')] *)
Definition write_text_mode (preferred : codec)
  : eff (gmap string (list Z)) unit :=
  f ← open_ preferred "data.bin" mode_w None;
  _ ← write f (PyBytes payload);
  mret tt.

(** [with open('data.bin', 'wb') as f: f.write(b'\xf1\xf2\xf3\xf4\xf5')] *)
Definition write_binary_mode (preferred : codec)
  : eff (gmap string (list Z)) unit :=
  f ← open_ preferred "data.bin" mode_wb None;
  _ ← write f (PyBytes payload);
  mret tt.

(** [with open('data.bin', 'r') as f: data = f.read()] *)
Definition read_text_mode (preferred : codec)
  : eff (gmap string (list Z)) pyval :=
  f ← open_ preferred "data.bin" mode_r None;
  '(_, data) ← read f;
  mret data.

(** [with open('data.bin', 'rb') as f: data = f.read()] *)
Definition read_binary_mode (preferred : codec)
  : eff (gmap string (list Z)) pyval :=
  f ← open_ preferred "data.bin" mode_rb None;
  '(_, data) ← read f;
  mret data.

(** [with open('data.bin', 'r', encoding='cp1252') as f: data = f.read()] *)
Definition read_cp1252 (preferred : codec)
  : eff (gmap string (list Z)) pyval :=
  f ← open_ preferred "data.bin" mode_r (Some CP1252);
  '(_, data) ← read f;
  mret data.

End Item3.

(** ** Chap1, Item 4: three ways to format a string

    The embedding covers the part of the three formatting languages that
    the snippets of Item 4 on strings, integers and fixed-point floats
    use; a format that asks for something else evaluates to
    [NotModelled]. *)
Module Item4.

Inductive fmt (A : Type) : Type :=
| Ok (a : A)
| Err (e : exn)
| NotModelled (feature : string).
Arguments Ok {A} a.
Arguments Err {A} e.
Arguments NotModelled {A} feature.

#[global] Instance fmt_ret : MRet fmt := fun A a => Ok a.

#[global] Instance fmt_bind : MBind fmt := fun A B k m =>
  match m with
  | Ok a => k a
  | Err e => Err e
  | NotModelled f => NotModelled f
  end.

(** The code point of an ASCII character. *)
Definition ch (c : Ascii.ascii) : Z := Z.of_N (Ascii.N_of_ascii c).
Arguments ch c%_char.

Definition is_digit (c : Z) : bool := (ch "0" <=? c) && (c <=? ch "9").

(** The decimal digits of a natural number. *)
Definition digits (n : N) : list Z :=
  lit (DecimalString.NilZero.string_of_uint (N.to_uint n)).

(** Reading a run of decimal digits: the number read, if there is one,
    and what follows it. *)
Fixpoint read_digits (acc : option nat) (s : list Z) : option nat * list Z :=
  match s with
  | c :: s' =>
      if is_digit c then
        read_digits (Some (default 0 acc * 10 + Z.to_nat (c - ch "0"))%nat) s'
      else (acc, s)
  | [] => (acc, s)
  end.

(** *** Numbers as text *)

(** [n / d] rounded to the nearest integer, ties to even; [0 < d]. *)
Definition round_half_even (n d : Z) : Z :=
  let q := n / d in
  let r := n mod d in
  match 2 * r ?= d with
  | Lt => q
  | Gt => q + 1
  | Eq => if Z.even q then q else q + 1
  end.

(** The digits of the magnitude of a finite [float] with [p] digits after
    the point, correctly rounded. *)
Definition fixed_digits (m : positive) (e : Z) (p : nat) : list Z :=
  let scale := 10 ^ Z.of_nat p in
  let n := if 0 <=? e then Zpos m * 2 ^ e * scale
           else round_half_even (Zpos m * scale) (2 ^ (- e)) in
  let int_part := digits (Z.to_N (n / scale)) in
  let frac := digits (Z.to_N (n mod scale)) in
  if (p =? 0)%nat then int_part
  else int_part ++ lit "." ++ replicate (p - length frac) (ch "0") ++ frac.

(** Thousands separators for a run of digits. *)
Fixpoint group_from_right (sep : Z) (rev_digits : list Z) (k : nat)
  : list Z :=
  match rev_digits with
  | [] => []
  | c :: rest =>
      match k, rest with
      | 2%nat, _ :: _ => c :: sep :: group_from_right sep rest 0
      | _, _ => c :: group_from_right sep rest (S k)
      end
  end.

Definition group_digits (sep : Z) (ds : list Z) : list Z :=
  rev (group_from_right sep (rev ds) 0).

(** *** The format specification of [format] and [str.format] *)

Inductive alignment : Type :=
| AlignLeft
| AlignRight
| AlignCenter
| AlignAfterSign.

(** [[[fill]align][sign][#][0][width][grouping][.precision][type]] *)
Record spec : Type := mk_spec {
  sp_fill : option Z;
  sp_align : option alignment;
  sp_sign : option Z;
  sp_alt : bool;
  sp_zero : bool;
  sp_width : option nat;
  sp_grouping : option Z;
  sp_precision : option nat;
  sp_type : option Z
}.

Definition alignment_of (c : Z) : option alignment :=
  if c =? ch "<" then Some AlignLeft
  else if c =? ch ">" then Some AlignRight
  else if c =? ch "^" then Some AlignCenter
  else if c =? ch "=" then Some AlignAfterSign
  else None.

Definition read_align (s : list Z)
  : option Z * option alignment * list Z :=
  match s with
  | f :: a :: rest =>
      match alignment_of a with
      | Some al => (Some f, Some al, rest)
      | None =>
          match alignment_of f with
          | Some al => (None, Some al, a :: rest)
          | None => (None, None, s)
          end
      end
  | [a] =>
      match alignment_of a with
      | Some al => (None, Some al, [])
      | None => (None, None, s)
      end
  | [] => (None, None, s)
  end.

(** Reading one optional character out of a set. *)
Definition read_one (set : list Z) (s : list Z) : option Z * list Z :=
  match s with
  | c :: rest => if existsb (Z.eqb c) set then (Some c, rest) else (None, s)
  | [] => (None, s)
  end.

Definition parse_spec (s : list Z) : fmt spec :=
  let '(fill, align, s) := read_align s in
  let '(sign, s) := read_one [ch "+"; ch "-"; ch " "] s in
  let '(z, s) := read_one [ch "z"] s in
  let '(alt, s) := read_one [ch "#"] s in
  let '(zero, s) := read_one [ch "0"] s in
  let '(width, s) := read_digits None s in
  let '(grouping, s) := read_one [ch ","; ch "_"] s in
  let '(dot, s) := read_one [ch "."] s in
  let '(precision, s) := match dot with
                         | Some _ => read_digits None s
                         | None => (None, s)
                         end in
  let '(type, s) :=
    match s with
    | c :: rest => (Some c, rest)
    | [] => (None, [])
    end in
  match z, dot, precision, s with
  | Some _, _, _, _ => NotModelled "the z option"
  | _, Some _, None, _ =>
      Err (ValueError "Format specifier missing precision")
  | _, _, _, _ :: _ => Err (ValueError "Invalid format specifier")
  | _, _, _, [] =>
      Ok (mk_spec fill align sign (bool_decide (alt <> None))
                  (bool_decide (zero <> None)) width grouping precision type)
  end.

(** Padding [sign ++ body] to [width]. *)
Definition pad (fill : Z) (align : alignment) (width : option nat)
    (sign body : list Z) : list Z :=
  let k := (default 0 width - length (sign ++ body))%nat in
  match align with
  | AlignLeft => sign ++ body ++ replicate k fill
  | AlignRight => replicate k fill ++ sign ++ body
  | AlignCenter =>
      replicate (k / 2) fill ++ sign ++ body ++ replicate (k - k / 2) fill
  | AlignAfterSign => sign ++ replicate k fill ++ body
  end.

(** The sign shown for a number. *)
Definition sign_text (negative : bool) (sign : option Z) : list Z :=
  if negative then lit "-"
  else match sign with
       | Some c => if c =? ch "-" then [] else [c]
       | None => []
       end.

(** A number, its sign and digits given, under a format specification. *)
Definition format_number (sp : spec) (negative : bool) (int_digits : list Z)
    (rest : list Z) : list Z :=
  let int_digits := match sp_grouping sp with
                    | Some sep => group_digits sep int_digits
                    | None => int_digits
                    end in
  let '(fill, align) :=
    match sp_align sp, sp_zero sp with
    | None, true => (default (ch "0") (sp_fill sp), AlignAfterSign)
    | al, _ => (default (ch " ") (sp_fill sp), default AlignRight al)
    end in
  pad fill align (sp_width sp) (sign_text negative (sp_sign sp))
      (int_digits ++ rest).

(** The text of a finite [float] in fixed-point notation, split at the
    point. *)
Definition split_fixed (f : spec_float) (p : nat)
  : option (bool * list Z * list Z) :=
  let zero := (lit "0",
               if (p =? 0)%nat then []
               else lit "." ++ replicate p (ch "0")) in
  match f with
  | S754_zero s => Some (s, zero.1, zero.2)
  | S754_finite s m e =>
      let ds := fixed_digits m e p in
      let n := (length ds - (if (p =? 0)%nat then 0 else S p))%nat in
      Some (s, take n ds, drop n ds)
  | _ => None
  end.

(** With a separator, zero padding puts separators into the padding;
    that is left out. *)
Definition grouped_padding (sp : spec) : bool :=
  bool_decide (sp_grouping sp <> None)
  && (sp_zero sp
      || match sp_align sp with Some AlignAfterSign => true | _ => false end).

Definition format_float (sp : spec) (f : spec_float) : fmt (list Z) :=
  if sp_alt sp then NotModelled "the alternate form"
  else if grouped_padding sp then NotModelled "separators in the padding"
  else
    match split_fixed f (default 6%nat (sp_precision sp)) with
    | Some (negative, int_digits, rest) =>
        Ok (format_number sp negative int_digits rest)
    | None => NotModelled "infinities and NaN"
    end.

Definition format_int (sp : spec) (n : Z) : fmt (list Z) :=
  match sp_precision sp with
  | Some _ =>
      Err (ValueError "Precision not allowed in integer format specifier")
  | None =>
      if sp_alt sp then NotModelled "the alternate form"
      else if grouped_padding sp then NotModelled "separators in the padding"
      else Ok (format_number sp (n <? 0) (digits (Z.abs_N n)) [])
  end.

Definition format_str (sp : spec) (s : list Z) : fmt (list Z) :=
  match sp_sign sp, sp_alt sp, sp_zero sp, sp_grouping sp, sp_align sp with
  | Some _, _, _, _, _ =>
      Err (ValueError "Sign not allowed in string format specifier")
  | _, true, _, _, _ =>
      Err (ValueError
             "Alternate form (#) not allowed in string format specifier")
  | _, _, true, _, _ => NotModelled "zero padding of a string"
  | _, _, _, Some _, _ => Err (ValueError "Cannot specify ',' with 's'.")
  | _, _, _, _, Some AlignAfterSign =>
      Err (ValueError
             "'=' alignment not allowed in string format specifier")
  | _, _, _, _, al =>
      let s := match sp_precision sp with
               | Some p => take p s
               | None => s
               end in
      Ok (pad (default (ch " ") (sp_fill sp)) (default AlignLeft al)
              (sp_width sp) [] s)
  end.

Definition is_type (sp : spec) (types : list Z) : bool :=
  match sp_type sp with
  | Some c => existsb (Z.eqb c) types
  | None => false
  end.

(** [format(v, spec)], that is [v.__format__(spec)]. *)
Definition format_value (v : pyval) (sp : spec) : fmt (list Z) :=
  match v with
  | PyStr s =>
      if bool_decide (sp_type sp = None) || is_type sp [ch "s"]
      then format_str sp s
      else Err (ValueError "Unknown format code for object of type 'str'")
  | PyInt n =>
      if bool_decide (sp_type sp = None) || is_type sp [ch "d"]
      then format_int sp n
      else if is_type sp [ch "f"; ch "F"] then
        match float_of_int n with
        | Return f => format_float sp f
        | Raise e => Err e
        end
      else NotModelled "this presentation type for an int"
  | PyFloat f =>
      if is_type sp [ch "f"; ch "F"] then format_float sp f
      else NotModelled "this presentation type for a float"
  | _ => NotModelled "formatting a value of this type"
  end.

(** [format(v, spec)] with the specification as text. *)
Definition format_ (v : pyval) (spec_text : list Z) : fmt (list Z) :=
  sp ← parse_spec spec_text; format_value v sp.

(** *** [str.format] and f-strings *)

(** A format string in pieces: literal text and replacement fields. *)
Inductive piece : Type :=
| Literal (text : list Z)
| Field (text : list Z).

Definition flush (text : list Z) (ps : list piece) : list piece :=
  match text with
  | [] => ps
  | _ => Literal text :: ps
  end.

(** Cutting a format string at its braces; [{{] and [}}] stand for a
    brace.  [field] holds the text of the replacement field being read,
    [text] the literal text read since the last field. *)
Fixpoint pieces (s : list Z) (field : option (list Z)) (text : list Z)
  : fmt (list piece) :=
  match field, s with
  | None, [] => Ok (flush text [])
  | None, c :: s' =>
      if c =? ch "{" then
        match s' with
        | c' :: s'' =>
            if c' =? ch "{" then pieces s'' None (text ++ [c])
            else ps ← pieces s' (Some []) []; mret (flush text ps)
        | [] => Err (ValueError "Single '{' encountered in format string")
        end
      else if c =? ch "}" then
        match s' with
        | c' :: s'' =>
            if c' =? ch "}" then pieces s'' None (text ++ [c])
            else Err (ValueError "Single '}' encountered in format string")
        | [] => Err (ValueError "Single '}' encountered in format string")
        end
      else pieces s' None (text ++ [c])
  | Some f, [] => Err (ValueError "expected '}' before end of string")
  | Some f, c :: s' =>
      if c =? ch "}" then ps ← pieces s' None []; mret (Field f :: ps)
      else if c =? ch "{" then NotModelled "a nested replacement field"
      else pieces s' (Some (f ++ [c])) []
  end.

(** A replacement field [name!conversion:spec], cut at the first [!] or
    [:]. *)
Fixpoint split_field (s name : list Z)
  : list Z * option (list Z) * list Z :=
  match s with
  | [] => (name, None, [])
  | c :: s' =>
      if c =? ch ":" then (name, None, s')
      else if c =? ch "!" then
        match s' with
        | k :: c' :: spec =>
            if c' =? ch ":" then (name, Some [k], spec)
            else (name, Some s', [])
        | _ => (name, Some s', [])
        end
      else split_field s' (name ++ [c])
  end.

Definition is_name_start (c : Z) : bool :=
  (ch "a" <=? c) && (c <=? ch "z") || (ch "A" <=? c) && (c <=? ch "Z")
  || (c =? ch "_").

Definition is_identifier (s : list Z) : bool :=
  match s with
  | c :: rest =>
      is_name_start c && forallb (fun c => is_name_start c || is_digit c) rest
  | [] => false
  end.

(** The value a key is bound to in a sequence of bindings; the last
    binding of a key wins. *)
Definition lookup_key (key : list Z) (bindings : list (list Z * pyval))
  : option pyval :=
  snd <$> last (List.filter (fun b => bool_decide (b.1 = key)) bindings).

(** How the fields of a [str.format] string have been numbered so far. *)
Inductive numbering : Type :=
| Unnumbered
| Automatic (next : nat)
| Manual.

(** The argument a field of [str.format] names. *)
Definition field_value (name : list Z) (args : list pyval)
    (kwargs : list (list Z * pyval)) (n : numbering)
  : fmt (pyval * numbering) :=
  match name with
  | [] =>
      match n with
      | Manual =>
          Err (ValueError "cannot switch from manual field specification to automatic field numbering")
      | _ =>
          let i := match n with Automatic i => i | _ => 0%nat end in
          match args !! i with
          | Some v => Ok (v, Automatic (S i))
          | None => Err IndexError
          end
      end
  | _ =>
      match read_digits None name with
      | (Some i, []) =>
          match n with
          | Automatic _ =>
              Err (ValueError "cannot switch from automatic field numbering to manual field specification")
          | _ =>
              match args !! i with
              | Some v => Ok (v, Manual)
              | None => Err IndexError
              end
          end
      | _ =>
          if is_identifier name then
            match lookup_key name kwargs with
            | Some v => Ok (v, n)
            | None => Err KeyError
            end
          else NotModelled "attribute and index access in a field name"
      end
  end.

Fixpoint format_pieces (ps : list piece) (args : list pyval)
    (kwargs : list (list Z * pyval)) (n : numbering) : fmt (list Z) :=
  match ps with
  | [] => Ok []
  | Literal text :: ps' =>
      rest ← format_pieces ps' args kwargs n; mret (text ++ rest)
  | Field f :: ps' =>
      let '(name, conversion, spec_text) := split_field f [] in
      match conversion with
      | Some _ => NotModelled "a conversion"
      | None =>
          '(v, n') ← field_value name args kwargs n;
          text ← format_ v spec_text;
          rest ← format_pieces ps' args kwargs n';
          mret (text ++ rest)
      end
  end.

(** [template.format(...)] with the positional arguments [args] and the
    keyword arguments [kwargs]. *)
Definition str_format (template : list Z) (args : list pyval)
    (kwargs : list (list Z * pyval)) : fmt (list Z) :=
  ps ← pieces template None [];
  format_pieces ps args kwargs Unnumbered.

(** The f-string [f'template'] where the names in [scope] are visible;
    a replacement field holds a name. *)
Fixpoint f_pieces (ps : list piece) (scope : list (list Z * pyval))
  : fmt (list Z) :=
  match ps with
  | [] => Ok []
  | Literal text :: ps' => rest ← f_pieces ps' scope; mret (text ++ rest)
  | Field f :: ps' =>
      let '(name, conversion, spec_text) := split_field f [] in
      match conversion with
      | Some _ => NotModelled "a conversion"
      | None =>
          if is_identifier name then
            match lookup_key name scope with
            | Some v =>
                text ← format_ v spec_text;
                rest ← f_pieces ps' scope;
                mret (text ++ rest)
            | None =>
                Err (NameError
                       (string_of_list_ascii
                          (map (fun c => ascii_of_N (Z.to_N c)) name)))
            end
          else NotModelled "an expression that is not a name"
      end
  end.

Definition interpolate (template : list Z) (scope : list (list Z * pyval))
  : fmt (list Z) :=
  ps ← pieces template None [];
  f_pieces ps scope.

(** *** C-style format strings and the [%] operator *)

(** [%[(key)][flags][width][.precision][length]type] *)
Record conversion : Type := mk_conversion {
  cv_key : option (list Z);
  cv_left : bool;
  cv_zero : bool;
  cv_plus : bool;
  cv_space : bool;
  cv_alt : bool;
  cv_width : option nat;
  cv_precision : option nat;
  cv_type : Z
}.

Definition is_conversion_char (c : Z) : bool :=
  existsb (Z.eqb c)
    [ch "#"; ch "0"; ch "-"; ch " "; ch "+"; ch "."; ch "*";
     ch "h"; ch "l"; ch "L"]
  || is_digit c.

(** Cutting a C-style format string into literal text and conversion
    specifications; a specification runs from [%] to its type character.
    [conv] holds the specification being read and whether a
    parenthesised key is open. *)
Fixpoint percent_pieces (s : list Z) (conv : option (list Z * bool))
    (text : list Z) : fmt (list piece) :=
  match conv, s with
  | None, [] => Ok (flush text [])
  | None, c :: s' =>
      if c =? ch "%" then
        ps ← percent_pieces s' (Some ([], false)) []; mret (flush text ps)
      else percent_pieces s' None (text ++ [c])
  | Some _, [] => Err (ValueError "incomplete format")
  | Some (f, true), c :: s' =>
      percent_pieces s' (Some (f ++ [c], negb (c =? ch ")"))) []
  | Some (f, false), c :: s' =>
      if c =? ch "(" then percent_pieces s' (Some (f ++ [c], true)) []
      else if is_conversion_char c
      then percent_pieces s' (Some (f ++ [c], false)) []
      else ps ← percent_pieces s' None []; mret (Field (f ++ [c]) :: ps)
  end.

(** The text up to the first [)] and what follows it. *)
Fixpoint read_key (s key : list Z) : option (list Z * list Z) :=
  match s with
  | [] => None
  | c :: s' => if c =? ch ")" then Some (key, s') else read_key s' (key ++ [c])
  end.

Fixpoint read_flags (s : list Z) (cv : conversion) : conversion * list Z :=
  let set left zero plus space alt :=
    mk_conversion (cv_key cv) (cv_left cv || left) (cv_zero cv || zero)
                  (cv_plus cv || plus) (cv_space cv || space)
                  (cv_alt cv || alt) None None 0 in
  match s with
  | c :: s' =>
      if c =? ch "-" then read_flags s' (set true false false false false)
      else if c =? ch "0" then read_flags s' (set false true false false false)
      else if c =? ch "+" then read_flags s' (set false false true false false)
      else if c =? ch " " then read_flags s' (set false false false true false)
      else if c =? ch "#" then read_flags s' (set false false false false true)
      else (cv, s)
  | [] => (cv, s)
  end.

Definition parse_conversion (s : list Z) : fmt conversion :=
  '(key, s) ←
    match s with
    | c :: s' =>
        if c =? ch "(" then
          match read_key s' [] with
          | Some (key, rest) => Ok (Some key, rest)
          | None => Err (ValueError "incomplete format key")
          end
        else Ok (None, s)
    | [] => Ok (None, s)
    end;
  let '(cv, s) :=
    read_flags s (mk_conversion key false false false false false
                                None None 0) in
  let '(star, s) := read_one [ch "*"] s in
  let '(width, s) := read_digits None s in
  let '(dot, s) := read_one [ch "."] s in
  let '(star', s) := read_one [ch "*"] s in
  let '(precision, s) :=
    match dot with
    | Some _ => let '(p, s) := read_digits None s in (Some (default 0%nat p), s)
    | None => (None, s)
    end in
  let '(_, s) := read_one [ch "h"; ch "l"; ch "L"] s in
  match star, star', s with
  | Some _, _, _ | _, Some _, _ => NotModelled "a width or precision of *"
  | _, _, [type] =>
      Ok (mk_conversion (cv_key cv) (cv_left cv) (cv_zero cv) (cv_plus cv)
                        (cv_space cv) (cv_alt cv) width precision type)
  | _, _, _ => Err (ValueError "unsupported format character")
  end.

(** The format specification that pads like a conversion does. *)
Definition spec_of (cv : conversion) (numeric : bool) : spec :=
  mk_spec (Some (if numeric && cv_zero cv && negb (cv_left cv)
                 then ch "0" else ch " "))
          (Some (if cv_left cv then AlignLeft
                 else if numeric && cv_zero cv then AlignAfterSign
                 else AlignRight))
          (if cv_plus cv then Some (ch "+")
           else if cv_space cv then Some (ch " ") else None)
          false false (cv_width cv) None (cv_precision cv) None.

(** One conversion applied to its argument. *)
Definition format_conversion (cv : conversion) (v : pyval) : fmt (list Z) :=
  let t := cv_type cv in
  if t =? ch "s" then
    match v with
    | PyStr s =>
        let s := match cv_precision cv with Some p => take p s | None => s end in
        Ok (pad (ch " ") (if cv_left cv then AlignLeft else AlignRight)
                (cv_width cv) [] s)
    | _ => NotModelled "str() of a value that is not a string"
    end
  else if (t =? ch "d") || (t =? ch "i") || (t =? ch "u") then
    match operand_of v, cv_precision cv, cv_alt cv with
    | IntOperand n, None, false =>
        Ok (format_number (spec_of cv true) (n <? 0) (digits (Z.abs_N n)) [])
    | IntOperand _, _, _ => NotModelled "a precision for an integer"
    | FloatOperand _, _, _ => NotModelled "truncating a float"
    | NotANumber, _, _ =>
        Err (TypeError "%d format: a real number is required")
    end
  else if (t =? ch "f") || (t =? ch "F") then
    match operand_of v with
    | NotANumber => Err (TypeError "must be real number")
    | o =>
        match (match o with
               | IntOperand n => float_of_int n
               | FloatOperand f => Return f
               | NotANumber => Raise OverflowError
               end) with
        | Return f =>
            if cv_alt cv then NotModelled "the alternate form"
            else
              match split_fixed f (default 6%nat (cv_precision cv)) with
              | Some (negative, int_digits, rest) =>
                  Ok (format_number (spec_of cv true) negative int_digits rest)
              | None => NotModelled "infinities and NaN"
              end
        | Raise e => Err e
        end
    end
  else NotModelled "this conversion type".

(** The value a key is bound to in a dictionary with [str] keys. *)
Definition dict_lookup (key : list Z) (entries : list (pyval * pyval))
  : option pyval :=
  snd <$> last (List.filter (fun b => match b.1 with
                                 | PyStr k => bool_decide (k = key)
                                 | _ => false
                                 end) entries).

(** Formatting the pieces in order; [positional] holds the arguments not
    used yet, [mapping] the dictionary when the right operand is one. *)
Fixpoint percent_apply (ps : list piece) (positional : list pyval)
    (mapping : option (list (pyval * pyval))) : fmt (list Z * list pyval) :=
  match ps with
  | [] => Ok ([], positional)
  | Literal text :: ps' =>
      '(rest, unused) ← percent_apply ps' positional mapping;
      mret (text ++ rest, unused)
  | Field f :: ps' =>
      if bool_decide (f = [ch "%"]) then
        '(rest, unused) ← percent_apply ps' positional mapping;
        mret (ch "%" :: rest, unused)
      else
        cv ← parse_conversion f;
        match cv_key cv with
        | Some key =>
            match mapping with
            | None => Err (TypeError "format requires a mapping")
            | Some entries =>
                match dict_lookup key entries with
                | None => Err KeyError
                | Some v =>
                    text ← format_conversion cv v;
                    '(rest, unused) ← percent_apply ps' positional mapping;
                    mret (text ++ rest, unused)
                end
            end
        | None =>
            match positional with
            | [] => Err (TypeError "not enough arguments for format string")
            | v :: positional' =>
                text ← format_conversion cv v;
                '(rest, unused) ← percent_apply ps' positional' mapping;
                mret (text ++ rest, unused)
            end
        end
  end.

(** [template % args] *)
Definition percent_format (template : list Z) (args : pyval)
  : fmt (list Z) :=
  ps ← percent_pieces template None [];
  let '(positional, mapping) :=
    match args with
    | PyTuple items => (items, None)
    | PyDict entries => ([args], Some entries)
    | _ => ([args], None)
    end in
  '(text, unused) ← percent_apply ps positional mapping;
  match unused, mapping with
  | _ :: _, None =>
      Err (TypeError "not all arguments converted during string formatting")
  | _, _ => Ok text
  end.

(** *** The snippets *)

Section Snippets.
(** [key = 'my_var'] and [value = 1.234] in the script. *)
Variable key : list Z.
Variable value : spec_float.

(** The names an f-string of the snippets can see. *)
Definition scope : list (list Z * pyval) :=
  [(lit "key", PyStr key); (lit "value", PyFloat value)].

(** [old_way = '%-10s = %.2f' % (key, value)] *)
Definition old_way : fmt (list Z) :=
  percent_format (lit "%-10s = %.2f") (PyTuple [PyStr key; PyFloat value]).

(** [new_way = '%(key)-10s = %(value).2f' % {'key': key, 'value': value}] *)
Definition new_way : fmt (list Z) :=
  percent_format (lit "%(key)-10s = %(value).2f")
    (PyDict [(PyStr (lit "key"), PyStr key);
             (PyStr (lit "value"), PyFloat value)]).

(** [reordered = '%(key)-10s = %(value).2f' % {'value': value, 'key': key}] *)
Definition reordered : fmt (list Z) :=
  percent_format (lit "%(key)-10s = %(value).2f")
    (PyDict [(PyStr (lit "value"), PyFloat value);
             (PyStr (lit "key"), PyStr key)]).

(** [f_string = f'{key:<10} = {value:.2f}'] *)
Definition f_string : fmt (list Z) :=
  interpolate (lit "{key:<10} = {value:.2f}") scope.

(** [c_tuple = '%-10s = %.2f' % (key, value)] *)
Definition c_tuple : fmt (list Z) :=
  percent_format (lit "%-10s = %.2f") (PyTuple [PyStr key; PyFloat value]).

(** [str_args = '{:<10} = {:.2f}'.format(key, value)] *)
Definition str_args : fmt (list Z) :=
  str_format (lit "{:<10} = {:.2f}") [PyStr key; PyFloat value] [].

(** [str_kw = '{key:<10} = {value:.2f}'.format(key=key, value=value)] *)
Definition str_kw : fmt (list Z) :=
  str_format (lit "{key:<10} = {value:.2f}") []
    [(lit "key", PyStr key); (lit "value", PyFloat value)].

(** [c_dict = '%(key)-10s = %(value).2f' % {'key': key, 'value': value}] *)
Definition c_dict : fmt (list Z) :=
  percent_format (lit "%(key)-10s = %(value).2f")
    (PyDict [(PyStr (lit "key"), PyStr key);
             (PyStr (lit "value"), PyFloat value)]).

End Snippets.

(** The literals of the script. *)
Definition my_var : list Z := lit "my_var".
Definition v1_234 : spec_float := float_lit 1234 (-3).

End Item4.

(** ** Chap1, Item 7, and Chap3, Item 24: what a run takes from outside *)
Module Item7.

(** The random number generator, as the script sees it: the numbers its
    successive calls will draw, and how many have been drawn. *)
Record world : Type := mk_world {
  draws : nat -> Z;
  drawn : nat
}.

(** [randint(a, b)]: the next draw, brought into [a..b]. *)
Definition randint (a b : Z) (w : world) : Z * world :=
  (a + draws w (drawn w) mod (b - a + 1),
   mk_world (draws w) (S (drawn w))).

(** The binary digits of a positive number, most significant first. *)
Fixpoint pos_digits (p : positive) : list Z :=
  match p with
  | xH => lit "1"
  | xO p' => pos_digits p' ++ lit "0"
  | xI p' => pos_digits p' ++ lit "1"
  end.

(** [bin(n)] *)
Definition bin (n : Z) : list Z :=
  match n with
  | Z0 => lit "0b0"
  | Zpos p => lit "0b" ++ pos_digits p
  | Zneg p => lit "-0b" ++ pos_digits p
  end.

(** The body of the loop:
    [if randint(0, 1): random_bits |= 1 << i]. *)
Definition set_random_bit (i : Z) (s : Z * world) : Z * world :=
  let '(random_bits, w) := s in
  let '(r, w) := randint 0 1 w in
  if r =? 0 then (random_bits, w)
  else (Z.lor random_bits (Z.shiftl 1 i), w).

(** [random_bits = 0
     for i in range(32): ...
     print(bin(random_bits))]: the number, the line printed, and the
    generator afterwards. *)
Definition random_bits_loop (w : world) : Z * world :=
  fold_left (fun s i => set_random_bit i s) (range 0 32) (0, w).

Definition item7 (w : world) : list Z * world :=
  let '(random_bits, w) := random_bits_loop w in
  (bin random_bits, w).

(** A generator that always draws the same number. *)
Definition always (n : Z) : world := mk_world (fun _ => n) 0.

(** *** Item 24: a default argument evaluated once

    [datetime.now()] reads the clock; a reading is shown by [str].  What
    a reading is and how it is shown is left open. *)
Section Clock.
Variable datetime : Type.
Variable str : datetime -> list Z.

(** [print(f'{when}: {message}')] *)
Definition log_line (when : datetime) (message : list Z) : list Z :=
  str when ++ lit ": " ++ message.

(** [def log(message, when=datetime.now())]: the default is the reading
    taken when the [def] statement ran, [at_def]. *)
Definition log_static (at_def : datetime) (message : list Z)
    (when : option datetime) : list Z :=
  log_line (default at_def when) message.

(** [def log(message, when=None)]: the clock is read at each call, which
    happens at [now]. *)
Definition log_dynamic (now : datetime) (message : list Z)
    (when : option datetime) : list Z :=
  let when := match when with None => now | Some t => t end in
  log_line when message.

(** [log('Hi there!'); sleep(0.1); log('Hello again!')] with the first
    definition, when the clock reads [t_def] at the [def]. *)
Definition item24_static (t_def : datetime) : list (list Z) :=
  [log_static t_def (lit "Hi there!") None;
   log_static t_def (lit "Hello again!") None].

(** The same calls with the second definition, when the clock reads [t1]
    and [t2] at the two calls. *)
Definition item24_dynamic (t1 t2 : datetime) : list (list Z) :=
  [log_dynamic t1 (lit "Hi there!") None;
   log_dynamic t2 (lit "Hello again!") None].

End Clock.

End Item7.

(** ** Chap1, Item 9: searching loops *)
Module Item9.

(** What the body of a loop asks for when it finishes an iteration. *)
Inductive flow (S R : Type) : Type :=
| Continue (s : S)
| Break (s : S)
| ReturnFrom (r : R).
Arguments Continue {S R} s.
Arguments Break {S R} s.
Arguments ReturnFrom {S R} r.

(** [for x in xs: body], threading the local state [s]; the result is
    either the state after the loop, or the value of a [return] executed
    inside it. *)
Fixpoint for_in {A S R} (xs : list A) (body : A -> S -> flow S R) (s : S)
  : S + R :=
  match xs with
  | [] => inl s
  | x :: xs' =>
      match body x s with
      | Continue s' => for_in xs' body s'
      | Break s' => inl s'
      | ReturnFrom r => inr r
      end
  end.

(** [a % i == 0 and b % i == 0] for a positive [i]. *)
Definition divides_both (a b i : Z) : bool :=
  (a mod i =? 0) && (b mod i =? 0).

(** [def coprime(a, b)]: return [False] from inside the loop. *)
Definition coprime (a b : Z) : bool :=
  match for_in (range 2 (Z.min a b + 1))
               (fun i (_ : unit) =>
                  if divides_both a b i then ReturnFrom false
                  else Continue tt) tt with
  | inr r => r
  | inl _ => true
  end.

(** [def coprime_alternate(a, b)]: a result variable and [break]. *)
Definition coprime_alternate (a b : Z) : bool :=
  let is_coprime := true in
  match for_in (R := Empty_set) (range 2 (Z.min a b + 1))
               (fun i is_coprime =>
                  if divides_both a b i then Break false
                  else Continue is_coprime) is_coprime with
  | inl is_coprime => is_coprime
  | inr r => match r with end
  end.

End Item9.

(** ** Chap2, Items 17 and 18: the script as a sequence of statements

    A block of the script runs against the module's namespace.  A name
    used at the top level, or inside a method while it runs, is looked up
    in the namespace and then among the builtins; a name found in neither
    raises [NameError].  Dictionaries, sets and instances are objects in a
    heap, reached through references, so that two names can share one
    object. *)
Module Item17.

(** The two definitions of [class Visits] in Item 17. *)
Inductive visits_class : Type :=
| Visits_setdefault
| Visits_defaultdict.

Inductive value : Type :=
| VNone
| VRef (l : nat)
| VClass (c : visits_class)
| VBuiltin (name : string)
| VDefaultdict.

(** Objects: a set of strings; a dictionary from strings to references,
    which is a [defaultdict(set)] when [default_set] holds; an instance of
    [Visits] with its attribute [data]. *)
Inductive hobj : Type :=
| HSet (items : gset string)
| HDict (default_set : bool) (entries : gmap string nat)
| HVisits (c : visits_class) (data : nat).

Record pystate : Type := mk_pystate {
  globals : gmap string value;
  heap : gmap nat hobj;
  next_loc : nat;
  stdout : list (gmap string (gset string))
}.

Definition empty_state : pystate := mk_pystate ∅ ∅ 0 [].

(** The builtins the two blocks use. *)
Definition builtins : list string := ["set"; "print"; "open"; "OSError"].

(** Reading a name. *)
Definition load (name : string) : eff pystate value :=
  fun st =>
    match globals st !! name with
    | Some v => (Return v, st)
    | None =>
        if existsb (String.eqb name) builtins
        then (Return (VBuiltin name), st)
        else (Raise (NameError name), st)
    end.

(** Binding a name. *)
Definition bind_name (name : string) (v : value) : eff pystate unit :=
  fun st => (Return tt,
             mk_pystate (<[name := v]> (globals st)) (heap st) (next_loc st)
                        (stdout st)).

Definition new (o : hobj) : eff pystate nat :=
  fun st => (Return (next_loc st),
             mk_pystate (globals st) (<[next_loc st := o]> (heap st))
                        (S (next_loc st)) (stdout st)).

Definition deref (l : nat) : eff pystate hobj :=
  fun st =>
    match heap st !! l with
    | Some o => (Return o, st)
    | None => (Raise (RuntimeError "dangling reference"), st)
    end.

Definition update (l : nat) (o : hobj) : eff pystate unit :=
  fun st => (Return tt,
             mk_pystate (globals st) (<[l := o]> (heap st)) (next_loc st)
                        (stdout st)).

Definition as_ref (v : value) : eff pystate nat :=
  match v with
  | VRef l => mret l
  | _ => raise (TypeError "not an object with attributes")
  end.

(** [set()], with the name [set] looked up where the call is. *)
Definition call_set : eff pystate nat :=
  f ← load "set";
  match f with
  | VBuiltin "set" => new (HSet ∅)
  | _ => raise (TypeError "object is not callable")
  end.

(** [s.add(x)] *)
Definition set_add (s : nat) (x : string) : eff pystate unit :=
  o ← deref s;
  match o with
  | HSet items => update s (HSet ({[x]} ∪ items))
  | _ => raise (TypeError "object has no attribute 'add'")
  end.

(** [d.get(key)] *)
Definition dict_get (d : nat) (key : string) : eff pystate value :=
  o ← deref d;
  match o with
  | HDict _ entries =>
      mret (match entries !! key with Some l => VRef l | None => VNone end)
  | _ => raise (TypeError "object has no attribute 'get'")
  end.

(** [d[key] = v] *)
Definition dict_setitem (d : nat) (key : string) (v : nat)
  : eff pystate unit :=
  o ← deref d;
  match o with
  | HDict ds entries => update d (HDict ds (<[key := v]> entries))
  | _ => raise (TypeError "object does not support item assignment")
  end.

(** [d.setdefault(key, default)] *)
Definition dict_setdefault (d : nat) (key : string) (default : nat)
  : eff pystate nat :=
  o ← deref d;
  match o with
  | HDict ds entries =>
      match entries !! key with
      | Some l => mret l
      | None => _ ← update d (HDict ds (<[key := default]> entries));
                mret default
      end
  | _ => raise (TypeError "object has no attribute 'setdefault'")
  end.

(** [d[key]]: a [defaultdict(set)] stores a new set under a missing key. *)
Definition dict_getitem (d : nat) (key : string) : eff pystate nat :=
  o ← deref d;
  match o with
  | HDict ds entries =>
      match entries !! key with
      | Some l => mret l
      | None =>
          if ds then
            s ← new (HSet ∅);
            _ ← update d (HDict ds (<[key := s]> entries));
            mret s
          else raise KeyError
      end
  | _ => raise (TypeError "object is not subscriptable")
  end.

(** [Visits.__init__(self)], in its two definitions. *)
Definition Visits_init (c : visits_class) : eff pystate nat :=
  match c with
  | Visits_setdefault =>
      (* self.data = {} *)
      new (HDict false ∅)
  | Visits_defaultdict =>
      (* self.data = defaultdict(set) *)
      f ← load "defaultdict";
      a ← load "set";
      match f, a with
      | VDefaultdict, VBuiltin "set" => new (HDict true ∅)
      | _, _ => raise (TypeError "object is not callable")
      end
  end.

(** [Visits.add(self, country, city)], in its two definitions. *)
Definition Visits_add (c : visits_class) (data : nat) (country city : string)
  : eff pystate unit :=
  match c with
  | Visits_setdefault =>
      (* city_set = self.data.setdefault(country, set())
         city_set.add(city) *)
      s ← call_set;
      city_set ← dict_setdefault data country s;
      set_add city_set city
  | Visits_defaultdict =>
      (* self.data[country].add(city) *)
      s ← dict_getitem data country;
      set_add s city
  end.

(** [name = Visits()] *)
Definition stmt_new_Visits (name : string) : eff pystate unit :=
  cls ← load "Visits";
  match cls with
  | VClass c =>
      data ← Visits_init c;
      self ← new (HVisits c data);
      bind_name name (VRef self)
  | _ => raise (TypeError "object is not callable")
  end.

(** [name.add(country, city)] *)
Definition stmt_add (name country city : string) : eff pystate unit :=
  v ← load name;
  self ← as_ref v;
  o ← deref self;
  match o with
  | HVisits c data => Visits_add c data country city
  | _ => raise (TypeError "object has no attribute 'add'")
  end.

(** The sets a dictionary holds, for printing. *)
Definition snapshot (entries : gmap string nat) (h : gmap nat hobj)
  : gmap string (gset string) :=
  omap (fun l => match h !! l with
                 | Some (HSet items) => Some items
                 | _ => None
                 end) entries.

(** [print(d)] for a dictionary of sets. *)
Definition print_dict (d : nat) : eff pystate unit :=
  f ← load "print";
  o ← deref d;
  match f, o with
  | VBuiltin "print", HDict _ entries =>
      fun st => (Return tt,
                 mk_pystate (globals st) (heap st) (next_loc st)
                            (stdout st ++ [snapshot entries (heap st)]))
  | _, _ => raise (TypeError "cannot print")
  end.

(** [print(name)] and [print(name.data)] *)
Definition stmt_print (name : string) : eff pystate unit :=
  v ← load name; d ← as_ref v; print_dict d.

Definition stmt_print_data (name : string) : eff pystate unit :=
  v ← load name;
  self ← as_ref v;
  o ← deref self;
  match o with
  | HVisits _ data => print_dict data
  | _ => raise (TypeError "object has no attribute 'data'")
  end.

(** The block of Item 17, statement by statement. *)
Definition item17 : eff pystate unit :=
  (* visits = {'Mexico': {'Tulum', 'Puerto Vallarta'}, 'Japan': {'Hakone'}} *)
  mexico ← new (HSet {["Tulum"; "Puerto Vallarta"]});
  japan ← new (HSet {["Hakone"]});
  d ← new (HDict false (<["Japan" := japan]> (<["Mexico" := mexico]> ∅)));
  _ ← bind_name "visits" (VRef d);
  (* visits.setdefault('France', set()).add('Arles') *)
  v ← load "visits"; d ← as_ref v;
  s ← call_set;
  france ← dict_setdefault d "France" s;
  _ ← set_add france "Arles";
  (* if (japan := visits.get('Japan')) is None:
         visits['Japan'] = japan = set() *)
  v ← load "visits"; d ← as_ref v;
  j ← dict_get d "Japan";
  _ ← bind_name "japan" j;
  _ ← match j with
      | VNone =>
          s ← call_set;
          _ ← bind_name "japan" (VRef s);
          v ← load "visits"; d ← as_ref v;
          dict_setitem d "Japan" s
      | _ => mret tt
      end;
  (* japan.add('Kyoto') *)
  v ← load "japan"; j ← as_ref v;
  _ ← set_add j "Kyoto";
  (* print(visits) *)
  _ ← stmt_print "visits";
  (* class Visits: ... setdefault ... *)
  _ ← bind_name "Visits" (VClass Visits_setdefault);
  _ ← stmt_new_Visits "visits";
  _ ← stmt_add "visits" "Russia" "Yekaterinburg";
  _ ← stmt_add "visits" "Tanzania" "Zanzibar";
  _ ← stmt_print_data "visits";
  (* class Visits: ... defaultdict ... *)
  _ ← bind_name "Visits" (VClass Visits_defaultdict);
  _ ← stmt_new_Visits "visits";
  _ ← stmt_add "visits" "England" "Bath";
  _ ← stmt_add "visits" "England" "London";
  stmt_print_data "visits".

(** [from collections import defaultdict], the statement of Item 18 that
    binds the name. *)
Definition import_defaultdict : eff pystate unit :=
  bind_name "defaultdict" VDefaultdict.

(** What the first two [print] calls of Item 17 show. *)
Definition printed_visits : gmap string (gset string) :=
  {[ "Mexico" := {[ "Tulum"; "Puerto Vallarta" ]};
     "Japan" := {[ "Hakone"; "Kyoto" ]};
     "France" := {[ "Arles" ]} ]}.

Definition printed_data : gmap string (gset string) :=
  {[ "Russia" := {[ "Yekaterinburg" ]};
     "Tanzania" := {[ "Zanzibar" ]} ]}.

Definition printed_england : gmap string (gset string) :=
  {[ "England" := {[ "Bath"; "London" ]} ]}.

End Item17.

(** ** Chap3, Item 20: raising instead of returning [None] *)
Module Item20.

(** The first [careful_divide]: [None] stands for "undefined". *)
Definition careful_divide_none (a b : pyval) : result pyval :=
  try_except (truediv a b) is_ZeroDivisionError (fun _ => Return PyNone).

(** The second [careful_divide]: a pair of a success flag and the
    quotient. *)
Definition careful_divide_pair (a b : pyval) : result pyval :=
  try_except (q ← truediv a b; mret (PyTuple [PyBool true; q]))
             is_ZeroDivisionError
             (fun _ => Return (PyTuple [PyBool false; PyNone])).

(** The final [careful_divide]:
    [try: return a / b
     except ZeroDivisionError as e: raise ValueError('Invalid inputs')] *)
Definition careful_divide (a b : pyval) : result pyval :=
  try_except (truediv a b) is_ZeroDivisionError
             (fun e => Raise (ValueError "Invalid inputs")).

End Item20.

(** ** Chap4, Items 27 and 28: comprehensions, statement by statement

    The two blocks run against the module's namespace, as the blocks of
    Items 17 and 18 do; the values here are lists, a dictionary and a set
    of integers, and the iterator that [map] returns.  The block of
    Item 29, which follows them in the file, adds integers, strings,
    lists of strings, dictionaries with [str] keys and a function. *)
Module Item28.

Inductive value : Type :=
| IntList (items : list Z)
| Matrix (rows : list (list Z))
| IntDict (entries : list (Z * Z))
| IntSet (items : gset Z)
| MapObject (remaining : list Z)
| Int (n : Z)
| Str (s : list Z)
| StrList (items : list (list Z))
| StrDict (entries : list (list Z * Z))
| Function (name : string).

Record pystate : Type := mk_pystate {
  globals : gmap string value;
  stdout : list value
}.

Definition empty_state : pystate := mk_pystate ∅ [].

(** The builtins the two blocks use. *)
Definition builtins : list string :=
  ["print"; "map"; "filter"; "list"; "dict"; "set"; "sum"].

(** Reading a name: the namespace, then the builtins. *)
Definition load (name : string) : eff pystate (option value) :=
  fun st =>
    match globals st !! name with
    | Some v => (Return (Some v), st)
    | None =>
        if existsb (String.eqb name) builtins then (Return None, st)
        else (Raise (NameError name), st)
    end.

(** Reading a name that must hold a list of integers. *)
Definition load_list (name : string) : eff pystate (list Z) :=
  v ← load name;
  match v with
  | Some (IntList items) => mret items
  | _ => raise (TypeError "object is not iterable")
  end.

Definition load_matrix (name : string) : eff pystate (list (list Z)) :=
  v ← load name;
  match v with
  | Some (Matrix rows) => mret rows
  | _ => raise (TypeError "object is not iterable")
  end.

(** Calling a builtin: the name is looked up, and must not have been
    bound to something else. *)
Definition builtin (name : string) : eff pystate unit :=
  v ← load name;
  match v with
  | None => mret tt
  | Some _ => raise (TypeError "object is not callable")
  end.

Definition bind_name (name : string) (v : value) : eff pystate unit :=
  fun st => (Return tt, mk_pystate (<[name := v]> (globals st)) (stdout st)).

Definition emit (v : value) : eff pystate unit :=
  fun st => (Return tt, mk_pystate (globals st) (stdout st ++ [v])).

(** [print(name)] *)
Definition print (name : string) : eff pystate unit :=
  _ ← builtin "print";
  v ← load name;
  match v with
  | Some v => emit v
  | None => raise (TypeError "printing a builtin is left out")
  end.

Definition is_even (x : Z) : bool := x mod 2 =? 0.

(** The block of Item 27. *)
Definition item27 : eff pystate unit :=
  (* a = [1, 2, 3, 4, 5, 6, 7, 8, 9, 10] *)
  _ ← bind_name "a" (IntList [1; 2; 3; 4; 5; 6; 7; 8; 9; 10]);
  (* squares = [x**2 for x in a] *)
  a ← load_list "a";
  _ ← bind_name "squares" (IntList (map (fun x => x ^ 2) a));
  _ ← print "squares";
  (* even_squares = [x**2 for x in a if x % 2 == 0] *)
  a ← load_list "a";
  _ ← bind_name "even_squares"
        (IntList (map (fun x => x ^ 2) (List.filter is_even a)));
  _ ← print "even_squares";
  (* alt = map(lambda x: x**2, filter(lambda x: x % 2 == 0, a)) *)
  _ ← builtin "map"; _ ← builtin "filter";
  a ← load_list "a";
  _ ← bind_name "alt"
        (MapObject (map (fun x => x ^ 2) (List.filter is_even a)));
  (* assert even_squares == list(alt) *)
  even_squares ← load_list "even_squares";
  _ ← builtin "list";
  alt ← load "alt";
  _ ← match alt with
      | Some (MapObject remaining) =>
          _ ← bind_name "alt" (MapObject []);
          if bool_decide (even_squares = remaining) then mret tt
          else raise AssertionError
      | _ => raise (TypeError "object is not iterable")
      end;
  (* even_squares_dict = {x: x**2 for x in a if x % 2 == 0} *)
  a ← load_list "a";
  _ ← bind_name "even_squares_dict"
        (IntDict (map (fun x => (x, x ^ 2)) (List.filter is_even a)));
  (* threes_cubed_set = {x**3 for x in a if x % 3 == 0} *)
  a ← load_list "a";
  _ ← bind_name "threes_cubed_set"
        (IntSet (list_to_set
                   (map (fun x => x ^ 3)
                        (List.filter (fun x => x mod 3 =? 0) a))));
  _ ← print "even_squares_dict";
  _ ← print "threes_cubed_set";
  (* alt_dict = dict(map(lambda x: (x, x**2),
                         filter(lambda x: x % 2 == 0, a))) *)
  _ ← builtin "dict"; _ ← builtin "map"; _ ← builtin "filter";
  a ← load_list "a";
  _ ← bind_name "alt_dict"
        (IntDict (map (fun x => (x, x ^ 2)) (List.filter is_even a)));
  (* alt_set = set(map(lambda x: x**3, filter(lambda x: x % 3 == 0, a))) *)
  _ ← builtin "set"; _ ← builtin "map"; _ ← builtin "filter";
  a ← load_list "a";
  bind_name "alt_set"
    (IntSet (list_to_set
               (map (fun x => x ^ 3)
                    (List.filter (fun x => x mod 3 =? 0) a)))).

Definition matrix_3x3 : list (list Z) := [[1; 2; 3]; [4; 5; 6]; [7; 8; 9]].

(** The block of Item 28. *)
Definition item28 : eff pystate unit :=
  (* matrix = [[1, 2, 3], [4, 5, 6], [7, 8, 9]] *)
  _ ← bind_name "matrix" (Matrix matrix_3x3);
  (* flat = [x for row in matrix for x in row] *)
  matrix ← load_matrix "matrix";
  _ ← bind_name "flat" (IntList (concat matrix));
  _ ← print "flat";
  (* squared = [[x**2 for x in row] for row in matrix] *)
  matrix ← load_matrix "matrix";
  _ ← bind_name "squared" (Matrix (map (map (fun x => x ^ 2)) matrix));
  _ ← print "squared";
  (* b = [x for x in a if x > 4 if x % 2 == 0] *)
  a ← load_list "a";
  _ ← bind_name "b"
        (IntList (List.filter is_even (List.filter (fun x => 4 <? x) a)));
  (* c = [x for x in a if x > 4 and x % 2 == 0] *)
  a ← load_list "a";
  _ ← bind_name "c"
        (IntList (List.filter (fun x => (4 <? x) && is_even x) a));
  (* matrix = [[1, 2, 3], [4, 5, 6], [7, 8, 9]] *)
  _ ← bind_name "matrix" (Matrix matrix_3x3);
  (* filtered = [[x for x in row if x % 3 == 0]
                 for row in matrix if sum(row) >= 10] *)
  matrix ← load_matrix "matrix";
  _ ← builtin "sum";
  _ ← bind_name "filtered"
        (Matrix (map (List.filter (fun x => x mod 3 =? 0))
                     (List.filter (fun row => 10 <=? foldl Z.add 0 row)
                                  matrix)));
  print "filtered".

End Item28.

(** ** Chap4, Item 31: iterating over an argument more than once *)
Module Item31.

(** What can be passed as [numbers]: a list, an instance of the container
    class [ReadVisits], or an iterator (a list iterator, or the generator
    [read_visits] returns).  Iterators are objects with state, so an
    iterator is named by its identity and its state lives in the heap. *)
Inductive iterable : Type :=
| ListObj (items : list Z)
| ReadVisitsObj (data_path : string)
| IteratorObj (id : nat).

(** The state of an iterator: a [read_visits] generator that has not
    opened its file yet; such a generator suspended in its loop, with
    the lines of the file it has not read yet; or a list iterator with
    the items still to come.  An iterator that is used up has no item
    to come. *)
Inductive iter_state : Type :=
| NotStarted (data_path : string)
| Reading (lines : list (list Z))
| Remaining (items : list Z).

(** Iterator objects by identity, and the data files: a file is the
    lines it holds, each a [str]. *)
Record heap : Type := mk_heap {
  next_id : nat;
  iters : gmap nat iter_state;
  files : gmap string (list (list Z))
}.

Definition alloc (s : iter_state) : eff heap nat :=
  fun h => (Return (next_id h),
            mk_heap (S (next_id h)) (<[next_id h := s]> (iters h)) (files h)).

Definition set_iter (id : nat) (s : iter_state) : eff heap unit :=
  fun h => (Return tt, mk_heap (next_id h) (<[id := s]> (iters h)) (files h)).

(** [iter(x)]: a new iterator for a container, the iterator itself for an
    iterator. *)
Definition iter_ (x : iterable) : eff heap nat :=
  match x with
  | ListObj items => alloc (Remaining items)
  | ReadVisitsObj data_path => alloc (NotStarted data_path)
  | IteratorObj id => mret id
  end.

(** What an iterator has still to give: items, or lines of a file that
    are yet to be read and converted. *)
Inductive pending : Type :=
| Lines (lines : list (list Z))
| Items (items : list Z).

(** What an iterator has still to give; a generator that has not
    started opens its file now. *)
Definition start (id : nat) : eff heap pending :=
  fun h =>
    match iters h !! id with
    | Some (Remaining items) => (Return (Items items), h)
    | Some (Reading lines) => (Return (Lines lines), h)
    | Some (NotStarted data_path) =>
        match files h !! data_path with
        | Some lines => (Return (Lines lines), h)
        | None =>
            (Raise (FileNotFoundError data_path),
             mk_heap (next_id h) (<[id := Remaining []]> (iters h)) (files h))
        end
    | None => (Return (Items []), h)
    end.

(** The loop [for x in it: s = body(x, s)] over the items a list
    iterator [it] still has: each turn takes one item off the iterator;
    an exception in the body leaves the loop with the later items still
    in the iterator. *)
Fixpoint for_items {T} (id : nat) (items : list Z)
    (body : Z -> T -> result T) (s : T) : eff heap T :=
  match items with
  | [] => _ ← set_iter id (Remaining []); mret s
  | x :: rest =>
      _ ← set_iter id (Remaining rest);
      s' ← pure (body x s);
      for_items id rest body s'
  end.

(** The body of the loop of every [normalize]:
    [percent = 100 * value / total; result.append(percent)]. *)
Definition append_percent (total value : Z) (percentages : list pyval)
  : result (list pyval) :=
  percent ← truediv (PyInt (100 * value)) (PyInt total);
  mret (percentages ++ [percent]).

(** [def read_visits(data_path)]: calling a generator function makes a
    generator object and runs nothing yet. *)
Definition read_visits (data_path : string) : eff heap iterable :=
  id ← alloc (NotStarted data_path); mret (IteratorObj id).

Section Int.
(** [int(line)] for a [str]: a number, or the exception the builtin
    raises, a [ValueError] when the line does not spell a number.  Which
    strings spell a number is the builtin's affair. *)
Variable int_ : list Z -> result Z.

(** The same loop over a generator of [read_visits], whose body is
    [for line in f: yield int(line)]: each turn reads one line and
    converts it; when the conversion raises, the generator is finished
    and the loop is left by that exception. *)
Fixpoint for_lines {T} (id : nat) (lines : list (list Z))
    (body : Z -> T -> result T) (s : T) : eff heap T :=
  match lines with
  | [] => _ ← set_iter id (Remaining []); mret s
  | line :: rest =>
      match int_ line with
      | Return x =>
          _ ← set_iter id (Reading rest);
          s' ← pure (body x s);
          for_lines id rest body s'
      | Raise e =>
          _ ← set_iter id (Remaining []);
          raise e
      end
  end.

Definition for_iter {T} (id : nat) (body : Z -> T -> result T) (s : T)
  : eff heap T :=
  p ← start id;
  match p with
  | Items items => for_items id items body s
  | Lines lines => for_lines id lines body s
  end.

(** [sum(numbers)] *)
Definition sum_ (numbers : iterable) : eff heap Z :=
  it ← iter_ numbers;
  for_iter it (fun value total => Return (total + value)) 0.

(** [list(numbers)] *)
Definition list_ (numbers : iterable) : eff heap (list Z) :=
  it ← iter_ numbers;
  for_iter it (fun value items => Return (items ++ [value])) [].

(** [def normalize(numbers)] *)
Definition normalize (numbers : iterable) : eff heap (list pyval) :=
  total ← sum_ numbers;
  it ← iter_ numbers;
  for_iter it (append_percent total) [].


(** [def normalize_func(get_iter)] *)
Definition normalize_func (get_iter : eff heap iterable)
  : eff heap (list pyval) :=
  numbers ← get_iter;
  total ← sum_ numbers;
  numbers' ← get_iter;
  it ← iter_ numbers';
  for_iter it (append_percent total) [].


(** [isinstance(x, Iterator)] *)
Definition isinstance_Iterator (x : iterable) : bool :=
  match x with
  | IteratorObj _ => true
  | _ => false
  end.



End Int.

(** A loop over a sequence that is at hand, with no iterator in between. *)
Fixpoint fold_result {T} (body : Z -> T -> result T) (items : list Z) (s : T)
  : result T :=
  match items with
  | [] => Return s
  | x :: rest => s' ← body x s; fold_result body rest s'
  end.

(** What the percentages of a sequence of integers are: the pure function
    the [normalize] family computes on a container. *)
Definition percentages (items : list Z) : result (list pyval) :=
  fold_result (append_percent (foldl Z.add 0 items)) items [].

Section Int_contents.
Variable int_ : list Z -> result Z.

(** The integers the lines of a file spell, when each of them spells
    one; otherwise the exception of the first that does not. *)
Fixpoint ints_of (lines : list (list Z)) : result (list Z) :=
  match lines with
  | [] => Return []
  | line :: rest => x ← int_ line; xs ← ints_of rest; Return (x :: xs)
  end.

(** A loop over the lines of a file, each converted when its turn
    comes. *)
Fixpoint fold_lines {T} (body : Z -> T -> result T) (lines : list (list Z))
    (s : T) : result T :=
  match lines with
  | [] => Return s
  | line :: rest => x ← int_ line; s' ← body x s; fold_lines body rest s'
  end.

(** The items an iterator in state [s] has, given the data files. *)
Definition state_items (s : iter_state) (fs : gmap string (list (list Z)))
  : result (list Z) :=
  match s with
  | Remaining items => Return items
  | Reading lines => ints_of lines
  | NotStarted data_path =>
      match fs !! data_path with
      | Some lines => ints_of lines
      | None => Raise (FileNotFoundError data_path)
      end
  end.

(** A loop over an iterator in state [s]. *)
Definition state_fold {T} (s : iter_state) (fs : gmap string (list (list Z)))
    (body : Z -> T -> result T) (acc : T) : result T :=
  match s with
  | Remaining items => fold_result body items acc
  | Reading lines => fold_lines body lines acc
  | NotStarted data_path =>
      match fs !! data_path with
      | Some lines => fold_lines body lines acc
      | None => Raise (FileNotFoundError data_path)
      end
  end.

(** The integers a container holds, and those an iterator has still to
    give, when the file can be opened and every line read spells a
    number. *)
Definition contents (numbers : iterable) (h : heap) : result (list Z) :=
  match numbers with
  | ListObj items => Return items
  | ReadVisitsObj data_path => state_items (NotStarted data_path) (files h)
  | IteratorObj id =>
      match iters h !! id with
      | Some s => state_items s (files h)
      | None => Return []
      end
  end.

End Int_contents.


(** An exception that a division [a / b] raises. *)
Definition raised_by_division (e : exn) : Prop :=
  exists a b, truediv (PyInt a) (PyInt b) = Raise e.

(** A container: what is not an iterator. *)
Definition is_container (numbers : iterable) : Prop :=
  isinstance_Iterator numbers = false.

(** The heap of the script when it calls [normalize_defensive(it)]:
    [visits = [15, 35, 80]; it = iter(visits)]. *)
Definition visits : list Z := [15; 35; 80].



End Item31.

(** ** Chap4: the generator protocol

    A generator function is embedded as resumable code: what it does when
    control enters it, and what it does when it is resumed at the [yield]
    where it is suspended.  [P] is the type of suspension points (the
    program counter and the local variables alive there); [St] is the
    state the code shares with its caller (an object it mutates), [unit]
    for a generator that shares nothing. *)
Module Generator.

(** How the caller resumes a suspended generator: [next(it)],
    [it.send(v)], [it.throw(e)]. *)
Inductive signal : Type :=
| Next
| Send (v : pyval)
| Throw (e : exn).

(** What resumed code does next: suspend at a [yield], run off its end, or
    raise. *)
Inductive step (P : Type) : Type :=
| Yield (v : pyval) (p : P)
| Done
| Raised (e : exn).
Arguments Yield {P} v p.
Arguments Done {P}.
Arguments Raised {P} e.

Record code (St P : Type) : Type := mk_code {
  enter : St -> step P * St;
  resume : P -> signal -> St -> step P * St
}.
Arguments mk_code {St P} enter resume.
Arguments enter {St P} c st.
Arguments resume {St P} c p s st.

Definition map_pc {P Q} (f : P -> Q) (s : step P) : step Q :=
  match s with
  | Yield v p => Yield v (f p)
  | Done => Done
  | Raised e => Raised e
  end.

(** A [StopIteration] that escapes the body of a generator reaches the
    caller as a [RuntimeError]. *)
Definition escaping (e : exn) : exn :=
  match e with
  | StopIteration => RuntimeError "generator raised StopIteration"
  | _ => e
  end.

Definition guard {P} (s : step P) : step P :=
  match s with
  | Raised e => Raised (escaping e)
  | _ => s
  end.

Section Combinators.
Context {St : Type}.

(** [yield v], as a statement: the value sent in is dropped, an exception
    thrown in is raised at the [yield]. *)
Definition yield_ (v : pyval) : code St unit :=
  mk_code (fun st => (Yield v tt, st))
          (fun _ s st =>
             match s with
             | Throw e => (Raised e, st)
             | Next | Send _ => (Done, st)
             end).

(** What happens after [c1] has taken a step, in [c1; c2]. *)
Definition then_ {P Q} (c2 : code St Q) (r : step P * St)
  : step (P + Q) * St :=
  match r with
  | (Yield v p, st) => (Yield v (inl p), st)
  | (Done, st) =>
      let '(s, st') := enter c2 st in (map_pc inr s, st')
  | (Raised e, st) => (Raised e, st)
  end.

(** [c1; c2], one statement after the other. *)
Definition seq_ {P Q} (c1 : code St P) (c2 : code St Q) : code St (P + Q) :=
  mk_code (fun st => then_ c2 (enter c1 st))
          (fun pc s st =>
             match pc with
             | inl p => then_ c2 (resume c1 p s st)
             | inr q =>
                 let '(r, st') := resume c2 q s st in (map_pc inr r, st')
             end).

(** Entering the iterations of [for x in xs: body(x)] one after the other
    until one of them suspends; the suspension point records the current
    item and the items still to come. *)
Fixpoint enter_each {A P} (body : A -> code St P) (xs : list A) (st : St)
  : step (A * list A * P) * St :=
  match xs with
  | [] => (Done, st)
  | x :: xs' =>
      match enter (body x) st with
      | (Yield v p, st') => (Yield v (x, xs', p), st')
      | (Done, st') => enter_each body xs' st'
      | (Raised e, st') => (Raised e, st')
      end
  end.

(** [for x in xs: body(x)] over a sequence [xs]. *)
Definition for_each {A P} (xs : list A) (body : A -> code St P)
  : code St (A * list A * P) :=
  mk_code (enter_each body xs)
          (fun '(x, xs', p) s st =>
             match resume (body x) p s st with
             | (Yield v p', st') => (Yield v (x, xs', p'), st')
             | (Done, st') => enter_each body xs' st'
             | (Raised e, st') => (Raised e, st')
             end).

(** [for x in g(): yield x] over a generator: the loop asks the inner
    generator for its next item with [next] whatever the outer generator
    was resumed with, and an exception thrown into the outer generator is
    raised at its own [yield], where nothing catches it. *)
Definition for_in_yield {P} (g : code St P) : code St P :=
  mk_code (fun st => let '(r, st') := enter g st in (guard r, st'))
          (fun p s st =>
             match s with
             | Throw e => (Raised e, st)
             | Next | Send _ =>
                 let '(r, st') := resume g p Next st in (guard r, st')
             end).

(** [yield from g()]: the inner generator is resumed with whatever the
    outer generator was resumed with. *)
Definition yield_from {P} (g : code St P) : code St P :=
  mk_code (fun st => let '(r, st') := enter g st in (guard r, st'))
          (fun p s st =>
             let '(r, st') := resume g p s st in (guard r, st')).

End Combinators.

(** *** Generator objects *)

(** A generator object is the code of its function and where that code
    stands: not started yet, suspended, or finished. *)
Inductive gstate (P : Type) : Type :=
| Created
| Suspended (p : P)
| Finished.
Arguments Created {P}.
Arguments Suspended {P} p.
Arguments Finished {P}.

Definition after {P St} (r : step P * St) : result pyval * gstate P * St :=
  match r with
  | (Yield v p, st) => (Return v, Suspended p, st)
  | (Done, st) => (Raise StopIteration, Finished, st)
  | (Raised e, st) => (Raise (escaping e), Finished, st)
  end.

(** One call of [next], [send] or [throw] on a generator object: the value
    it returns or the exception it raises, and the object afterwards.  An
    exception thrown into a generator that has not started is raised at
    the head of its body, so it escapes the body like any other; thrown
    into a finished generator it is raised as it is. *)
Definition gen_resume {St P} (c : code St P) (g : gstate P) (s : signal)
    (st : St) : result pyval * gstate P * St :=
  match g, s with
  | Created, (Next | Send PyNone) => after (enter c st)
  | Created, Send _ =>
      (Raise (TypeError
                "can't send non-None value to a just-started generator"),
       Created, st)
  | Created, Throw e => (Raise (escaping e), Finished, st)
  | Suspended p, _ => after (resume c p s st)
  | Finished, (Next | Send _) => (Raise StopIteration, Finished, st)
  | Finished, Throw e => (Raise e, Finished, st)
  end.

(** [for x in it: ...] and [list(it)]: call [next] until [StopIteration].
    A generator need not stop, so the loop carries fuel; [None] means the
    fuel ran out before the generator stopped. *)
Fixpoint drain {St P} (fuel : nat) (c : code St P) (g : gstate P) (st : St)
  : option (result (list pyval) * gstate P * St) :=
  match fuel with
  | O => None
  | S fuel' =>
      match gen_resume c g Next st with
      | (Return v, g', st') =>
          match drain fuel' c g' st' with
          | Some (Return vs, g'', st'') => Some (Return (v :: vs), g'', st'')
          | other => other
          end
      | (Raise StopIteration, g', st') => Some (Return [], g', st')
      | (Raise e, g', st') => Some (Raise e, g', st')
      end
  end.

(** [list(f())] for a generator function [f] that shares no state. *)
Definition list_of {P} (fuel : nat) (c : code unit P)
  : option (result (list pyval)) :=
  match drain fuel c Created tt with
  | Some (r, _, _) => Some r
  | None => None
  end.

(** Two pieces of code that do the same when they are entered and when
    they are resumed by [next]; they may differ under [send] and
    [throw]. *)
Definition next_equiv {St P} (c1 c2 : code St P) : Prop :=
  (forall st, enter c1 st = enter c2 st) /\
  (forall p st, resume c1 p Next st = resume c2 p Next st).

End Generator.

(** ** Chap4, Item 33: composing generators with [yield from] *)
Module Item33.
Import Generator.

(** [def move(period, speed): for _ in range(period): yield speed] *)
Definition move (period : Z) (speed : pyval) :=
  for_each (St := unit) (range 0 period) (fun _ => yield_ speed).

(** [def pause(delay): for _ in range(delay): yield 0] *)
Definition pause (delay : Z) :=
  for_each (St := unit) (range 0 delay) (fun _ => yield_ (PyInt 0)).

(** The [float] literals [5.0] and [3.0]. *)
Definition f5_0 : pyval := PyFloat (float_lit 50 (-1)).
Definition f3_0 : pyval := PyFloat (float_lit 30 (-1)).

(** [def animate()]: three loops that yield each delta again. *)
Definition animate :=
  seq_ (for_in_yield (move 4 f5_0))
       (seq_ (for_in_yield (pause 3))
             (for_in_yield (move 2 f3_0))).

(** [def animate_composed()]: three [yield from]. *)
Definition animate_composed :=
  seq_ (yield_from (move 4 f5_0))
       (seq_ (yield_from (pause 3))
             (yield_from (move 2 f3_0))).

(** [def child(): for i in range(1_000_000): yield i] *)
Definition child :=
  for_each (St := unit) (range 0 1000000) (fun i => yield_ (PyInt i)).

(** [def slow(): for i in child(): yield i] *)
Definition slow := for_in_yield child.

(** [def fast(): yield from child()] *)
Definition fast := yield_from child.

(** The deltas of the animation: four times [5.0], three times [0], twice
    [3.0]. *)
Definition deltas : list pyval :=
  replicate 4 f5_0 ++ replicate 3 (PyInt 0) ++ replicate 2 f3_0.

End Item33.

(** ** Chap4, Item 35: a timer that can be reset *)
Module Item35.
Import Generator.

Definition is_Reset (e : exn) : bool :=
  match e with Reset => true | _ => false end.

(** The head of the loop of [timer], entered with the local [current]:
    [while current: current -= 1; yield current]. *)
Definition timer_loop (current : Z) : step Z :=
  if current =? 0 then Done
  else
    let current := current - 1 in
    Yield (PyInt current) current.

(** [def timer(period)].  The only suspension point is the [yield] inside
    [try]; the local alive there is [current].  Resumed by [throw] with a
    [Reset], the handler sets [current = period] and the loop goes on; any
    other exception leaves the generator. *)
Definition timer (period : Z) : code unit Z :=
  mk_code (fun st => let current := period in (timer_loop current, st))
          (fun current s st =>
             match s with
             | Throw e =>
                 if is_Reset e then
                   let current := period in (timer_loop current, st)
                 else (Raised e, st)
             | Next | Send _ => (timer_loop current, st)
             end).

(** An instance of [class Timer]. *)
Record Timer : Type := mk_Timer {
  current : Z;
  period : Z
}.

(** [Timer.__init__(self, period)] *)
Definition Timer_init (period : Z) : Timer :=
  {| current := period; period := period |}.

(** [Timer.reset(self)] *)
Definition reset (self : Timer) : Timer :=
  {| current := period self; period := period self |}.

(** The loop of [Timer.__iter__]:
    [while self.current: self.current -= 1; yield self.current]. *)
Definition Timer_loop (self : Timer) : step unit * Timer :=
  if current self =? 0 then (Done, self)
  else
    let self := {| current := current self - 1; period := period self |} in
    (Yield (PyInt (current self)) tt, self).

(** [Timer.__iter__(self)]: a generator with no local of its own; the
    count lives in the object, which the caller can reach between two
    items. *)
Definition Timer_iter : code Timer unit :=
  mk_code Timer_loop
          (fun _ s self =>
             match s with
             | Throw e => (Raised e, self)
             | Next | Send _ => Timer_loop self
             end).

(** What the caller of a [timer] generator can do to it. *)
Fixpoint run_signals {St P} (c : code St P) (sigs : list signal)
    (g : gstate P) (st : St) : gstate P * St :=
  match sigs with
  | [] => (g, st)
  | s :: sigs' =>
      let '(_, g', st') := gen_resume c g s st in
      run_signals c sigs' g' st'
  end.

(** What the holder of a [Timer] and of one iterator over it can do. *)
Inductive timer_op : Type :=
| OpResume (s : signal)
| OpReset.

Definition run_op (o : timer_op) (g : gstate unit) (self : Timer)
  : gstate unit * Timer :=
  match o with
  | OpResume s => let '(_, g', self') := gen_resume Timer_iter g s self in
                  (g', self')
  | OpReset => (g, reset self)
  end.

Fixpoint run_ops (ops : list timer_op) (g : gstate unit) (self : Timer)
  : gstate unit * Timer :=
  match ops with
  | [] => (g, self)
  | o :: ops' => let '(g', self') := run_op o g self in run_ops ops' g' self'
  end.

(** [period-1, period-2, ..., 0] *)
Definition countdown (period : Z) : list pyval :=
  map PyInt (rev (range 0 period)).

(** What holds of the local [current] wherever [timer(period)] is
    suspended. *)
Definition timer_inv (period : Z) (g : gstate Z) : Prop :=
  match g with
  | Suspended current => 0 <= current < period
  | _ => True
  end.

(** What holds of a [Timer] made by [Timer(period)], whatever has been
    done to it since. *)
Definition Timer_inv (p : Z) (self : Timer) : Prop :=
  0 <= current self <= p /\ period self = p.

End Item35.

(** ** Sequences: indexing, ordering and [list.sort]

    What the remaining items use of the built-in sequence types. *)
From stdpp Require Import sorting.

Local Open Scope Z_scope.

Module Sequences.

(** [len(a)] *)
Definition len {A} (a : list A) : Z := Z.of_nat (length a).

(** The position an index denotes: a negative index counts from the end;
    outside the list, [IndexError]. *)
Definition position {A} (a : list A) (i : Z) : result nat :=
  let j := if i <? 0 then i + len a else i in
  if (0 <=? j) && (j <? len a) then Return (Z.to_nat j)
  else Raise IndexError.

(** [a[i]] *)
Definition getitem {A} (a : list A) (i : Z) : result A :=
  j ← position a i;
  match a !! j with
  | Some x => Return x
  | None => Raise IndexError
  end.

(** [a[i] = x] *)
Definition setitem {A} (a : list A) (i : Z) (x : A) : result (list A) :=
  j ← position a i; Return (<[j := x]> a).

(** [for x in xs: s = body(x, s)] where the body may raise. *)
Fixpoint for_result {A T} (xs : list A) (body : A -> T -> result T) (s : T)
  : result T :=
  match xs with
  | [] => Return s
  | x :: xs' => s' ← body x s; for_result xs' body s'
  end.

(** [enumerate(xs, start)] *)
Fixpoint enumerate {A} (start : Z) (xs : list A) : list (Z * A) :=
  match xs with
  | [] => []
  | x :: xs' => (start, x) :: enumerate (start + 1) xs'
  end.

(** [x < y] on two [str]: the first code point that differs decides, and
    a proper prefix is smaller. *)
Fixpoint str_lt (x y : list Z) : bool :=
  match x, y with
  | _, [] => false
  | [], _ :: _ => true
  | a :: x', b :: y' => (a <? b) || ((a =? b) && str_lt x' y')
  end.

(** [x < y] on two pairs of [int]s. *)
Definition pair_lt (x y : Z * Z) : bool :=
  (x.1 <? y.1) || ((x.1 =? y.1) && (x.2 <? y.2)).

(** *** [list.sort(key=..., reverse=...)]

    The sort is stable: items whose keys compare equal keep the order
    they had, also under [reverse=True].  It is embedded as the insertion
    of each item, from the last to the first, in front of the first item
    that may not come before it; the only comparison used is [<] on the
    keys, as in the built-in. *)
Section Sort.
Context {K A : Type} (lt : K -> K -> bool).

(** Whether an item with key [ky] has to come before one with key [kx]
    that stood before it. *)
Definition precedes (reverse : bool) (ky kx : K) : bool :=
  if reverse then lt kx ky else lt ky kx.

Fixpoint insert_keyed (reverse : bool) (kx : K * A) (l : list (K * A))
  : list (K * A) :=
  match l with
  | [] => [kx]
  | ky :: l' =>
      if precedes reverse ky.1 kx.1 then ky :: insert_keyed reverse kx l'
      else kx :: ky :: l'
  end.

Definition sort_keyed (reverse : bool) (l : list (K * A)) : list (K * A) :=
  foldr (insert_keyed reverse) [] l.

(** An item with key [a] may stand before one with key [b] in the sorted
    list. *)
Definition in_order (reverse : bool) (a b : K) : Prop :=
  precedes reverse b a = false.

(** [l.sort(key=key, reverse=reverse)] for a key function that neither
    raises nor has an effect: the new contents of [l]. *)
Definition sort_by (key : A -> K) (reverse : bool) (l : list A) : list A :=
  (sort_keyed reverse (map (fun x => (key x, x)) l)).*2.

(** The key function of a sort may raise or have an effect: it is called
    once on each item, in the order of the list, before anything is
    compared. *)
Fixpoint keys_of `{MBind M, MRet M} (key : A -> M K) (l : list A)
  : M (list (K * A)) :=
  match l with
  | [] => mret []
  | x :: l' =>
      k ← key x;
      rest ← keys_of key l';
      mret ((k, x) :: rest)
  end.

Definition sort_with `{MBind M, MRet M} (key : A -> M K) (reverse : bool)
    (l : list A) : M (list A) :=
  keyed ← keys_of key l;
  mret (sort_keyed reverse keyed).*2.

End Sort.

(** [l.sort()] on a list of [int]s and on a list of [str]. *)
Definition sort_ints : list Z -> list Z := sort_by Z.ltb (fun x => x) false.
Definition sort_strs : list (list Z) -> list (list Z) :=
  sort_by str_lt (fun x => x) false.

End Sequences.

(** ** Chap1, Item 6: swapping two items of a list in place *)
Module Item6.
Import Sequences.

Section Bubble_sort.
Context {A : Type}.

(** [x < y] on the items of the list. *)
Variable lt : A -> A -> bool.

(** The body of the loops of the first [bubble_sort]:
    [if a[i] < a[i-1]: temp = a[i]; a[i] = a[i-1]; a[i-1] = temp] *)
Definition swap_temp (i : Z) (a : list A) : result (list A) :=
  x ← getitem a i;
  y ← getitem a (i - 1);
  if lt x y then
    temp ← getitem a i;
    v ← getitem a (i - 1);
    a ← setitem a i v;
    setitem a (i - 1) temp
  else Return a.

(** The body of the loops of the second [bubble_sort]:
    [if a[i] < a[i-1]: a[i-1], a[i] = a[i], a[i-1]].  The right-hand
    side is evaluated first, then the targets are assigned from left to
    right. *)
Definition swap_unpack (i : Z) (a : list A) : result (list A) :=
  x ← getitem a i;
  y ← getitem a (i - 1);
  if lt x y then
    v1 ← getitem a i;
    v2 ← getitem a (i - 1);
    a ← setitem a (i - 1) v1;
    setitem a i v2
  else Return a.

(** [for _ in range(len(a)): for i in range(1, len(a)): body]; the
    function returns nothing, what is returned here is the list [a] as the
    function leaves it. *)
Definition bubble_loops (body : Z -> list A -> result (list A)) (a : list A)
  : result (list A) :=
  for_result (range 0 (len a))
             (fun _ a => for_result (range 1 (len a)) body a) a.

(** The first [def bubble_sort(a)], with a temporary variable. *)
Definition bubble_sort_temp : list A -> result (list A) :=
  bubble_loops swap_temp.

(** The second [def bubble_sort(a)], with unpacking. *)
Definition bubble_sort : list A -> result (list A) :=
  bubble_loops swap_unpack.

(** One pass of the inner loop seen from outside: the item [x] is carried
    to the right until a larger or equal one takes its place. *)
Fixpoint carry (x : A) (rest : list A) : list A :=
  match rest with
  | [] => [x]
  | y :: rest' => if lt y x then y :: carry x rest' else x :: carry y rest'
  end.

Definition pass (a : list A) : list A :=
  match a with
  | [] => []
  | x :: rest => carry x rest
  end.

(** [x <= y]: [y] is not smaller than [x]. *)
Definition at_most (x y : A) : Prop := lt y x = false.

(** What holds of the list after [k] passes: its last [k] items are
    sorted and no smaller than the items in front of them. *)
Definition sorted_tail (k : nat) (l : list A) : Prop :=
  exists front back,
    l = front ++ back /\ length back = k /\
    StronglySorted at_most back /\
    Forall (fun y => Forall (at_most y) back) front.

End Bubble_sort.

(** [names = ['pretzels', 'carrots', 'arugula', 'bacon']] *)
Definition names : list (list Z) :=
  [lit "pretzels"; lit "carrots"; lit "arugula"; lit "bacon"].

End Item6.

(** ** Chap2, Item 15: relying on the insertion order of a dictionary *)
Module Item15.
Import Sequences.

(** A [dict] with [str] keys: its items in the order of insertion, no key
    twice. *)
Definition dict (V : Type) : Type := list (list Z * V).

(** [d.get(key)] *)
Fixpoint dict_get {V} (d : dict V) (key : list Z) : option V :=
  match d with
  | [] => None
  | (k, v) :: d' => if bool_decide (k = key) then Some v else dict_get d' key
  end.

(** [d[key] = v]: a key that is there keeps its place, a new key goes to
    the end. *)
Fixpoint dict_setitem {V} (d : dict V) (key : list Z) (v : V) : dict V :=
  match d with
  | [] => [(key, v)]
  | (k, w) :: d' =>
      if bool_decide (k = key) then (k, v) :: d'
      else (k, w) :: dict_setitem d' key v
  end.

(** [del d[key]] *)
Fixpoint dict_delitem {V} (d : dict V) (key : list Z) : result (dict V) :=
  match d with
  | [] => Raise KeyError
  | (k, w) :: d' =>
      if bool_decide (k = key) then Return d'
      else d'' ← dict_delitem d' key; Return ((k, w) :: d'')
  end.

(** [list(d.keys())] *)
Definition keys {V} (d : dict V) : list (list Z) := d.*1.

(** What [populate_ranks] and [get_winner] may be handed as [ranks]: the
    methods of [collections.abc.MutableMapping], with [str] keys and
    [int] values.  [iter] gives the keys the iterator of the mapping
    yields, in its order. *)
Class MutableMapping (M : Type) : Type := {
  getitem : M -> list Z -> result Z;
  setitem : M -> list Z -> Z -> M;
  delitem : M -> list Z -> result M;
  iter : M -> list (list Z);
  len : M -> Z
}.

(** The built-in [dict]: iteration follows the order of insertion. *)
#[global] Instance dict_MutableMapping : MutableMapping (dict Z) := {|
  getitem d key :=
    match dict_get d key with Some v => Return v | None => Raise KeyError end;
  setitem := dict_setitem;
  delitem := dict_delitem;
  iter := keys;
  len d := Sequences.len d
|}.

(** [class SortedDict(MutableMapping)]: every method goes to the
    dictionary [self.data], except that [__iter__] sorts the keys:
    [keys = list(self.data.keys()); keys.sort();
     for key in keys: yield key]. *)
Record SortedDict : Type := mk_SortedDict { data : dict Z }.

(** [SortedDict()] *)
Definition SortedDict_init : SortedDict := {| data := [] |}.

#[global] Instance SortedDict_MutableMapping : MutableMapping SortedDict := {|
  getitem self key :=
    match dict_get (data self) key with
    | Some v => Return v
    | None => Raise KeyError
    end;
  setitem self key value := {| data := dict_setitem (data self) key value |};
  delitem self key :=
    d ← dict_delitem (data self) key; Return {| data := d |};
  iter self := sort_strs (keys (data self));
  len self := Sequences.len (data self)
|}.

(** The key function [votes.get] of the sort.  [get] gives [None] for a
    name that is not in [votes], and [None] does not compare with an
    [int]; the names sorted are the keys of [votes], for which this does
    not happen. *)
Definition votes_get (votes : dict Z) (name : list Z) : result Z :=
  match dict_get votes name with
  | Some count => Return count
  | None => Raise (TypeError "'<' not supported between instances")
  end.

(** [def populate_ranks(votes, ranks)]:
    [names = list(votes.keys())
     names.sort(key=votes.get, reverse=True)
     for i, name in enumerate(names, 1): ranks[name] = i];
    what is returned here is [ranks] as the function leaves it. *)
Definition populate_ranks {M} `{MutableMapping M} (votes : dict Z) (ranks : M)
  : result M :=
  let names := keys votes in
  names ← sort_with Z.ltb (votes_get votes) true names;
  Return (foldl (fun ranks '(i, name) => setitem ranks name i) ranks
                (enumerate 1 names)).

(** [def get_winner(ranks): return next(iter(ranks))] *)
Definition get_winner {M} `{MutableMapping M} (ranks : M) : result (list Z) :=
  match iter ranks with
  | [] => Raise StopIteration
  | key :: _ => Return key
  end.

(** [votes = {'otter': 1281, 'polar bear': 587, 'fox': 863}] *)
Definition votes : dict Z :=
  [(lit "otter", 1281); (lit "polar bear", 587); (lit "fox", 863)].

End Item15.

(** ** Chap3, Item 21: closures and the scope of their variables *)
Module Item21.
Import Sequences.

(** The [helper] of [sort_priority]:
    [if x in group: return (0, x)
     return (1, x)] *)
Definition helper (group : gset Z) (x : Z) : Z * Z :=
  if bool_decide (x ∈ group) then (0, x) else (1, x).

(** [def sort_priority(values, group)]: [values] as the function leaves
    it. *)
Definition sort_priority (values : list Z) (group : gset Z) : list Z :=
  sort_by pair_lt (helper group) false values.

(** The local variables of one call of a function. *)
Definition frame : Type := gmap string pyval.

(** An assignment [name = v] in the body of a closure.  The name is a
    local variable of the closure, whatever the enclosing function calls
    its own variables, unless the closure declares it [nonlocal]: then
    the variable of the enclosing function is assigned.  The state is the
    frame of the enclosing function. *)
Definition assign (nonlocals : list string) (name : string) (v : pyval)
    (locals : frame) : eff frame frame :=
  fun enclosing =>
    if bool_decide (name ∈ nonlocals)
    then (Return locals, <[name := v]> enclosing)
    else (Return (<[name := v]> locals), enclosing).

(** The [helper] of [sort_priority2] and [sort_priority3]:
    [if x in group:
         found = True
         return (0, x)
     return (1, x)],
    with the names the closure declares [nonlocal]. *)
Definition helper_found (nonlocals : list string) (group : gset Z) (x : Z)
  : eff frame (Z * Z) :=
  let locals : frame := {["x" := PyInt x]} in
  if bool_decide (x ∈ group) then
    _ ← assign nonlocals "found" (PyBool true) locals;
    mret (0, x)
  else mret (1, x).

(** [found = False; def helper ...; numbers.sort(key=helper);
     return found]: the value returned and [numbers] as the function
    leaves it. *)
Definition sort_priority_found (nonlocals : list string) (numbers : list Z)
    (group : gset Z) : result pyval * list Z :=
  let locals : frame := {["found" := PyBool false]} in
  match sort_with pair_lt (helper_found nonlocals group) false numbers
                  locals with
  | (Return numbers', locals) =>
      (match locals !! "found" with
       | Some v => Return v
       | None => Raise (NameError "found")
       end, numbers')
  | (Raise e, _) => (Raise e, numbers)
  end.

(** [def sort_priority2(numbers, group)]: [helper] declares nothing. *)
Definition sort_priority2 : list Z -> gset Z -> result pyval * list Z :=
  sort_priority_found [].

(** [def sort_priority3(numbers, group)]: [helper] starts with
    [nonlocal found]. *)
Definition sort_priority3 : list Z -> gset Z -> result pyval * list Z :=
  sort_priority_found ["found"].

(** An instance of [class Sorter]. *)
Record Sorter : Type := mk_Sorter {
  group : gset Z;
  found : bool
}.

(** [Sorter.__init__(self, group)] *)
Definition Sorter_init (group : gset Z) : Sorter :=
  {| group := group; found := false |}.

(** [Sorter.__call__(self, x)] *)
Definition Sorter_call (x : Z) : eff Sorter (Z * Z) :=
  fun self =>
    if bool_decide (x ∈ group self) then
      (Return (0, x), {| group := group self; found := true |})
    else (Return (1, x), self).

(** [sorter = Sorter(group); numbers.sort(key=sorter)]: [numbers] and
    [sorter] afterwards. *)
Definition sort_with_Sorter (numbers : list Z) (group : gset Z)
  : result (list Z) * Sorter :=
  sort_with pair_lt Sorter_call false numbers (Sorter_init group).

(** [x in group] for some [x] of [numbers]. *)
Definition some_in_group (numbers : list Z) (group : gset Z) : bool :=
  existsb (fun x => bool_decide (x ∈ group)) numbers.

(** [numbers = [8, 3, 1, 2, 5, 4, 7, 6]; group = {2, 3, 5, 7}] *)
Definition numbers : list Z := [8; 3; 1; 2; 5; 4; 7; 6].
Definition group_2357 : gset Z := {[2; 3; 5; 7]}.

End Item21.

(** ** Chap4, Item 30: generators instead of lists *)
Module Item30.
Import Generator Sequences.

Section Statements.
Context {St : Type}.

(** [if b: body], with no [else]. *)
Definition when_ {P} (b : bool) (body : code St P) : code St P :=
  mk_code (fun st => if b then enter body st else (Done, st))
          (resume body).

(** A statement that changes the local variables and yields nothing; no
    generator is ever suspended in it. *)
Definition exec (f : St -> St) : code St Empty_set :=
  mk_code (fun st => (Done, f st))
          (fun (p : Empty_set) _ _ => match p with end).

(** [yield e] for an expression [e] over the local variables. *)
Definition yield_of (e : St -> pyval) : code St unit :=
  mk_code (fun st => (Yield (e st) tt, st))
          (fun _ s st =>
             match s with
             | Throw e => (Raised e, st)
             | Next | Send _ => (Done, st)
             end).

(** Iteration seen from the code: what is still to come once the code has
    taken the step [r], each further item asked for by [next].  The fuel
    counts the items. *)
Fixpoint run_from {P} (fuel : nat) (c : code St P) (r : step P * St)
  : option (result (list pyval) * St) :=
  match r with
  | (Done, st) => Some (Return [], st)
  | (Raised e, st) => Some (Raise (escaping e), st)
  | (Yield v p, st) =>
      match fuel with
      | O => None
      | S fuel' =>
          match run_from fuel' c (resume c p Next st) with
          | Some (Return vs, st') => Some (Return (v :: vs), st')
          | other => other
          end
      end
  end.

(** After the step [r], the code yields [vs], stops, and leaves the
    state [st']. *)
Definition completes {P} (c : code St P) (r : step P * St)
    (vs : list pyval) (st' : St) : Prop :=
  exists fuel, run_from fuel c r = Some (Return vs, st').

(** The step of a [for] loop whose body, run for the item [x], has taken
    the step [r]; [xs] are the items still to come. *)
Definition each {A P} (body : A -> code St P) (x : A) (xs : list A)
    (r : step P * St) : step (A * list A * P) * St :=
  match r with
  | (Yield v p, st) => (Yield v (x, xs, p), st)
  | (Done, st) => enter_each body xs st
  | (Raised e, st) => (Raised e, st)
  end.

(** What a loop yields and the state it leaves, from what each run of
    its body yields and leaves. *)
Fixpoint fold_out {A} (f : A -> St -> list pyval * St) (xs : list A)
    (st : St) : list pyval * St :=
  match xs with
  | [] => ([], st)
  | x :: xs' =>
      let '(vs, st') := f x st in
      let '(ws, st'') := fold_out f xs' st' in
      (vs ++ ws, st'')
  end.

End Statements.

(** The truth value of a [str]: it is not empty. *)
Definition nonempty (text : list Z) : bool :=
  match text with
  | [] => false
  | _ :: _ => true
  end.

(** [letter == ' '] *)
Definition is_space (letter : Z) : bool := letter =? 32.

(** [def index_words_iter(text):
       if text:
           yield 0
       for index, letter in enumerate(text):
           if letter == ' ':
               yield index + 1] *)
Definition index_words_iter (text : list Z) :=
  seq_ (St := unit)
    (when_ (nonempty text) (yield_ (PyInt 0)))
    (for_each (enumerate 0 text)
       (fun '(index, letter) =>
          when_ (is_space letter) (yield_ (PyInt (index + 1))))).

(** [def index_file(handle):
       offset = 0
       for line in handle:
           if line:
               yield offset
           for letter in line:
               offset += 1
               if letter == ' ':
                   yield offset].
    The local variable [offset] is the state of the generator; [handle]
    is given by the lines it yields. *)
Definition index_file (handle : list (list Z)) :=
  seq_ (St := Z)
    (exec (fun _ => 0))
    (for_each handle
       (fun line =>
          seq_ (when_ (nonempty line) (yield_of PyInt))
               (for_each line
                  (fun letter =>
                     seq_ (exec (fun offset => offset + 1))
                          (when_ (is_space letter) (yield_of PyInt)))))).

(** The positions that follow a space of [text], counted from
    [offset]. *)
Fixpoint after_spaces (offset : Z) (text : list Z) : list Z :=
  match text with
  | [] => []
  | letter :: text' =>
      (if is_space letter then [offset + 1] else [])
      ++ after_spaces (offset + 1) text'
  end.

(** Where the words of [text] start, counted from [offset]: at its
    beginning, if it has one, and after each space. *)
Definition word_starts (offset : Z) (text : list Z) : list Z :=
  (if nonempty text then [offset] else []) ++ after_spaces offset text.

(** The same line by line, each line counted from the end of the one
    before. *)
Fixpoint line_starts (offset : Z) (lines : list (list Z)) : list Z :=
  match lines with
  | [] => []
  | line :: lines' =>
      word_starts offset line ++ line_starts (offset + len line) lines'
  end.

(** [address = 'Four score and seven years ago...'] *)
Definition address : list Z := lit "Four score and seven years ago...".

End Item30.

(** ** Chap4, Item 35: driving the timer *)
Module Item35_run.
Import Generator Item30 Item35.

(** *** [my_generator], twice *)

(** The first [def my_generator(): yield 1; yield 2; yield 3]. *)
Definition my_generator :=
  seq_ (St := list (list Z))
       (yield_ (PyInt 1)) (seq_ (yield_ (PyInt 2)) (yield_ (PyInt 3))).

Section Try.
Context {St : Type}.

(** What happens in [try: body  except E: handler  else: orelse] once
    the body has taken the step [r]. *)
Definition guarded {P H E} (catches : exn -> bool) (handler : code St H)
    (orelse : code St E) (r : step P * St) : step (P + H + E) * St :=
  match r with
  | (Yield v p, st) => (Yield v (inl (inl p)), st)
  | (Done, st) =>
      let '(s, st') := enter orelse st in (map_pc inr s, st')
  | (Raised e, st) =>
      if catches e then
        let '(s, st') := enter handler st in
        (map_pc (fun h => inl (inr h)) s, st')
      else (Raised e, st)
  end.

(** [try: body  except E: handler  else: orelse]: an exception raised in
    the body, or thrown in at a [yield] of the body, runs the handler when
    [E] matches; one raised elsewhere leaves the statement. *)
Definition try_ {P H E} (body : code St P) (catches : exn -> bool)
    (handler : code St H) (orelse : code St E) : code St (P + H + E) :=
  mk_code (fun st => guarded catches handler orelse (enter body st))
          (fun pc s st =>
             match pc with
             | inl (inl p) =>
                 guarded catches handler orelse (resume body p s st)
             | inl (inr h) =>
                 let '(r, st') := resume handler h s st in
                 (map_pc (fun h => inl (inr h)) r, st')
             | inr e =>
                 let '(r, st') := resume orelse e s st in
                 (map_pc inr r, st')
             end).

End Try.

Definition is_MyError (e : exn) : bool :=
  match e with MyError _ => true | _ => false end.

(** [print(line)], the state being the lines printed so far. *)
Definition print (line : list Z) : code (list (list Z)) Empty_set :=
  exec (fun out => out ++ [line]).

(** The second [my_generator]:
    [yield 1
     try:
         yield 2
     except MyError:
         print('Got MyError!')
     else:
         yield 3
     yield 4] *)
Definition my_generator_try :=
  seq_ (yield_ (PyInt 1))
       (seq_ (try_ (yield_ (PyInt 2)) is_MyError
                   (print (lit "Got MyError!"))
                   (yield_ (PyInt 3)))
             (yield_ (PyInt 4))).

(** *** The two [run]

    [check_for_reset()] polls an event outside the program; [polls k] is
    what its call number [k] returns.  [announce] prints; what is kept
    is the values announced. *)
Section Polls.
Variable polls : nat -> bool.

(** The loop of the first [run], which drives the generator [timer]:
    [while True:
         try:
             if check_for_reset(): current = it.throw(Reset())
             else: current = next(it)
         except StopIteration: break
         else: announce(current)].
    [polled] counts the calls of [check_for_reset], [announced] holds
    the values announced; the loop need not end, so it carries fuel. *)
Fixpoint run_loop (fuel : nat) (period : Z) (it : gstate Z) (polled : nat)
    (announced : list pyval) : option (result unit * list pyval) :=
  match fuel with
  | O => None
  | S fuel' =>
      let s := if polls polled then Throw Reset else Next in
      match gen_resume (timer period) it s tt with
      | (Return current, it', _) =>
          run_loop fuel' period it' (S polled) (announced ++ [current])
      | (Raise StopIteration, _, _) => Some (Return tt, announced)
      | (Raise e, _, _) => Some (Raise e, announced)
      end
  end.

(** The first [def run()]: [it = timer(4)] and the loop. *)
Definition run (fuel : nat) : option (result unit * list pyval) :=
  run_loop fuel 4 Created 0 [].

(** The loop of the second [run], over an instance of [Timer]:
    [for current in timer:
         if check_for_reset(): timer.reset()
         announce(current)] *)
Fixpoint run_Timer_loop (fuel : nat) (it : gstate unit) (timer : Timer)
    (polled : nat) (announced : list pyval)
  : option (result unit * list pyval) :=
  match fuel with
  | O => None
  | S fuel' =>
      match gen_resume Timer_iter it Next timer with
      | (Return current, it', timer) =>
          let timer := if polls polled then reset timer else timer in
          run_Timer_loop fuel' it' timer (S polled) (announced ++ [current])
      | (Raise StopIteration, _, _) => Some (Return tt, announced)
      | (Raise e, _, _) => Some (Raise e, announced)
      end
  end.

(** The second [def run()]: [timer = Timer(4)] and the loop. *)
Definition run_Timer (fuel : nat) : option (result unit * list pyval) :=
  run_Timer_loop fuel Created (Timer_init 4) 0 [].

End Polls.

(** The polls with one more in front. *)
Definition after_poll (first : bool) (polls : nat -> bool) (k : nat) : bool :=
  match k with
  | O => first
  | S k' => polls k'
  end.

(** [check_for_reset] as the script has it: its body is [...], it
    returns [None] at every call. *)
Definition check_for_reset : nat -> bool := fun _ => false.

End Item35_run.

(** ** Chap3, Item 25: keyword-only arguments *)
Module Item25.

(** [float('inf')] *)
Definition inf : pyval := PyFloat (S754_infinity false).

(** The first two [safe_division], which differ in how the arguments may
    be passed and not in what is done with them:
    [try:
         return number / divisor
     except OverflowError:
         if ignore_overflow: return 0
         else: raise
     except ZeroDivisionError:
         if ignore_zero_division: return float('inf')
         else: raise] *)
Definition safe_division (number divisor : pyval)
    (ignore_overflow ignore_zero_division : bool) : result pyval :=
  match truediv number divisor with
  | Return quotient => Return quotient
  | Raise OverflowError =>
      if ignore_overflow then Return (PyInt 0) else Raise OverflowError
  | Raise ZeroDivisionError =>
      if ignore_zero_division then Return inf else Raise ZeroDivisionError
  | Raise e => Raise e
  end.

End Item25.

(** ** Chap3, Item 26: a decorator that traces calls *)
Module Item26.

(** What [trace] prints after a call of [fibonacci]: the argument and the
    result. *)
Definition line : Type := (Z * Z)%type.

(** What the interpreter raises when calls nest too deep, a
    [RecursionError], which is a [RuntimeError]. *)
Definition RecursionError : exn :=
  RuntimeError "maximum recursion depth exceeded".

(** [print(...)] in the wrapper. *)
Definition print (l : line) : eff (list line) unit :=
  fun out => (Return tt, out ++ [l]).

(** [if n in (0, 1)] *)
Definition in_0_1 (n : Z) : bool := (n =? 0) || (n =? 1).

(** [@trace def fibonacci(n)]: the name [fibonacci] is bound to the
    wrapper, so the calls in the body are traced as well:
    [result = func(n); print(...); return result], where [func] is
    [if n in (0, 1): return n
     return (fibonacci(n - 2) + fibonacci(n - 1))].
    The state is the lines printed; [depth] is how many calls of
    [fibonacci] the interpreter lets nest. *)
Fixpoint fibonacci (depth : nat) (n : Z) : eff (list line) Z :=
  match depth with
  | O => raise RecursionError
  | S depth' =>
      let func : eff (list line) Z :=
        if in_0_1 n then mret n
        else
          a ← fibonacci depth' (n - 2);
          b ← fibonacci depth' (n - 1);
          mret (a + b) in
      result ← func;
      _ ← print (n, result);
      mret result
  end.

(** The Fibonacci numbers. *)
Fixpoint fib (n : nat) : Z :=
  match n with
  | O => 0
  | S n' =>
      match n' with
      | O => 1
      | S n'' => fib n'' + fib n'
      end
  end.

(** What a call that returns has printed: a line for each call, the
    line of the call itself last, each with the Fibonacci number of its
    argument. *)
Definition traced (n : nat) (printed : list line) : Prop :=
  Forall (fun l : line => 0 <= l.1 <= Z.of_nat n /\ l.2 = fib (Z.to_nat l.1))
         printed /\
  last printed = Some (Z.of_nat n, fib n) /\
  Z.of_nat (length printed) = 2 * fib (S n) - 1.

End Item26.

(** ** Chap4, Item 36: [itertools.accumulate] *)
Module Item36.

(** [def sum_modulo_20(first, second)] *)
Definition sum_modulo_20 (first second : Z) : Z :=
  let output := first + second in
  output mod 20.

(** The items of [itertools.accumulate(values, func)] after the first:
    each is [func] of the item before and the next value. *)
Fixpoint accumulate_from (func : Z -> Z -> Z) (total : Z) (values : list Z)
  : list Z :=
  match values with
  | [] => []
  | value :: values' =>
      let total := func total value in
      total :: accumulate_from func total values'
  end.

(** [list(itertools.accumulate(values, func))]: the first value as it
    is, then the running results. *)
Definition accumulate (func : Z -> Z -> Z) (values : list Z) : list Z :=
  match values with
  | [] => []
  | value :: values' => value :: accumulate_from func value values'
  end.

(** [sum_reduce] and [modulo_reduce] of the script, for any [values]. *)
Definition sum_reduce (values : list Z) : list Z := accumulate Z.add values.
Definition modulo_reduce (values : list Z) : list Z :=
  accumulate sum_modulo_20 values.

End Item36.

(** ** Chap1, Item 5: a helper function instead of a dense expression *)
Module Item5.
Import Sequences.

(** What [parse_qs] returns: for each parameter of the query string the
    values given to it. *)
Definition query : Type := gmap (list Z) (list (list Z)).

(** [values.get(key, [''])] *)
Definition get_or_blank (values : query) (key : list Z) : list (list Z) :=
  default [[]] (values !! key).

(** The truth value of a [str]. *)
Definition truthy (s : list Z) : bool :=
  match s with
  | [] => false
  | _ :: _ => true
  end.

Section Int.

(** [int(s)] for a [str]: the number it denotes, or [ValueError].  Which
    [str] denote a number is left open. *)
Variable int_str : list Z -> result Z.

(** [int(x)] for a [str] or an [int]. *)
Definition int_ (x : list Z + Z) : result Z :=
  match x with
  | inl s => int_str s
  | inr n => Return n
  end.

(** [int(my_values.get(key, [''])[0] or 0)] *)
Definition int_or_0 (my_values : query) (key : list Z) : result Z :=
  first ← getitem (get_or_blank my_values key) 0;
  int_ (if truthy first then inl first else inr 0).

(** [red_str = my_values.get(key, [''])
     red = int(red_str[0]) if red_str[0] else 0], and the same written
    as an [if] statement with [else]. *)
Definition int_if_else (my_values : query) (key : list Z) : result Z :=
  let red_str := get_or_blank my_values key in
  condition ← getitem red_str 0;
  if truthy condition then
    first ← getitem red_str 0; int_str first
  else Return 0.

(** [def get_first_int(values, key, default=0)] *)
Definition get_first_int (values : query) (key : list Z) (default : Z)
  : result Z :=
  let found := get_or_blank values key in
  condition ← getitem found 0;
  if truthy condition then
    first ← getitem found 0; int_str first
  else Return default.

End Int.

End Item5.

(** ** Chap3, Item 24: a mutable default argument *)
Module Item24.

Section Json.

(** What [json.loads] makes of good data is left open; on bad data it
    raises a [ValueError]. *)
Variable J : Type.
Variable json_loads : list Z -> option J.

(** The values [decode] returns: what [json.loads] returned, or a
    dictionary, which is an object in the heap. *)
Inductive value : Type :=
| Parsed (j : J)
| DictRef (l : nat).

(** The dictionaries by identity; they hold [int]s under [str] keys. *)
Record heap : Type := mk_heap {
  next_loc : nat;
  dicts : gmap nat (gmap string Z)
}.

(** [{}]: a new dictionary. *)
Definition new_dict : eff heap nat :=
  fun h => (Return (next_loc h),
            mk_heap (S (next_loc h)) (<[next_loc h := ∅]> (dicts h))).

(** [v[key] = n] *)
Definition setitem (v : value) (key : string) (n : Z) : eff heap unit :=
  fun h =>
    match v with
    | DictRef l =>
        match dicts h !! l with
        | Some d => (Return tt,
                     mk_heap (next_loc h) (<[l := <[key := n]> d]> (dicts h)))
        | None => (Raise (RuntimeError "dangling reference"), h)
        end
    | Parsed _ =>
        (Raise (TypeError "object does not support item assignment"), h)
    end.

(** The first [def decode(data, default={})].  The default is evaluated
    when the [def] statement runs: [shared] is the dictionary made then.
    [try: return json.loads(data)
     except ValueError: return default] *)
Definition decode_shared (shared : nat) (data : list Z)
    (default : option value) : eff heap value :=
  let default := match default with Some v => v | None => DictRef shared end in
  match json_loads data with
  | Some j => mret (Parsed j)
  | None => mret default
  end.

(** The second [def decode(data, default=None)]:
    [try: return json.loads(data)
     except ValueError:
         if default is None: default = {}
         return default] *)
Definition decode_fresh (data : list Z) (default : option value)
  : eff heap value :=
  match json_loads data with
  | Some j => mret (Parsed j)
  | None =>
      match default with
      | None => l ← new_dict; mret (DictRef l)
      | Some v => mret v
      end
  end.

(** The [def] statement of the first [decode], then
    [foo = decode(data1); foo['stuff'] = 5
     bar = decode(data2); bar['meep'] = 1]: [foo] and [bar]. *)
Definition script_shared (data1 data2 : list Z) : eff heap (value * value) :=
  shared ← new_dict;
  foo ← decode_shared shared data1 None;
  _ ← setitem foo "stuff" 5;
  bar ← decode_shared shared data2 None;
  _ ← setitem bar "meep" 1;
  mret (foo, bar).

(** The same statements with the second [decode]. *)
Definition script_fresh (data1 data2 : list Z) : eff heap (value * value) :=
  foo ← decode_fresh data1 None;
  _ ← setitem foo "stuff" 5;
  bar ← decode_fresh data2 None;
  _ ← setitem bar "meep" 1;
  mret (foo, bar).

End Json.

Arguments Parsed {J} j.
Arguments DictRef {J} l.

End Item24.

(** ** Chap2, Item 17: the two [Visits] classes, call by call *)
Module Item17_visits.
Import Item17.

(** [for country, city in adds: self.add(country, city)], on the
    dictionary [data] of an instance of a [Visits] class. *)
Fixpoint add_all (c : visits_class) (data : nat)
    (adds : list (string * string)) : eff pystate unit :=
  match adds with
  | [] => mret tt
  | (country, city) :: adds' =>
      _ ← Visits_add c data country city;
      add_all c data adds'
  end.

(** [Visits()] and then the calls of [add]: the dictionary [self.data]
    of the instance. *)
Definition visit (c : visits_class) (adds : list (string * string))
  : eff pystate nat :=
  data ← Visits_init c;
  _ ← add_all c data adds;
  mret data.

(** The cities visited in each country, as the calls say. *)
Definition visited (adds : list (string * string))
  : gmap string (gset string) :=
  foldl (fun m '(country, city) =>
           <[country := {[city]} ∪ default ∅ (m !! country)]> m)
        ∅ adds.

(** Whether the dictionary of the class is a [defaultdict(set)]. *)
Definition is_defaultdict (c : visits_class) : bool :=
  match c with
  | Visits_setdefault => false
  | Visits_defaultdict => true
  end.

(** What holds between two calls of [add]: the name [set] is the
    builtin, locations not handed out yet are free, and the dictionary
    [data] holds for each country a set of its own with the cities
    [m] gives. *)
Definition visits_inv (c : visits_class) (data : nat)
    (m : gmap string (gset string)) (st : pystate) : Prop :=
  globals st !! "set" = None /\
  (forall l, (next_loc st <= l)%nat -> heap st !! l = None) /\
  exists entries,
    heap st !! data = Some (HDict (is_defaultdict c) entries) /\
    (forall country,
       match entries !! country with
       | Some l => l <> data /\
                   exists items, heap st !! l = Some (HSet items) /\
                                 m !! country = Some items
       | None => m !! country = None
       end) /\
    (forall c1 c2 l,
       entries !! c1 = Some l -> entries !! c2 = Some l -> c1 = c2).

(** The dictionary [data] as [print] shows it. *)
Definition shown (data : nat) (st : pystate)
  : option (gmap string (gset string)) :=
  match heap st !! data with
  | Some (HDict _ entries) => Some (snapshot entries (heap st))
  | _ => None
  end.

End Item17_visits.

(** ** Chap1, Item 4: the other pairs of formatting expressions *)
Module Item4_more.
Import Item4.

(** [old_template] and [new_template] of the script; the letter after
    [entr] is U+00E9. *)
Definition old_template : list Z :=
  lit "Today's soup is %(soup)s, buy one get two %(oyster)s oysters, and our special entr"
  ++ [233] ++ lit "e is %(special)s.".

Definition new_template : list Z :=
  lit "Today's soup is {soup}, buy one get two {oyster} oysters, and our special entr"
  ++ [233] ++ lit "e is {special}.".

Section Menu.
(** The three values of the menu, ['lentil'], ['kumamoto'] and
    ['schnitzel'] in the script. *)
Variables soup oyster special : list Z.

(** [old_formatted = old_template % {'soup': ..., 'oyster': ...,
    'special': ...}] *)
Definition old_formatted : fmt (list Z) :=
  percent_format old_template
    (PyDict [(PyStr (lit "soup"), PyStr soup);
             (PyStr (lit "oyster"), PyStr oyster);
             (PyStr (lit "special"), PyStr special)]).

(** [new_formatted = new_template.format(soup=..., oyster=...,
    special=...)] *)
Definition new_formatted : fmt (list Z) :=
  str_format new_template []
    [(lit "soup", PyStr soup); (lit "oyster", PyStr oyster);
     (lit "special", PyStr special)].

(** The sentence with the three values in their places. *)
Definition sentence : list Z :=
  lit "Today's soup is " ++ soup ++ lit ", buy one get two " ++ oyster
  ++ lit " oysters, and our special entr" ++ [233] ++ lit "e is "
  ++ special ++ lit ".".

End Menu.

Section Pantry.
(** In the loop over [pantry]: the values of [i + 1], [item.title()] and
    [round(count)], two [int]s and a [str]. *)
Variable number : Z.
Variable title : list Z.
Variable rounded : Z.

(** [old_style = '#%d: %-10s = %d' % (i + 1, item.title(),
    round(count))] *)
Definition old_style : fmt (list Z) :=
  percent_format (lit "#%d: %-10s = %d")
    (PyTuple [PyInt number; PyStr title; PyInt rounded]).

(** [new_style = '#{}: {:<10s} = {}'.format(i + 1, item.title(),
    round(count))] *)
Definition new_style : fmt (list Z) :=
  str_format (lit "#{}: {:<10s} = {}")
    [PyInt number; PyStr title; PyInt rounded] [].

End Pantry.

End Item4_more.

(** ** Chap2, Item 14: sorting by more than one criterion *)
Module Item14.
Import Sequences.

(** An instance of [class Tool], with an [int] weight as the power tools
    have. *)
Record Tool : Type := mk_Tool {
  name : list Z;
  weight : Z
}.

(** [x < y] on two pairs of an [int] and a [str]: the first components
    decide unless they are equal. *)
Definition key_lt (x y : Z * list Z) : bool :=
  (x.1 <? y.1) || ((x.1 =? y.1) && str_lt x.2 y.2).

(** [power_tools.sort(key=lambda x: (x.weight, x.name))] *)
Definition sort_weight_name (power_tools : list Tool) : list Tool :=
  sort_by key_lt (fun x => (weight x, name x)) false power_tools.

(** [power_tools.sort(key=lambda x: (-x.weight, x.name))] *)
Definition sort_heaviest_name (power_tools : list Tool) : list Tool :=
  sort_by key_lt (fun x => (- weight x, name x)) false power_tools.

(** [power_tools.sort(key=lambda x: x.name)
     power_tools.sort(key=lambda x: x.weight, reverse=True)] *)
Definition sort_name_then_heaviest (power_tools : list Tool) : list Tool :=
  sort_by Z.ltb weight true (sort_by str_lt name false power_tools).

(** The same two sorts with the weights ascending:
    [power_tools.sort(key=lambda x: x.name)
     power_tools.sort(key=lambda x: x.weight)] *)
Definition sort_name_then_weight (power_tools : list Tool) : list Tool :=
  sort_by Z.ltb weight false (sort_by str_lt name false power_tools).

(** The sort seen on the items: [before y x] tells whether [y] has to
    come before an [x] that stood before it. *)
Section Insertion.
Context {A : Type} (before : A -> A -> bool).

Fixpoint insert_item (x : A) (l : list A) : list A :=
  match l with
  | [] => [x]
  | y :: l' => if before y x then y :: insert_item x l' else x :: y :: l'
  end.

Definition sort_items (l : list A) : list A := foldr insert_item [] l.

End Insertion.

(** [power_tools] of the script. *)
Definition power_tools : list Tool :=
  [mk_Tool (lit "drill") 4; mk_Tool (lit "circular saw") 5;
   mk_Tool (lit "jackhammer") 40; mk_Tool (lit "sander") 4].

End Item14.

(** ** Chap1, Item 9: the [else] block of a loop *)
Module Item9_else.
Import Item9.

(** [for x in xs: body  else: orelse]: the [else] block runs when the
    loop ends without [break]. *)
Fixpoint for_else {A S} (xs : list A) (body : A -> S -> flow S Empty_set)
    (orelse : S -> S) (s : S) : S :=
  match xs with
  | [] => orelse s
  | x :: xs' =>
      match body x s with
      | Continue s' => for_else xs' body orelse s'
      | Break s' => s'
      | ReturnFrom r => match r with end
      end
  end.

(** The lines the loop prints. *)
Inductive line : Type :=
| Testing (i : Z)
| Not_coprime
| Coprime.

(** The body of the loop:
    [print('Testing', i)
     if a % i == 0 and b % i == 0:
         print('Not coprime')
         break] *)
Definition testing (a b i : Z) (printed : list line)
  : flow (list line) Empty_set :=
  let printed := printed ++ [Testing i] in
  if divides_both a b i then Break (printed ++ [Not_coprime])
  else Continue printed.

(** [for i in range(2, min(a, b) + 1):
         print('Testing', i)
         if a % i == 0 and b % i == 0:
             print('Not coprime')
             break
     else:
         print('Coprime')]: the lines printed, for any [a] and [b]. *)
Definition testing_loop (a b : Z) : list line :=
  for_else (range 2 (Z.min a b + 1))
           (testing a b)
           (fun printed => printed ++ [Coprime])
           [].

End Item9_else.

(** ** Chap4, Item 29: repeated work in a comprehension *)
Module Item29.
Import Item15.

(** [def get_batches(count, size): return count // size].  The state
    counts the calls of the function. *)
Definition get_batches (count size : Z) : eff nat Z :=
  fun calls =>
    (if size =? 0 then Raise ZeroDivisionError else Return (count / size),
     S calls).

(** [stock.get(name, 0)] *)
Definition stock_get (stock : dict Z) (name : list Z) : Z :=
  default 0 (dict_get stock name).

(** [result = {}
     for name in order:
         count = stock.get(name, 0)
         batches = get_batches(count, 8)
         if batches:
             result[name] = batches] *)
Fixpoint result_loop (stock : dict Z) (order : list (list Z))
    (result : dict Z) : eff nat (dict Z) :=
  match order with
  | [] => mret result
  | name :: order' =>
      let count := stock_get stock name in
      batches ← get_batches count 8;
      let result :=
        if batches =? 0 then result else dict_setitem result name batches in
      result_loop stock order' result
  end.

(** A dictionary comprehension [{key: value for x in xs if condition}]:
    for each item the condition is evaluated first, and the key and the
    value only when it holds.  The condition hands on what an assignment
    expression in it has bound. *)
Fixpoint dict_comprehension {St A B} (xs : list A)
    (condition : A -> eff St (option B))
    (item : A -> B -> eff St (list Z * Z)) (found : dict Z)
  : eff St (dict Z) :=
  match xs with
  | [] => mret found
  | x :: xs' =>
      c ← condition x;
      match c with
      | None => dict_comprehension xs' condition item found
      | Some bound =>
          kv ← item x bound;
          dict_comprehension xs' condition item
                             (dict_setitem found kv.1 kv.2)
      end
  end.

(** [found = {name: get_batches(stock.get(name, 0), 8)
              for name in order
              if get_batches(stock.get(name, 0), 8)}] *)
Definition found_twice (stock : dict Z) (order : list (list Z))
  : eff nat (dict Z) :=
  dict_comprehension order
    (fun name =>
       batches ← get_batches (stock_get stock name) 8;
       mret (if batches =? 0 then None else Some tt))
    (fun name _ =>
       batches ← get_batches (stock_get stock name) 8;
       mret (name, batches))
    [].

(** [found = {name: batches for name in order
              if (batches := get_batches(stock.get(name, 0), 8))}] *)
Definition found_walrus (stock : dict Z) (order : list (list Z))
  : eff nat (dict Z) :=
  dict_comprehension order
    (fun name =>
       batches ← get_batches (stock_get stock name) 8;
       mret (if batches =? 0 then None else Some batches))
    (fun name batches => mret (name, batches))
    [].

(** What one name of the order adds to the result: its batches, when
    there is at least one. *)
Definition with_batches (stock : dict Z) (result : dict Z) (name : list Z)
  : dict Z :=
  let batches := stock_get stock name / 8 in
  if batches =? 0 then result else dict_setitem result name batches.

(** The names of [order] for which there is at least one batch. *)
Definition in_batches (stock : dict Z) (order : list (list Z))
  : list (list Z) :=
  List.filter (fun name => negb (stock_get stock name / 8 =? 0)) order.

(** [stock] and [order] of the script. *)
Definition stock : dict Z :=
  [(lit "nails", 125); (lit "screws", 35); (lit "wingnuts", 8);
   (lit "washers", 24)].
Definition order : list (list Z) :=
  [lit "screws"; lit "wingnuts"; lit "clips"].

End Item29.

(** ** Chap2, Item 18: default values that depend on the key *)
Module Item18.
Import Item15.

Section Pictures.
(** The file system and the file handles; [open(path, 'a+b')] is any
    function of the path and of the file system. *)
Context {W H : Type}.
Variable open : list Z -> W -> result H * W.

(** What the snippets act on: the file system, the paths [open] was
    called with and the paths of the lines
    ['Failed to open path ...'] printed, both in order. *)
Record world : Type := mk_world {
  files : W;
  opened : list (list Z);
  printed : list (list Z)
}.

Definition open_ab (path : list Z) : eff world H :=
  fun s =>
    let (r, w) := open path (files s) in
    (r, mk_world w (opened s ++ [path]) (printed s)).

Definition print_failed (path : list Z) : eff world unit :=
  fun s => (Return tt, mk_world (files s) (opened s) (printed s ++ [path])).

(** [except OSError] catches the subclasses of [OSError]. *)
Definition is_OSError (e : exn) : bool :=
  match e with
  | FileNotFoundError _ => true
  | _ => false
  end.

(** [try: body  except OSError: print(f'Failed to open path {path}'); raise] *)
Definition failing {A} (path : list Z) (body : eff world A) : eff world A :=
  fun s =>
    match body s with
    | (Return v, s') => (Return v, s')
    | (Raise e, s') =>
        if is_OSError e then (_ ← print_failed path; raise e) s'
        else (Raise e, s')
    end.

(** [def open_picture(profile_path)] *)
Definition open_picture (profile_path : list Z) : eff world H :=
  failing profile_path (open_ab profile_path).

(** [if (handle := pictures.get(path)) is None:
         try: handle = open(path, 'a+b')
         except OSError: ...
         else: pictures[path] = handle]: the handle and the dictionary as
    the statement leaves it. *)
Definition with_get (pictures : dict H) (path : list Z)
  : eff world (H * dict H) :=
  match dict_get pictures path with
  | Some handle => mret (handle, pictures)
  | None =>
      handle ← failing path (open_ab path);
      mret (handle, dict_setitem pictures path handle)
  end.

(** [d.setdefault(key, default)] *)
Definition setdefault (d : dict H) (key : list Z) (default : H)
  : H * dict H :=
  match dict_get d key with
  | Some v => (v, d)
  | None => (default, dict_setitem d key default)
  end.

(** [try: handle = pictures.setdefault(path, open(path, 'a+b'))
     except OSError: ...]: the argument is evaluated before the call. *)
Definition with_setdefault (pictures : dict H) (path : list Z)
  : eff world (H * dict H) :=
  failing path (default ← open_ab path;
                mret (setdefault pictures path default)).

(** [pictures = defaultdict(open_picture); pictures[path]]: the factory
    of a [defaultdict] is called without an argument. *)
Definition with_defaultdict (pictures : dict H) (path : list Z)
  : eff world (H * dict H) :=
  match dict_get pictures path with
  | Some handle => mret (handle, pictures)
  | None =>
      raise (TypeError
        "open_picture() missing 1 required positional argument: 'profile_path'")
  end.

(** [class Pictures(dict)]: [def __missing__(self, key)] *)
Definition Pictures_missing (self : dict H) (key : list Z)
  : eff world (H * dict H) :=
  value ← open_picture key;
  let self := dict_setitem self key value in
  mret (value, self).

(** [pictures[path]] on a [Pictures]: [__missing__] is called when the
    key is not there. *)
Definition Pictures_getitem (self : dict H) (key : list Z)
  : eff world (H * dict H) :=
  match dict_get self key with
  | Some value => mret (value, self)
  | None => Pictures_missing self key
  end.

End Pictures.

End Item18.

(** ** The four files, run from the top

    Python runs a file statement by statement and stops at the first
    exception that nothing catches.  Each file is embedded as the
    statements from its first line to the first one that raises, the
    [head], followed by the statements after it, the [rest]; whatever a
    file takes from outside (the random number generator, the clock) it
    takes in its [rest]. *)
Module Scripts.
Import Sequences.

(** What a run has printed: the values given to each call of [print], in
    order. *)
Definition stdout : Type := list (list pyval).

Section Run.
Context {St W : Type}.

(** Statements that take nothing from outside: they act on the state of
    the script and leave the outside [W] alone. *)
Definition within (c : eff St unit) : eff (St * W) unit :=
  fun sw => let '(r, s') := c sw.1 in (r, (s', sw.2)).

(** A run of the file [head; rest] that starts in state [s], with [w]
    outside. *)
Definition run (head : eff St unit) (rest : eff (St * W) unit) (s : St)
    (w : W) : result unit * (St * W) :=
  (_ ← within head; rest) (s, w).

End Run.

(** The state of a script: what it has printed, and what else it acts
    on. *)
Record state (X : Type) : Type := mk_state {
  printed : stdout;
  mem : X
}.
Arguments mk_state {X} printed mem.
Arguments printed {X} s.
Arguments mem {X} s.

(** [print(args...)] *)
Definition print {X} (args : list pyval) : eff (state X) unit :=
  fun s => (Return tt, mk_state (printed s ++ [args]) (mem s)).



(** *** Builtins the heads use *)

(** [list(v)] *)
Definition list_ (v : pyval) : result pyval :=
  match v with
  | PyBytes b => Return (PyList (map PyInt b))
  | PyStr s => Return (PyList (map (fun c => PyStr [c]) s))
  | PyList items | PyTuple items => Return (PyList items)
  | PyDict entries => Return (PyList entries.*1)
  | _ => Raise (TypeError "object is not iterable")
  end.





Section Str.
(** [repr] of a [float], a [str], a [bytes] and a [dict] is the builtin's
    and is left open. *)
Variable repr_other : pyval -> list Z.



End Str.





(** *** Chap1_Pythonic_Thinking.py, lines 1 to 81 *)
Section Chap1.
(** [sys.version_info] and [sys.version] of the interpreter, and its
    [repr] of a [str] and of a [bytes]. *)
Variables version_info version : pyval.
Variable repr_other : pyval -> list Z.
(** The encoding [open] uses where none is given. *)
Variable preferred : Item3.codec.



End Chap1.


(** *** Chap3_Functions.py, lines 1 to 265 *)
Section Chap3.
Variable repr_other : pyval -> list Z.




(** [def my_generator(): for i in range(10): yield i] *)
Definition my_generator :=
  Generator.for_each (St := unit) (range 0 10)
                     (fun i => Generator.yield_ (PyInt i)).










End Chap3.

(** *** Chap4_Comprehensions_and_Generators.py, lines 1 to 131

    The blocks of Items 27 and 28, and the block of Item 29 as far as
    the comprehension that reads [tenth] before anything has bound
    it. *)
Import Item15 Item28.

Definition load_int (name : string) : eff pystate Z :=
  v ← load name;
  match v with
  | Some (Int n) => mret n
  | _ => raise (TypeError "unsupported operand type(s)")
  end.


Definition load_strdict (name : string) : eff pystate (dict Z) :=
  v ← load name;
  match v with
  | Some (StrDict entries) => mret entries
  | _ => raise (TypeError "object is not a dict")
  end.

(** [get_batches(count, size)], where the name still holds the function
    that [def get_batches(count, size): return count // size] bound. *)
Definition call_get_batches (count size : Z) : eff pystate Z :=
  f ← load "get_batches";
  match f with
  | Some (Function "get_batches") =>
      if size =? 0 then raise ZeroDivisionError else mret (count / size)
  | _ => raise (TypeError "object is not callable")
  end.


(** [for name in order:
         count = stock.get(name, 0)
         batches = get_batches(count, 8)
         if batches:
             result[name] = batches], at the top of the module: its
    variables are names of the module. *)
Fixpoint result_loop (order : list (list Z)) : eff pystate unit :=
  match order with
  | [] => mret tt
  | name :: order' =>
      _ ← bind_name "name" (Str name);
      stock ← load_strdict "stock";
      _ ← bind_name "count" (Int (default 0 (dict_get stock name)));
      count ← load_int "count";
      batches ← call_get_batches count 8;
      _ ← bind_name "batches" (Int batches);
      batches ← load_int "batches";
      _ ← (if batches =? 0 then mret tt
           else
             result ← load_strdict "result";
             bind_name "result" (StrDict (dict_setitem result name batches)));
      result_loop order'
  end.




End Scripts.

(** ** Chap4, Items 30 to 36: where an exception comes from

    A generator function of these items has no [raise] statement.  What
    leaves its body is an exception that an operation of the body raised,
    or one that the caller threw in at a [yield] and that the body did
    not catch. *)
Module Origins.
Import Generator.

(** The exception [e] is one the caller threw in with the signal [s]; a
    [StopIteration] thrown in may have passed a [yield from], which turns
    it into a [RuntimeError]. *)
Definition thrown_in (s : signal) (e : exn) : Prop :=
  exists e', s = Throw e' /\ (e = e' \/ e = escaping e').

(** The code [c] raises only exceptions that its operations raise,
    [from_operations], and exceptions thrown into it. *)
Definition raises_only {St P} (from_operations : exn -> Prop)
    (c : code St P) : Prop :=
  (forall st e, (enter c st).1 = Raised e -> from_operations e) /\
  (forall p s st e, (resume c p s st).1 = Raised e ->
                    from_operations e \/ thrown_in s e).



Section Bind.
Context {St : Type}.


End Bind.

(** [for v in it: body(v)] in a function, over a generator object [it]:
    [next] until [StopIteration]; the state of the function is [Out].
    The generator need not stop, so the loop carries fuel. *)
Fixpoint drive {St P Out} (body : pyval -> eff Out unit) (fuel : nat)
    (c : code St P) (g : gstate P) (st : St) (out : Out)
  : option (result unit * Out) :=
  match fuel with
  | O => None
  | S fuel' =>
      match gen_resume c g Next st with
      | (Return v, g', st') =>
          match body v out with
          | (Return _, out') => drive body fuel' c g' st' out'
          | (Raise e, out') => Some (Raise e, out')
          end
      | (Raise StopIteration, _, _) => Some (Return tt, out)
      | (Raise e, _, _) => Some (Raise e, out)
      end
  end.

End Origins.

(** ** Chap4, Item 33: [render] and [run] *)
Module Item33_run.
Import Generator Origins.

Section Format.
(** [format(v, spec)], which an f-string calls for [{v:spec}]: the
    builtin's, left open. *)
Variable format_ : pyval -> list Z -> result (list Z).

(** [print(line)] in a function; the state is the lines printed. *)
Definition print (line : list Z) : eff (list (list Z)) unit :=
  fun out => (Return tt, out ++ [line]).

(** [def render(delta): print(f'Delta: {delta:.1f}')] *)
Definition render (delta : pyval) : eff (list (list Z)) unit :=
  text ← pure (format_ delta (lit ".1f"));
  print (lit "Delta: " ++ text).

(** [def run(func): for delta in func(): render(delta)], for a generator
    function [func] without parameters. *)
Definition run {P} (fuel : nat) (func : code unit P)
  : option (result unit * list (list Z)) :=
  drive render fuel func Created tt [].

End Format.

End Item33_run.

(** ** Chap4, Item 34: generators that are sent values *)
Module Item34.
Import Generator Origins.

(** *** The arithmetic of the waves *)






Section Waves.
(** The sine of a [float] that is not an infinity, as [math.sin] computes
    it, and [format] as in Item 33. *)
Variable sin : spec_float -> spec_float.
Variable format_ : pyval -> list Z -> result (list Z).






Definition print (line : list Z) : eff (list (list Z)) unit :=
  fun out => (Return tt, out ++ [line]).

(** [def transmit(output)] *)
Definition transmit (output : pyval) : eff (list (list Z)) unit :=
  match output with
  | PyNone => print (lit "Output is None")
  | _ =>
      text ← pure (format_ output (lit ">5.1f"));
      print (lit "Output: " ++ text)
  end.

(** [def run(it): for output in it: transmit(output)], for a generator
    object [it]. *)
Definition run {St P} (fuel : nat) (c : code St P) (it : gstate P) (st : St)
    (out : list (list Z)) : option (result unit * list (list Z)) :=
  drive transmit fuel c it st out.

(** [def my_generator():
         received = yield 1
         print(f'received = {received}')]; the state is the lines
    printed. *)
Definition my_generator : code (list (list Z)) unit :=
  mk_code (fun out => (Yield (PyInt 1) tt, out))
          (fun _ s out =>
             match s with
             | Throw e => (Raised e, out)
             | Next | Send _ =>
                 let received :=
                   match s with Send v => v | _ => PyNone end in
                 match format_ received [] with
                 | Return text =>
                     (Done, out ++ [lit "received = " ++ text])
                 | Raise e => (Raised e, out)
                 end
             end).

(** What a [yield] expression evaluates to when the generator is
    resumed by [next] or [send]. *)
Definition received (s : signal) : pyval :=
  match s with
  | Send v => v
  | _ => PyNone
  end.

















End Waves.

End Item34.

(** ** Chap4, Item 35: [announce] *)
Module Item35_announce.

Section Format.
Variable format_ : pyval -> list Z -> result (list Z).


End Format.

End Item35_announce.

(** ** Chap4, Item 36: the functions given to [itertools], called with
    any objects *)
Module Item36_any.

Section Operators.
(** [a + b], [a % b], [a < b] and [a == b] on any two objects: the
    operators of the language, left open. *)
Variables add mod_ lt eq : pyval -> pyval -> result pyval.



(** [def sum_modulo_20(first, second):
         output = first + second
         return output % 20] *)
Definition sum_modulo_20 (first second : pyval) : result pyval :=
  output ← add first second;
  mod_ output (PyInt 20).

(** [lambda x, y: x+y] *)
Definition plus (x y : pyval) : result pyval :=
  add x y.


End Operators.

End Item36_any.
(** * Properties *)

(** ** Rounding an [int] to a [float] *)
Section Float_facts.

Lemma digits2_pos_size (p : positive) : digits2_pos p = Pos.size p.
Proof. induction p; simpl; congruence. Qed.

Lemma digits2_pos_le (p : positive) : 2 ^ (Zpos (digits2_pos p) - 1) <= Zpos p.
Proof.
  rewrite digits2_pos_size.
  pose proof (Pos.size_le p) as H.
  assert (H2 : 2 ^ Zpos (Pos.size p) <= 2 * Zpos p).
  { change 2 with (Zpos 2) at 1. rewrite <- Pos2Z.inj_pow. 
    change (2 * Zpos p) with (Zpos p~0). lia. }
  replace (Zpos (Pos.size p)) with (Zpos (Pos.size p) - 1 + 1) in H2 by lia.
  rewrite Z.pow_add_r in H2 by lia. lia.
Qed.

Lemma shr_1_div2 (mrs : shr_record) :
  0 <= shr_m mrs -> shr_m (shr_1 mrs) = shr_m mrs / 2.
Proof.
  destruct mrs as [m r s]. cbn [shr_m]. intros Hm.
  destruct m as [|p|p]; [reflexivity| |lia].
  destruct p as [p|p|]; cbn [shr_1 shr_m].
  - rewrite (Pos2Z.inj_xI p). symmetry.
    rewrite Z.mul_comm, Z.div_add_l by lia. reflexivity.
  - rewrite (Pos2Z.inj_xO p). symmetry. rewrite Z.mul_comm, Z.div_mul by lia. reflexivity.
  - reflexivity.
Qed.

Lemma iter_shr_1 (n : positive) : forall mrs : shr_record,
  0 <= shr_m mrs ->
  shr_m (SpecFloat.iter_pos shr_1 n mrs) = shr_m mrs / 2 ^ Zpos n.
Proof.
  induction n as [n IH|n IH|]; intros mrs Hm; cbn [SpecFloat.iter_pos].
  - assert (P : 2 ^ Zpos n~1 = 2 * (2 ^ Zpos n * 2 ^ Zpos n)).
    { rewrite (Pos2Z.inj_xI n).
      replace (2 * Zpos n + 1) with (1 + Zpos n + Zpos n) by lia.
      rewrite !Z.pow_add_r by lia. change (2 ^ 1) with 2. ring. }
    assert (H1 : 0 <= shr_m (shr_1 mrs)).
    { rewrite shr_1_div2 by assumption. apply Z.div_pos; lia. }
    assert (H2 : 0 <= shr_m (SpecFloat.iter_pos shr_1 n (shr_1 mrs))).
    { rewrite IH by assumption. apply Z.div_pos; lia. }
    rewrite IH, IH, shr_1_div2 by assumption.
    rewrite !Z.div_div, P by lia. reflexivity.
  - assert (P : 2 ^ Zpos n~0 = 2 ^ Zpos n * 2 ^ Zpos n).
    { rewrite (Pos2Z.inj_xO n).
      replace (2 * Zpos n) with (Zpos n + Zpos n) by lia.
      apply Z.pow_add_r; lia. }
    assert (H2 : 0 <= shr_m (SpecFloat.iter_pos shr_1 n mrs)).
    { rewrite IH by assumption. apply Z.div_pos; lia. }
    rewrite IH, IH by assumption.
    rewrite !Z.div_div, P by lia. reflexivity.
  - rewrite shr_1_div2 by assumption. reflexivity.
Qed.

(** Rounding a positive mantissa whose exponent is not below the smallest
    one never gives zero. *)
Lemma shr_fexp_pos (m e : Z) (l : location) :
  0 < m -> -1074 <= e ->
  0 < shr_m (fst (shr_fexp prec emax m e l)) /\
  -1074 <= snd (shr_fexp prec emax m e l).
Proof.
  intros Hm He. unfold shr_fexp, shr.
  destruct m as [|p|p]; try lia. cbn [Zdigits2].
  pose proof (digits2_pos_le p) as Hd.
  assert (Hrec : shr_m (shr_record_of_loc (Zpos p) l) = Zpos p).
  { destruct l as [|[]]; reflexivity. }
  unfold fexp, emin, prec, emax.
  destruct (Z.max (Zpos (digits2_pos p) + e - 53) (3 - 1024 - 53) - e)
    as [|n|n] eqn:En; cbn [fst snd]; try (rewrite Hrec; lia).
  rewrite iter_shr_1 by (rewrite Hrec; lia). rewrite Hrec.
  split; [|lia].
  apply Z.div_str_pos. split; [lia|].
  apply Z.le_trans with (2 ^ (Zpos (digits2_pos p) - 1)); [|exact Hd].
  apply Z.pow_le_mono_r; lia.
Qed.

Lemma round_nearest_even_pos (m : Z) (l : location) :
  0 < m -> 0 < round_nearest_even m l.
Proof.
  intros Hm. destruct l as [|[]]; cbn; try lia.
  destruct (Z.even m); lia.
Qed.

Lemma binary_round_aux_nonzero (s : bool) (m e : Z) (l : location) :
  0 < m -> -1074 <= e ->
  float_is_zero (binary_round_aux prec emax s m e l) = false.
Proof.
  intros Hm He. unfold binary_round_aux.
  destruct (shr_fexp_pos m e l Hm He) as [H1 H2].
  destruct (shr_fexp prec emax m e l) as [mrs' e']. cbn [fst snd] in H1, H2.
  pose proof (round_nearest_even_pos _ (loc_of_shr_record mrs') H1) as H3.
  destruct (shr_fexp_pos _ e' loc_Exact H3 H2) as [H4 _].
  destruct (shr_fexp prec emax _ e' loc_Exact) as [mrs'' e''].
  cbn [fst] in H4.
  destruct (shr_m mrs''); try lia.
  destruct (e'' <=? emax - prec); reflexivity.
Qed.

Lemma binary_normalize_zero (n : Z) :
  float_is_zero (binary_normalize prec emax n 0 false) = (n =? 0).
Proof.
  assert (H : forall s p, float_is_zero (binary_round prec emax s p 0) = false).
  { intros s p. unfold binary_round, shl_align.
    assert (He : -1074 <= fexp prec emax (Zpos (digits2_pos p) + 0))
      by (unfold fexp, emin, prec, emax; lia).
    destruct (fexp prec emax (Zpos (digits2_pos p) + 0) - 0) eqn:E;
      apply binary_round_aux_nonzero; lia. }
  destruct n; cbn [binary_normalize]; [reflexivity|apply H|apply H].
Qed.

End Float_facts.

Section Item3_facts.
Import Item3.

(** *** Bit operations as arithmetic *)

Lemma lor_shiftl_add (hi lo k : Z) :
  0 <= k -> 0 <= lo < 2 ^ k -> Z.lor (Z.shiftl hi k) lo = hi * 2 ^ k + lo.
Proof.
  intros Hk Hlo.
  assert (Hd : Z.land (Z.shiftl hi k) lo = 0).
  { apply Z.bits_inj'. intros n Hn.
    rewrite Z.land_spec, Z.bits_0.
    destruct (Z.ltb_spec n k) as [Hlt|Hge].
    - rewrite Z.shiftl_spec_low by lia. reflexivity.
    - rewrite <- (Z.mod_small lo (2 ^ k)) by lia.
      rewrite Z.mod_pow2_bits_high by lia. apply andb_false_r. }
  rewrite <- Z.lxor_lor by exact Hd.
  rewrite <- Z.add_nocarry_lxor by exact Hd.
  rewrite Z.shiftl_mul_pow2 by lia. reflexivity.
Qed.

Lemma lor_C0 (x : Z) : 0 <= x < 64 -> Z.lor 0xC0 x = 0xC0 + x.
Proof. intros H. apply (lor_shiftl_add 3 x 6); lia. Qed.

Lemma lor_80 (x : Z) : 0 <= x < 64 -> Z.lor 0x80 x = 0x80 + x.
Proof. intros H. apply (lor_shiftl_add 2 x 6); lia. Qed.

Lemma lor_E0 (x : Z) : 0 <= x < 32 -> Z.lor 0xE0 x = 0xE0 + x.
Proof. intros H. apply (lor_shiftl_add 7 x 5); lia. Qed.

Lemma lor_F0 (x : Z) : 0 <= x < 16 -> Z.lor 0xF0 x = 0xF0 + x.
Proof. intros H. apply (lor_shiftl_add 15 x 4); lia. Qed.

Lemma land_3F (x : Z) : Z.land x 0x3F = x mod 64.
Proof. apply (Z.land_ones x 6). lia. Qed.

Lemma land_1F (x : Z) : Z.land x 0x1F = x mod 32.
Proof. apply (Z.land_ones x 5). lia. Qed.

Lemma land_0F (x : Z) : Z.land x 0x0F = x mod 16.
Proof. apply (Z.land_ones x 4). lia. Qed.

Lemma land_07 (x : Z) : Z.land x 0x07 = x mod 8.
Proof. apply (Z.land_ones x 3). lia. Qed.

Lemma shiftr_6 (x : Z) : Z.shiftr x 6 = x / 64.
Proof. apply (Z.shiftr_div_pow2 x 6). lia. Qed.

Lemma shiftr_12 (x : Z) : Z.shiftr x 12 = x / 4096.
Proof. apply (Z.shiftr_div_pow2 x 12). lia. Qed.

Lemma shiftr_18 (x : Z) : Z.shiftr x 18 = x / 262144.
Proof. apply (Z.shiftr_div_pow2 x 18). lia. Qed.

Lemma join6_arith (hi lo : Z) : join6 hi lo = hi * 64 + lo mod 64.
Proof.
  unfold join6. rewrite land_3F.
  apply (lor_shiftl_add hi (lo mod 64) 6); [lia|].
  apply Z.mod_pos_bound. lia.
Qed.

Lemma in_range_reflect (lo hi b : Z) :
  reflect (lo <= b <= hi) (in_range lo hi b).
Proof.
  unfold in_range.
  destruct (Z.leb_spec0 lo b), (Z.leb_spec0 b hi); constructor; lia.
Qed.

Lemma in_range_true (lo hi b : Z) : lo <= b <= hi -> in_range lo hi b = true.
Proof. intros H. destruct (in_range_reflect lo hi b); [reflexivity|lia]. Qed.

Lemma in_range_false (lo hi b : Z) :
  b < lo \/ hi < b -> in_range lo hi b = false.
Proof. intros H. destruct (in_range_reflect lo hi b); [lia|reflexivity]. Qed.

(** The octets [encode_char] produces, in arithmetic form. *)
Lemma encode_char_1 (cp : Z) : 0 <= cp < 0x80 -> encode_char cp = Return [cp].
Proof.
  intros H. unfold encode_char.
  destruct (Z.ltb_spec cp 0x80); [reflexivity|lia].
Qed.

Lemma encode_char_2 (cp : Z) :
  0x80 <= cp < 0x800 ->
  encode_char cp = Return [0xC0 + cp / 64; 0x80 + cp mod 64].
Proof.
  intros H. unfold encode_char.
  destruct (Z.ltb_spec cp 0x80); [lia|].
  destruct (Z.ltb_spec cp 0x800); [|lia].
  rewrite shiftr_6, land_3F.
  rewrite lor_C0, lor_80; [reflexivity| |].
  - apply Z.mod_pos_bound. lia.
  - split; [apply Z.div_pos; lia|apply Z.div_lt_upper_bound; lia].
Qed.

Lemma encode_char_3 (cp : Z) :
  0x800 <= cp < 0x10000 -> is_surrogate cp = false ->
  encode_char cp =
  Return [0xE0 + cp / 4096; 0x80 + (cp / 64) mod 64; 0x80 + cp mod 64].
Proof.
  intros H Hs. unfold encode_char.
  destruct (Z.ltb_spec cp 0x80); [lia|].
  destruct (Z.ltb_spec cp 0x800); [lia|].
  destruct (Z.ltb_spec cp 0x10000); [|lia].
  rewrite Hs, shiftr_6, shiftr_12, !land_3F.
  rewrite lor_E0, !lor_80; [reflexivity| | |].
  - apply Z.mod_pos_bound. lia.
  - apply Z.mod_pos_bound. lia.
  - split; [apply Z.div_pos; lia|apply Z.div_lt_upper_bound; lia].
Qed.

Lemma encode_char_4 (cp : Z) :
  0x10000 <= cp <= 0x10FFFF ->
  encode_char cp =
  Return [0xF0 + cp / 262144; 0x80 + (cp / 4096) mod 64;
          0x80 + (cp / 64) mod 64; 0x80 + cp mod 64].
Proof.
  intros H. unfold encode_char.
  destruct (Z.ltb_spec cp 0x80); [lia|].
  destruct (Z.ltb_spec cp 0x800); [lia|].
  destruct (Z.ltb_spec cp 0x10000); [lia|].
  rewrite shiftr_6, shiftr_12, shiftr_18, !land_3F.
  rewrite lor_F0, !lor_80; [reflexivity| | | |].
  - apply Z.mod_pos_bound. lia.
  - apply Z.mod_pos_bound. lia.
  - apply Z.mod_pos_bound. lia.
  - split; [apply Z.div_pos; lia|apply Z.div_lt_upper_bound; lia].
Qed.

Ltac arith := Z.div_mod_to_equations; lia.

Lemma is_surrogate_false (cp : Z) :
  is_surrogate cp = false <-> cp < 0xD800 \/ 0xDFFF < cp.
Proof.
  unfold is_surrogate.
  destruct (Z.leb_spec0 0xD800 cp), (Z.leb_spec0 cp 0xDFFF); simpl;
    split; intros; try discriminate; try reflexivity; lia.
Qed.

Lemma second_octet_ok_spec (b0 b1 : Z) :
  second_octet_ok b0 b1 = true <->
  0x80 <= b1 <= 0xBF /\
  (b0 = 0xE0 -> 0xA0 <= b1) /\ (b0 = 0xED -> b1 <= 0x9F) /\
  (b0 = 0xF0 -> 0x90 <= b1) /\ (b0 = 0xF4 -> b1 <= 0x8F).
Proof.
  unfold second_octet_ok.
  destruct (Z.eqb_spec b0 0xE0); [|destruct (Z.eqb_spec b0 0xED);
    [|destruct (Z.eqb_spec b0 0xF0); [|destruct (Z.eqb_spec b0 0xF4)]]];
  match goal with
  | |- context [in_range ?lo ?hi ?b] => destruct (in_range_reflect lo hi b)
  end; split; intros; try discriminate; try reflexivity; lia.
Qed.

Ltac unfold_bind := cbn [mbind result_bind mret result_ret].

(** Decoding what [encode_char] produced gives the code point back and
    leaves the rest of the input untouched. *)
Lemma decode_encode_char (cp : Z) (rest : list Z) :
  is_code_point cp -> is_surrogate cp = false ->
  exists b, encode_char cp = Return b /\
            utf8_decode (b ++ rest) = (s ← utf8_decode rest; mret (cp :: s)).
Proof.
  intros [H0 H1] Hs. apply is_surrogate_false in Hs as Hs'.
  destruct (Z_lt_le_dec cp 0x80) as [L1|L1];
    [|destruct (Z_lt_le_dec cp 0x800) as [L2|L2];
      [|destruct (Z_lt_le_dec cp 0x10000) as [L3|L3]]].
  - exists [cp]. split; [apply encode_char_1; lia|].
    cbn [app utf8_decode]. rewrite in_range_true by lia. reflexivity.
  - eexists. split; [apply encode_char_2; lia|].
    cbn [app utf8_decode].
    rewrite (in_range_false 0x00 0x7F) by arith.
    rewrite (in_range_true 0xC2 0xDF) by arith.
    rewrite (in_range_true 0x80 0xBF) by arith.
    rewrite land_1F, join6_arith.
    replace ((0xC0 + cp / 64) mod 32 * 64 + (0x80 + cp mod 64) mod 64)
      with cp by arith.
    reflexivity.
  - eexists. split; [apply encode_char_3; [lia|exact Hs]|].
    cbn [app utf8_decode].
    rewrite (in_range_false 0x00 0x7F) by arith.
    rewrite (in_range_false 0xC2 0xDF) by arith.
    rewrite (in_range_true 0xE0 0xEF) by arith.
    rewrite (proj2 (second_octet_ok_spec _ _)) by arith.
    rewrite (in_range_true 0x80 0xBF) by arith.
    cbn [andb]. rewrite land_0F, !join6_arith.
    replace (((0xE0 + cp / 4096) mod 16 * 64 + (0x80 + cp / 64 mod 64) mod 64)
             * 64 + (0x80 + cp mod 64) mod 64) with cp by arith.
    reflexivity.
  - eexists. split; [apply encode_char_4; lia|].
    cbn [app utf8_decode].
    rewrite (in_range_false 0x00 0x7F) by arith.
    rewrite (in_range_false 0xC2 0xDF) by arith.
    rewrite (in_range_false 0xE0 0xEF) by arith.
    rewrite (in_range_true 0xF0 0xF4) by arith.
    rewrite (proj2 (second_octet_ok_spec _ _)) by arith.
    rewrite !(in_range_true 0x80 0xBF) by arith.
    cbn [andb]. rewrite land_07, !join6_arith.
    replace ((((0xF0 + cp / 262144) mod 8 * 64
               + (0x80 + cp / 4096 mod 64) mod 64) * 64
              + (0x80 + cp / 64 mod 64) mod 64) * 64
             + (0x80 + cp mod 64) mod 64) with cp by arith.
    reflexivity.
Qed.

(** A [str] without surrogates encodes, and its encoding decodes to it. *)
Lemma utf8_decode_encode (s : list Z) :
  Forall is_code_point s -> Forall (fun cp => is_surrogate cp = false) s ->
  exists b, utf8_encode s = Return b /\ utf8_decode b = Return s.
Proof.
  induction s as [|cp s IH]; intros Hcp Hsur.
  - exists []. split; reflexivity.
  - apply Forall_cons in Hcp as [Hcp Hcps].
    apply Forall_cons in Hsur as [Hsur Hsurs].
    destruct (IH Hcps Hsurs) as (bs & Henc & Hdec).
    destruct (decode_encode_char cp bs Hcp Hsur) as (b & Hb & Hd).
    exists (b ++ bs). split.
    + cbn [utf8_encode]. rewrite Hb, Henc. reflexivity.
    + rewrite Hd, Hdec. reflexivity.
Qed.

Lemma bind_Return {A B} (r : result A) (k : A -> result B) (v : B) :
  (x ← r; k x) = Return v -> exists x, r = Return x /\ k x = Return v.
Proof. destruct r as [x|e]; [eauto|discriminate]. Qed.

(** Whatever decodes is the encoding of what it decodes to: the decoder
    accepts only the shortest form of each code point. *)
Lemma utf8_encode_decode (bs : list Z) :
  forall s, utf8_decode bs = Return s -> utf8_encode s = Return bs.
Proof.
  induction bs as [bs IH] using (induction_ltof1 _ (@length Z)).
  unfold ltof in IH. intros s H.
  destruct bs as [|b0 rest]; [injection H as <-; reflexivity|].
  cbn [utf8_decode] in H.
  destruct (in_range_reflect 0x00 0x7F b0) as [R1|R1].
  { apply bind_Return in H as (s' & Hs' & H). injection H as <-.
    apply IH in Hs'; [|simpl; lia].
    cbn [utf8_encode]. rewrite encode_char_1, Hs' by lia. reflexivity. }
  destruct (in_range_reflect 0xC2 0xDF b0) as [R2|R2].
  { destruct rest as [|b1 rest1]; [discriminate|].
    destruct (in_range_reflect 0x80 0xBF b1) as [C1|C1]; [|discriminate].
    apply bind_Return in H as (s' & Hs' & H). injection H as <-.
    apply IH in Hs'; [|simpl; lia].
    cbn [utf8_encode]. rewrite land_1F, join6_arith.
    rewrite encode_char_2, Hs' by arith. unfold_bind. cbn [app].
    do 2 f_equal; [|f_equal]; arith. }
  destruct (in_range_reflect 0xE0 0xEF b0) as [R3|R3].
  { destruct rest as [|b1 [|b2 rest2]]; try discriminate.
    destruct (second_octet_ok b0 b1) eqn:S1; [|discriminate].
    destruct (in_range_reflect 0x80 0xBF b2) as [C2|C2]; [|discriminate].
    cbn [andb] in H. apply second_octet_ok_spec in S1.
    apply bind_Return in H as (s' & Hs' & H). injection H as <-.
    apply IH in Hs'; [|simpl; lia].
    cbn [utf8_encode]. rewrite land_0F, !join6_arith.
    rewrite encode_char_3, Hs';
      [|arith|apply is_surrogate_false; arith].
    unfold_bind. cbn [app].
    do 2 f_equal; [|f_equal; [|f_equal]]; arith. }
  destruct (in_range_reflect 0xF0 0xF4 b0) as [R4|R4]; [|discriminate].
  destruct rest as [|b1 [|b2 [|b3 rest3]]]; try discriminate.
  destruct (second_octet_ok b0 b1) eqn:S1; [|discriminate].
  destruct (in_range_reflect 0x80 0xBF b2) as [C2|C2]; [|discriminate].
  destruct (in_range_reflect 0x80 0xBF b3) as [C3|C3]; [|discriminate].
  cbn [andb] in H. apply second_octet_ok_spec in S1.
  apply bind_Return in H as (s' & Hs' & H). injection H as <-.
  apply IH in Hs'; [|simpl; lia].
  cbn [utf8_encode]. rewrite land_07, !join6_arith.
  rewrite encode_char_4, Hs' by arith.
  unfold_bind. cbn [app].
  do 2 f_equal; [|f_equal; [|f_equal; [|f_equal]]]; arith.
Qed.

(** The decoder produces code points only, and never a surrogate. *)
Lemma utf8_decode_code_points (bs s : list Z) :
  utf8_decode bs = Return s ->
  Forall is_code_point s /\ Forall (fun cp => is_surrogate cp = false) s.
Proof.
  revert s.
  induction bs as [bs IH] using (induction_ltof1 _ (@length Z)).
  unfold ltof in IH. intros s H.
  destruct bs as [|b0 rest]; [injection H as <-; split; constructor|].
  cbn [utf8_decode] in H.
  assert (Hstep : forall cp rest' s',
    (length rest' < length (b0 :: rest))%nat ->
    utf8_decode rest' = Return s' ->
    0 <= cp <= 0x10FFFF -> (cp < 0xD800 \/ 0xDFFF < cp) ->
    Forall is_code_point (cp :: s') /\
    Forall (fun cp => is_surrogate cp = false) (cp :: s')).
  { intros cp rest' s' Hlen Hd Hcp Hsur.
    destruct (IH rest' Hlen s' Hd) as [F1 F2].
    split; constructor; try assumption. apply is_surrogate_false, Hsur. }
  destruct (in_range_reflect 0x00 0x7F b0) as [R1|R1].
  { apply bind_Return in H as (s' & Hs' & H). injection H as <-.
    apply (Hstep _ rest); [simpl; lia|assumption|lia|lia]. }
  destruct (in_range_reflect 0xC2 0xDF b0) as [R2|R2].
  { destruct rest as [|b1 rest1]; [discriminate|].
    destruct (in_range_reflect 0x80 0xBF b1) as [C1|C1]; [|discriminate].
    apply bind_Return in H as (s' & Hs' & H). injection H as <-.
    rewrite land_1F, join6_arith.
    apply (Hstep _ rest1); [simpl; lia|assumption|arith|arith]. }
  destruct (in_range_reflect 0xE0 0xEF b0) as [R3|R3].
  { destruct rest as [|b1 [|b2 rest2]]; try discriminate.
    destruct (second_octet_ok b0 b1) eqn:S1; [|discriminate].
    destruct (in_range_reflect 0x80 0xBF b2) as [C2|C2]; [|discriminate].
    cbn [andb] in H. apply second_octet_ok_spec in S1.
    apply bind_Return in H as (s' & Hs' & H). injection H as <-.
    rewrite land_0F, !join6_arith.
    apply (Hstep _ rest2); [simpl; lia|assumption|arith|arith]. }
  destruct (in_range_reflect 0xF0 0xF4 b0) as [R4|R4]; [|discriminate].
  destruct rest as [|b1 [|b2 [|b3 rest3]]]; try discriminate.
  destruct (second_octet_ok b0 b1) eqn:S1; [|discriminate].
  destruct (in_range_reflect 0x80 0xBF b2) as [C2|C2]; [|discriminate].
  destruct (in_range_reflect 0x80 0xBF b3) as [C3|C3]; [|discriminate].
  cbn [andb] in H. apply second_octet_ok_spec in S1.
  apply bind_Return in H as (s' & Hs' & H). injection H as <-.
  rewrite land_07, !join6_arith.
  apply (Hstep _ rest3); [simpl; lia|assumption|arith|arith].
Qed.

(** The calls of the script: [to_str(b'foo')], [to_str('bar')],
    [to_bytes(b'foo')], [to_bytes('bar')]. *)
Example to_str_foo_bar :
  to_str (PyBytes [0x66; 0x6F; 0x6F]) = Return (PyStr [0x66; 0x6F; 0x6F]) /\
  to_str (PyStr [0x62; 0x61; 0x72]) = Return (PyStr [0x62; 0x61; 0x72]) /\
  to_bytes (PyBytes [0x66; 0x6F; 0x6F]) = Return (PyBytes [0x66; 0x6F; 0x6F]) /\
  to_bytes (PyStr [0x62; 0x61; 0x72]) = Return (PyBytes [0x62; 0x61; 0x72]).
Proof. repeat split; reflexivity. Qed.

(** C10, as stated, fails: a [str] may hold a lone surrogate such as
    ['\ud800'], which the strict UTF-8 codec refuses to encode, so
    [to_str(to_bytes(s))] raises instead of returning [s]. *)
Lemma to_bytes_rejects_surrogate :
  is_code_point 0xD800 /\
  (x ← to_bytes (PyStr [0xD800]); to_str x) = Raise UnicodeEncodeError /\
  ~ (forall s, Forall is_code_point s ->
               (x ← to_bytes (PyStr s); to_str x) = Return (PyStr s)).
Proof.
  split; [unfold is_code_point; lia|]. split; [reflexivity|].
  intros H. specialize (H [0xD800]).
  assert (Hcp : Forall is_code_point [0xD800]).
  { apply Forall_cons_2; [unfold is_code_point; lia|apply Forall_nil_2]. }
  apply H in Hcp. discriminate Hcp.
Qed.

(** C10 (amended). For every [str s] that holds no surrogate code point,
    [to_str(to_bytes(s)) == s]; for every [bytes b] that is valid UTF-8,
    [to_bytes(to_str(b)) == b]; and each function returns its argument
    unchanged when it is already of the target type: [to_str] every
    [str], a surrogate in it or not, and [to_bytes] every [bytes], valid
    UTF-8 or not. *)
Theorem to_str_to_bytes_round_trip :
  (forall s : list Z,
     Forall is_code_point s ->
     Forall (fun cp => is_surrogate cp = false) s ->
     (x ← to_bytes (PyStr s); to_str x) = Return (PyStr s)) /\
  (forall b : list Z,
     valid_utf8 b ->
     (x ← to_str (PyBytes b); to_bytes x) = Return (PyBytes b)) /\
  (forall s : list Z, to_str (PyStr s) = Return (PyStr s)) /\
  (forall b : list Z, to_bytes (PyBytes b) = Return (PyBytes b)).
Proof.
  split; [|split; [|split; reflexivity]].
  - intros s Hcp Hsur.
    destruct (utf8_decode_encode s Hcp Hsur) as (bs & Henc & Hdec).
    cbn [to_bytes]. rewrite Henc. unfold_bind. cbn [to_str].
    rewrite Hdec. reflexivity.
  - intros b [s' Hb]. apply utf8_encode_decode in Hb as Hs'.
    cbn [to_str]. rewrite Hb. unfold_bind. cbn [to_bytes].
    rewrite Hs'. reflexivity.
Qed.

Lemma to_str_to_bytes_round_trip_witness :
  (x ← to_bytes (PyStr n_tilde_to_o_tilde); to_str x)
  = Return (PyStr n_tilde_to_o_tilde) /\
  (x ← to_str (PyBytes [0xC3; 0xB1; 0xC3; 0xB2]); to_bytes x)
  = Return (PyBytes [0xC3; 0xB1; 0xC3; 0xB2]) /\
  to_str (PyStr [0xD800]) = Return (PyStr [0xD800]) /\
  to_bytes (PyBytes [0xF1]) = Return (PyBytes [0xF1]).
Proof.
  assert (H1 : Forall is_code_point n_tilde_to_o_tilde).
  { unfold n_tilde_to_o_tilde, is_code_point.
    repeat (apply Forall_cons_2; [lia|]). apply Forall_nil_2. }
  assert (H2 : Forall (fun cp => is_surrogate cp = false) n_tilde_to_o_tilde).
  { unfold n_tilde_to_o_tilde.
    repeat (apply Forall_cons_2; [reflexivity|]). apply Forall_nil_2. }
  assert (H3 : valid_utf8 [0xC3; 0xB1; 0xC3; 0xB2]).
  { exists [0xF1; 0xF2]. reflexivity. }
  destruct to_str_to_bytes_round_trip as (R1 & R2 & R3 & R4).
  split; [exact (R1 _ H1 H2)|]. split; [exact (R2 _ H3)|].
  split; [exact (R3 _)|exact (R4 _)].
Defined.

(** *** The file snippets *)

(** The literal ['ñòóôõ'] is stored in the script as the UTF-8 octets
    C3 B1 C3 B2 C3 B3 C3 B4 C3 B5: five precomposed letters. *)
Example literal_n_tilde_to_o_tilde :
  utf8_decode [0xC3; 0xB1; 0xC3; 0xB2; 0xC3; 0xB3; 0xC3; 0xB4; 0xC3; 0xB5]
  = Return n_tilde_to_o_tilde.
Proof. reflexivity. Qed.

(** Writing [bytes] to a file opened in text mode raises [TypeError]; the
    file has been created empty by then. *)
Lemma write_text_mode_raises (preferred : codec) (fs : gmap string (list Z)) :
  write_text_mode preferred fs
  = (Raise (TypeError "write() argument must be str, not bytes"),
     <["data.bin" := []]> fs).
Proof. reflexivity. Qed.

Ltac io_simpl :=
  unfold mbind, eff_bind, mret, eff_ret;
  cbn [f_mode f_path f_pos f_encoding fst snd].

Lemma write_binary_mode_stores (preferred : codec)
    (fs : gmap string (list Z)) :
  write_binary_mode preferred fs
  = (Return tt, <["data.bin" := payload]> (<["data.bin" := []]> fs)).
Proof.
  unfold write_binary_mode, open_, write, store. io_simpl.
  rewrite lookup_insert_eq. reflexivity.
Qed.

(** Where UTF-8 is the preferred encoding, reading the file in text mode
    raises: the five octets are not valid UTF-8. *)
Lemma read_text_mode_raises (fs : gmap string (list Z)) :
  fs !! "data.bin" = Some payload ->
  read_text_mode UTF8 fs = (Raise UnicodeDecodeError, fs).
Proof.
  intros H. unfold read_text_mode, open_, read. io_simpl.
  rewrite H. io_simpl. rewrite H. reflexivity.
Qed.

(** C7. After [b'\xf1\xf2\xf3\xf4\xf5'] is written to [data.bin] in mode
    ['wb'], reading [data.bin] in mode ['rb'] returns exactly those five
    octets, and reading it in text mode with [encoding='cp1252'] returns
    exactly ['ñòóôõ'].  This holds whatever the file system held before
    and whatever the platform's preferred encoding is. *)
Theorem data_bin_round_trip (preferred : codec) (fs : gmap string (list Z)) :
  (write_binary_mode preferred fs).1 = Return tt /\
  read_binary_mode preferred (write_binary_mode preferred fs).2
  = (Return (PyBytes [0xF1; 0xF2; 0xF3; 0xF4; 0xF5]),
     (write_binary_mode preferred fs).2) /\
  read_cp1252 preferred (write_binary_mode preferred fs).2
  = (Return (PyStr n_tilde_to_o_tilde), (write_binary_mode preferred fs).2).
Proof.
  rewrite write_binary_mode_stores. cbn [fst snd].
  split; [reflexivity|].
  unfold read_binary_mode, read_cp1252, open_, read. io_simpl.
  rewrite !lookup_insert_eq. split; reflexivity.
Qed.

End Item3_facts.
Section Item4_facts.
Import Item4.

(** Other lines of Item 4. *)
Example binary_and_hex :
  percent_format (lit "Binary is %d, hex is %d")
                 (PyTuple [PyInt 187; PyInt 3167])
  = Ok (lit "Binary is 187, hex is 3167").
Proof. vm_compute. reflexivity. Qed.

Example percent_escape :
  percent_format (lit "%.2f%%") (PyFloat (float_lit 125 (-1)))
  = Ok (lit "12.50%").
Proof. vm_compute. reflexivity. Qed.

Example thousands_separator :
  format_ (PyFloat (float_lit 12345678 (-4))) (lit ",.2f")
  = Ok (lit "1,234.57").
Proof. vm_compute. reflexivity. Qed.

Example centered :
  format_ (PyStr (lit "my string")) (lit "^20s")
  = Ok (lit "     my string      ").
Proof. vm_compute. reflexivity. Qed.

Example brace_escape :
  str_format (lit "{0} replaces {{}}") [PyStr (lit "1.23")] []
  = Ok (lit "1.23 replaces {}").
Proof. vm_compute. reflexivity. Qed.

(** The five ways agree on every string and on every float: each one
    left-justifies [key] in ten columns and shows [value] with two digits
    after the point. *)
Lemma five_ways_agree (key : list Z) (value : spec_float) :
  c_tuple key value = f_string key value /\
  c_dict key value = f_string key value /\
  str_args key value = f_string key value /\
  str_kw key value = f_string key value /\
  old_way key value = f_string key value /\
  new_way key value = f_string key value /\
  reordered key value = f_string key value.
Proof.
  repeat split; cbv -[pad split_fixed];
    destruct (split_fixed value 2) as [[[negative int_digits] rest]|];
    try reflexivity; fold (@app Z); rewrite ?app_nil_r; reflexivity.
Qed.

(** C8. With [key = 'my_var'] and [value = 1.234], the C-style format
    with a tuple, the C-style format with a dictionary in either key
    order, [str.format] with positional and with keyword arguments, and
    the f-string all give the string ['my_var     = 1.23']. *)
Theorem formats_identical :
  c_tuple my_var v1_234 = Ok (lit "my_var     = 1.23") /\
  c_dict my_var v1_234 = Ok (lit "my_var     = 1.23") /\
  str_args my_var v1_234 = Ok (lit "my_var     = 1.23") /\
  str_kw my_var v1_234 = Ok (lit "my_var     = 1.23") /\
  f_string my_var v1_234 = Ok (lit "my_var     = 1.23") /\
  old_way my_var v1_234 = Ok (lit "my_var     = 1.23") /\
  new_way my_var v1_234 = Ok (lit "my_var     = 1.23") /\
  reordered my_var v1_234 = Ok (lit "my_var     = 1.23").
Proof.
  assert (Hf : f_string my_var v1_234 = Ok (lit "my_var     = 1.23"))
    by (vm_compute; reflexivity).
  destruct (five_ways_agree my_var v1_234)
    as (H1 & H2 & H3 & H4 & H5 & H6 & H7).
  rewrite H1, H2, H3, H4, H5, H6, H7.
  repeat split; exact Hf.
Qed.

End Item4_facts.

Section Item7_facts.
Import Item7.

(** The loop looks at one draw for each item, and only at whether the
    draw is odd. *)
Lemma random_bits_fold_ext (l : list Z) :
  forall (random_bits : Z) (w1 w2 : world),
  drawn w1 = drawn w2 ->
  (forall j, (j < length l)%nat ->
             draws w1 (drawn w1 + j)%nat mod 2
             = draws w2 (drawn w2 + j)%nat mod 2) ->
  (fold_left (fun s i => set_random_bit i s) l (random_bits, w1)).1
  = (fold_left (fun s i => set_random_bit i s) l (random_bits, w2)).1.
Proof.
  induction l as [|i l IH]; intros random_bits w1 w2 Hd Hdr; [reflexivity|].
  cbn [fold_left set_random_bit randint].
  change (1 - 0 + 1) with 2.
  pose proof (Hdr 0%nat ltac:(cbn; lia)) as H0.
  rewrite !Nat.add_0_r in H0. rewrite H0.
  assert (Hrest : forall j, (j < length l)%nat ->
            draws w1 (S (drawn w1) + j)%nat mod 2
            = draws w2 (S (drawn w2) + j)%nat mod 2).
  { intros j Hj. specialize (Hdr (S j) ltac:(cbn; lia)).
    rewrite !Nat.add_succ_r in Hdr. exact Hdr. }
  destruct (0 + draws w2 (drawn w2) mod 2 =? 0);
    apply (IH _ (mk_world (draws w1) (S (drawn w1)))
                (mk_world (draws w2) (S (drawn w2))));
    cbn; try lia; exact Hrest.
Qed.

(** Run by itself, the snippet of Item 7 prints what the random number
    generator makes it print: with every draw 0 it prints [0b0], with
    every draw 1 it prints [0b] followed by thirty-two ones.  (In a run
    of the file the snippet is not reached.) *)
Lemma random_bits_runs_differ :
  (item7 (always 0)).1 = lit "0b0" /\
  (item7 (always 1)).1
  = lit "0b11111111111111111111111111111111" /\
  (item7 (always 0)).1 <> (item7 (always 1)).1.
Proof.
  split; [vm_compute; reflexivity|]. split; [vm_compute; reflexivity|].
  vm_compute. discriminate.
Qed.

(** What the snippet prints is a function of its draws: two runs of it
    in which [randint] draws numbers of the same parity, call by call
    for its thirty-two calls, print the same line. *)
Lemma same_draws_same_output (w1 w2 : world) :
  drawn w1 = drawn w2 ->
  (forall j, (j < 32)%nat ->
             draws w1 (drawn w1 + j)%nat mod 2
             = draws w2 (drawn w2 + j)%nat mod 2) ->
  (item7 w1).1 = (item7 w2).1.
Proof.
  intros Hd Hdr. unfold item7.
  pose proof (random_bits_fold_ext (range 0 32) 0 w1 w2 Hd Hdr) as H.
  fold (random_bits_loop w1) in H. fold (random_bits_loop w2) in H.
  destruct (random_bits_loop w1) as [b1 w1'].
  destruct (random_bits_loop w2) as [b2 w2'].
  cbn in *. rewrite H. reflexivity.
Qed.

(** Item 24, first definition: both lines carry the reading taken at the
    [def]; a run whose reading is shown differently prints differently. *)
Lemma item24_static_depends_on_clock (datetime : Type)
    (str : datetime -> list Z) (t t' : datetime) :
  str t <> str t' -> item24_static datetime str t <> item24_static datetime str t'.
Proof.
  intros Hne H. unfold item24_static, log_static, log_line in H. cbn in H.
  injection H as H _. apply app_inv_tail in H. contradiction.
Qed.

End Item7_facts.

Section Item9_facts.
Import Item9.

Lemma elem_of_range (lo hi i : Z) : i ∈ range lo hi <-> lo <= i < hi.
Proof.
  unfold range. rewrite list_elem_of_fmap. split.
  - intros (k & -> & Hk). apply elem_of_seq in Hk. lia.
  - intros Hi. exists (Z.to_nat (i - lo)). split; [lia|].
    apply elem_of_seq. lia.
Qed.

(** The early-return loop answers [true] exactly when no item of the
    sequence divides both numbers. *)
Lemma coprime_loop_true (a b : Z) (xs : list Z) :
  match for_in xs (fun i (_ : unit) =>
                     if divides_both a b i then ReturnFrom false
                     else Continue tt) tt with
  | inr r => r
  | inl _ => true
  end = forallb (fun i => negb (divides_both a b i)) xs.
Proof.
  induction xs as [|x xs IH]; simpl; [reflexivity|].
  destruct (divides_both a b x); simpl; [reflexivity|exact IH].
Qed.

(** The flag of the [break] loop is a loop invariant: it is [true] while
    the loop runs, and the loop leaves it [false] exactly when it breaks. *)
Lemma coprime_alternate_loop (a b : Z) (xs : list Z) :
  match for_in (R := Empty_set) xs
               (fun i is_coprime =>
                  if divides_both a b i then Break false
                  else Continue is_coprime) true with
  | inl is_coprime => is_coprime
  | inr r => match r with end
  end = forallb (fun i => negb (divides_both a b i)) xs.
Proof.
  induction xs as [|x xs IH]; simpl; [reflexivity|].
  destruct (divides_both a b x); simpl; [reflexivity|exact IH].
Qed.

Lemma divides_both_spec (a b i : Z) :
  0 < i -> divides_both a b i = true <-> (i | a) /\ (i | b).
Proof.
  intros Hi. unfold divides_both.
  rewrite andb_true_iff, !Z.eqb_eq, !Z.mod_divide by lia. reflexivity.
Qed.

Lemma coprime_no_divisor (a b : Z) :
  coprime a b = true <->
  forall i, 2 <= i <= Z.min a b -> ~ ((i | a) /\ (i | b)).
Proof.
  unfold coprime. rewrite coprime_loop_true, forallb_forall. split.
  - intros H i Hi Hd.
    assert (Hin : i ∈ range 2 (Z.min a b + 1)) by (apply elem_of_range; lia).
    apply list_elem_of_In, H in Hin.
    apply divides_both_spec in Hd; [|lia].
    rewrite Hd in Hin. discriminate.
  - intros H i Hin. apply list_elem_of_In, elem_of_range in Hin.
    destruct (divides_both a b i) eqn:E; [|reflexivity].
    apply divides_both_spec in E; [|lia].
    exfalso. apply (H i); [lia|exact E].
Qed.

Lemma no_divisor_gcd (a b : Z) :
  1 <= a -> 1 <= b ->
  (forall i, 2 <= i <= Z.min a b -> ~ ((i | a) /\ (i | b))) <->
  Z.gcd a b = 1.
Proof.
  intros Ha Hb. split.
  - intros H.
    pose proof (Z.gcd_nonneg a b) as Hnn.
    pose proof (Z.gcd_divide_l a b) as Hl.
    pose proof (Z.gcd_divide_r a b) as Hr.
    assert (Hne : Z.gcd a b <> 0).
    { intros E. apply Z.gcd_eq_0_l in E. lia. }
    destruct (Z.eq_dec (Z.gcd a b) 1) as [E|E]; [exact E|].
    exfalso. apply (H (Z.gcd a b)); [|split; assumption].
    apply Z.divide_pos_le in Hl; [|lia].
    apply Z.divide_pos_le in Hr; [|lia]. lia.
  - intros Hg i Hi [Hia Hib].
    pose proof (Z.gcd_greatest a b i Hia Hib) as Hd.
    rewrite Hg in Hd. apply Z.divide_1_r_nonneg in Hd; lia.
Qed.

(** C9. For integers [a >= 1] and [b >= 1], [coprime] and
    [coprime_alternate] return the same answer, and that answer is [True]
    exactly when no [i] with [2 <= i <= min(a, b)] divides both [a] and
    [b], which is exactly when [gcd(a, b) = 1]. *)
Theorem coprime_equivalent_and_correct (a b : Z) :
  1 <= a -> 1 <= b ->
  coprime a b = coprime_alternate a b /\
  (coprime a b = true <->
   forall i, 2 <= i <= Z.min a b -> ~ ((i | a) /\ (i | b))) /\
  (coprime a b = true <-> Z.gcd a b = 1).
Proof.
  intros Ha Hb. split; [|split].
  - unfold coprime, coprime_alternate.
    rewrite coprime_loop_true, coprime_alternate_loop. reflexivity.
  - apply coprime_no_divisor.
  - rewrite coprime_no_divisor. apply no_divisor_gcd; assumption.
Qed.

Lemma coprime_equivalent_and_correct_witness :
  1 <= 4 /\ 1 <= 9 /\
  coprime 4 9 = coprime_alternate 4 9 /\
  (coprime 4 9 = true <->
   forall i, 2 <= i <= Z.min 4 9 -> ~ ((i | 4) /\ (i | 9))) /\
  (coprime 4 9 = true <-> Z.gcd 4 9 = 1).
Proof.
  split; [lia|]. split; [lia|].
  apply (coprime_equivalent_and_correct 4 9); lia.
Defined.

(** The assertions of the script. *)
Example coprime_4_9 : coprime 4 9 = true /\ coprime 3 6 = false.
Proof. split; reflexivity. Qed.

Example coprime_alternate_4_9 :
  coprime_alternate 4 9 = true /\ coprime_alternate 3 6 = false.
Proof. split; reflexivity. Qed.

End Item9_facts.
Section Item17_facts.
Import Item17.

(** C4 at the block of Item 17.  Run on a fresh namespace, the block
    prints twice and then stops with [NameError] at [visits = Visits()]
    (the second definition of the class): [Visits.__init__] reads the name
    [defaultdict], which no statement of the block binds and which is not
    a builtin.  The name is bound by [from collections import defaultdict]
    in Item 18: with that statement run first, the same block runs to its
    end. *)
Theorem item17_not_self_contained :
  (item17 empty_state).1 = Raise (NameError "defaultdict") /\
  stdout (item17 empty_state).2 = [printed_visits; printed_data] /\
  ((_ ← import_defaultdict; item17) empty_state).1 = Return tt /\
  stdout ((_ ← import_defaultdict; item17) empty_state).2
  = [printed_visits; printed_data; printed_england].
Proof. repeat split; vm_compute; reflexivity. Qed.

End Item17_facts.

Section Item20_facts.
Import Item20.

(** The calls of the script: [careful_divide(1, 0)] with the first and the
    final definition, and [careful_divide(5, 2)], which is [2.5]. *)
Example careful_divide_none_1_0 :
  careful_divide_none (PyInt 1) (PyInt 0) = Return PyNone.
Proof. reflexivity. Qed.

Example careful_divide_pair_1_0 :
  careful_divide_pair (PyInt 1) (PyInt 0)
  = Return (PyTuple [PyBool false; PyNone]).
Proof. reflexivity. Qed.

Example careful_divide_1_0 :
  careful_divide (PyInt 1) (PyInt 0) = Raise (ValueError "Invalid inputs").
Proof. reflexivity. Qed.

Example careful_divide_5_2 :
  careful_divide (PyInt 5) (PyInt 2) = Return (PyFloat (float_lit 25 (-1))).
Proof. vm_compute. reflexivity. Qed.

(** What true division of two numbers can do: return a [float], or raise
    [ZeroDivisionError] or [OverflowError]. *)
Lemma truediv_outcome (a b : pyval) :
  is_number a -> is_number b ->
  (exists f, truediv a b = Return (PyFloat f)) \/
  truediv a b = Raise ZeroDivisionError \/
  truediv a b = Raise OverflowError.
Proof.
  unfold is_number, truediv, float_of_int, float_div. intros Ha Hb.
  destruct (operand_of a) as [x|f|], (operand_of b) as [y|g|];
    try congruence.
  - destruct (y =? 0); [auto|].
    destruct (is_infinite _); eauto.
  - destruct (is_infinite _); [auto|]. cbn.
    destruct (float_is_zero g); eauto.
  - destruct (is_infinite _); [auto|]. cbn.
    destruct (float_is_zero _); eauto.
  - destruct (float_is_zero g); eauto.
Qed.

(** Division by zero is detected only for a zero divisor. *)
Lemma truediv_ZeroDivisionError (a b : pyval) :
  truediv a b = Raise ZeroDivisionError -> eq_zero b = true.
Proof.
  unfold truediv, eq_zero, float_of_int, float_div.
  destruct (operand_of a) as [x|f|], (operand_of b) as [y|g|];
    try discriminate.
  - destruct (y =? 0); [reflexivity|].
    destruct (is_infinite _); discriminate.
  - destruct (is_infinite _); [discriminate|]. cbn.
    destruct (float_is_zero g); [reflexivity|discriminate].
  - destruct (is_infinite _); [discriminate|]. cbn.
    rewrite binary_normalize_zero.
    destruct (y =? 0); [reflexivity|discriminate].
  - destruct (float_is_zero g); [reflexivity|discriminate].
Qed.

(** A zero divisor raises [ZeroDivisionError], unless the dividend is an
    [int] that overflows when it is converted for a [float] divisor. *)
Lemma truediv_by_zero (a b : pyval) :
  is_number a -> eq_zero b = true ->
  truediv a b = Raise ZeroDivisionError \/
  (truediv a b = Raise OverflowError /\ int_too_large a /\
   exists g, operand_of b = FloatOperand g).
Proof.
  unfold is_number, truediv, eq_zero, int_too_large, float_div.
  intros Ha Hb.
  destruct (operand_of a) as [x|f|], (operand_of b) as [y|g|];
    try congruence.
  - rewrite Hb. auto.
  - destruct (float_of_int x) as [f|e] eqn:E.
    + cbn. rewrite Hb. auto.
    + assert (e = OverflowError) as ->.
      { unfold float_of_int in E.
        destruct (is_infinite _); congruence. }
      right. cbn. split; [reflexivity|]. split; eauto.
  - apply Z.eqb_eq in Hb. subst y. cbn. auto.
  - rewrite Hb. auto.
Qed.

(** C3, as stated, fails on [int] arguments of unbounded size: with
    [a = 2**1024] and [b = 1] the divisor is not zero, yet the call does
    not return, because [a / b] raises [OverflowError]; and with
    [a = 2**1024] and [b = 0.0] the divisor is zero, yet the exception is
    [OverflowError], not [ValueError]. *)
Lemma careful_divide_overflows :
  is_number (PyInt (2 ^ 1024)) /\
  eq_zero (PyInt 1) = false /\
  careful_divide (PyInt (2 ^ 1024)) (PyInt 1) = Raise OverflowError /\
  eq_zero (PyFloat (S754_zero false)) = true /\
  careful_divide (PyInt (2 ^ 1024)) (PyFloat (S754_zero false))
  = Raise OverflowError.
Proof.
  split; [unfold is_number; cbn; congruence|].
  repeat split; vm_compute; reflexivity.
Qed.

(** C3 (amended).  For numbers [a] and [b], the final [careful_divide]
    - raises [ValueError] only when [b == 0];
    - when [b == 0], raises [ValueError], except that an [int a] too large
      for a [float] makes [a / b] raise [OverflowError] before a [float]
      zero divisor is looked at, and that exception propagates;
    - when [b != 0], does what [a / b] does: it returns the [float]
      quotient, or propagates the [OverflowError] of a quotient or operand
      too large for a [float];
    - never returns [None]. *)
Theorem careful_divide_spec (a b : pyval) :
  is_number a -> is_number b ->
  (careful_divide a b = Raise (ValueError "Invalid inputs") ->
   eq_zero b = true) /\
  (eq_zero b = true ->
   careful_divide a b = Raise (ValueError "Invalid inputs") \/
   (careful_divide a b = Raise OverflowError /\ int_too_large a /\
    exists g, operand_of b = FloatOperand g)) /\
  (eq_zero b = false ->
   careful_divide a b = truediv a b /\
   ((exists f, truediv a b = Return (PyFloat f)) \/
    truediv a b = Raise OverflowError)) /\
  careful_divide a b <> Return PyNone.
Proof.
  intros Ha Hb.
  pose proof (truediv_ZeroDivisionError a b) as Hz.
  pose proof (truediv_by_zero a b Ha) as Hbz.
  unfold careful_divide, try_except.
  destruct (truediv_outcome a b Ha Hb) as [[f Hf]|[Hd|Ho]].
  - rewrite Hf in *. split; [discriminate|]. split; [|split].
    + intros Hb0. destruct (Hbz Hb0) as [H|[H _]]; discriminate.
    + intros _. split; [reflexivity|eauto].
    + discriminate.
  - rewrite Hd in *. cbn. specialize (Hz eq_refl).
    split; [intros _; exact Hz|]. split; [auto|]. split; [|discriminate].
    intros Hnz. congruence.
  - rewrite Ho in *. cbn. split; [discriminate|]. split; [|split].
    + intros Hb0. destruct (Hbz Hb0) as [H|(_ & Hl & Hg)];
        [discriminate|auto].
    + intros _. auto.
    + discriminate.
Qed.

Lemma careful_divide_spec_witness :
  is_number (PyInt 5) /\ is_number (PyInt 2) /\
  careful_divide (PyInt 5) (PyInt 2) = truediv (PyInt 5) (PyInt 2) /\
  careful_divide (PyInt 5) (PyInt 2) <> Return PyNone.
Proof.
  assert (H5 : is_number (PyInt 5)) by (unfold is_number; cbn; congruence).
  assert (H2 : is_number (PyInt 2)) by (unfold is_number; cbn; congruence).
  split; [exact H5|]. split; [exact H2|].
  destruct (careful_divide_spec (PyInt 5) (PyInt 2) H5 H2)
    as (_ & _ & Hnz & Hnone).
  split; [apply Hnz; reflexivity|exact Hnone].
Defined.

(** On two [int]s, and on two [float]s, the exception is [ValueError]
    exactly when the divisor is zero. *)
Lemma careful_divide_ValueError_iff (a b : pyval) :
  is_number a -> is_number b -> ~ int_too_large a ->
  careful_divide a b = Raise (ValueError "Invalid inputs") <->
  eq_zero b = true.
Proof.
  intros Ha Hb Hfit. unfold careful_divide, try_except. split.
  - destruct (truediv_outcome a b Ha Hb) as [[f Hf]|[Hd|Ho]].
    + rewrite Hf. discriminate.
    + intros _. apply (truediv_ZeroDivisionError a b Hd).
    + rewrite Ho. discriminate.
  - intros Hz.
    destruct (truediv_by_zero a b Ha Hz) as [->|(_ & Hl & _)];
      [reflexivity|contradiction].
Qed.

End Item20_facts.
Section Item28_facts.
Import Item28.

(** The block of Item 28 (Chap4) reads the list [a] that the block of
    Item 27 binds: on a fresh namespace it prints twice and stops with
    [NameError] at [b = [x for x in a ...]]; after the block of Item 27
    it runs to its end, with [b] and [c] both [[6, 8, 10]]. *)
Lemma item28_needs_item27 :
  (item28 empty_state).1 = Raise (NameError "a") /\
  stdout (item28 empty_state).2
  = [IntList [1; 2; 3; 4; 5; 6; 7; 8; 9];
     Matrix [[1; 4; 9]; [16; 25; 36]; [49; 64; 81]]] /\
  ((_ ← item27; item28) empty_state).1 = Return tt /\
  globals ((_ ← item27; item28) empty_state).2
    !! "b" = Some (IntList [6; 8; 10]) /\
  globals ((_ ← item27; item28) empty_state).2
    !! "c" = Some (IntList [6; 8; 10]).
Proof. repeat split; vm_compute; reflexivity. Qed.

End Item28_facts.

Section Item31_facts.
Import Item31.
Context (int_ : list Z -> result Z).

Ltac eff_simpl := unfold mbind, eff_bind, mret, eff_ret, pure, raise.

(** The loop over the items of a list iterator computes what the loop
    over the sequence computes, and touches nothing but that iterator. *)
Lemma for_items_spec {T} (id : nat) (body : Z -> T -> result T)
    (items : list Z) :
  forall (s : T) (h : heap),
  exists its,
    for_items id items body s h
    = (fold_result body items s, mk_heap (next_id h) its (files h)) /\
    (forall s', fold_result body items s = Return s' ->
                its !! id = Some (Remaining [])).
Proof.
  induction items as [|x rest IH]; intros s h.
  - eexists. split; [reflexivity|]. intros _ _. apply lookup_insert_eq.
  - cbn [for_items fold_result]. unfold set_iter. eff_simpl.
    destruct (body x s) as [s'|e].
    + destruct (IH s' (mk_heap (next_id h) (<[id := Remaining rest]> (iters h))
                               (files h))) as (its & E & Hex).
      exists its. split; [exact E|exact Hex].
    + eexists. split; [reflexivity|]. discriminate.
Qed.

(** The loop over a generator of [read_visits] converts each line when
    its turn comes. *)
Lemma for_lines_spec {T} (id : nat) (body : Z -> T -> result T)
    (lines : list (list Z)) :
  forall (s : T) (h : heap),
  exists its,
    for_lines int_ id lines body s h
    = (fold_lines int_ body lines s, mk_heap (next_id h) its (files h)) /\
    (forall s', fold_lines int_ body lines s = Return s' ->
                its !! id = Some (Remaining [])).
Proof.
  induction lines as [|line rest IH]; intros s h.
  - eexists. split; [reflexivity|]. intros _ _. apply lookup_insert_eq.
  - cbn [for_lines fold_lines]. destruct (int_ line) as [x|e].
    + unfold set_iter. eff_simpl. cbn [mbind result_bind].
      destruct (body x s) as [s'|e].
      * destruct (IH s' (mk_heap (next_id h) (<[id := Reading rest]> (iters h))
                                 (files h))) as (its & E & Hex).
        exists its. split; [exact E|exact Hex].
      * eexists. split; [reflexivity|]. discriminate.
    + unfold set_iter. eff_simpl. eexists. split; [reflexivity|].
      discriminate.
Qed.

Lemma for_iter_spec {T} (id : nat) (body : Z -> T -> result T) (s : T)
    (h : heap) (st : iter_state) :
  iters h !! id = Some st ->
  exists its,
    for_iter int_ id body s h
    = (state_fold int_ st (files h) body s,
       mk_heap (next_id h) its (files h)) /\
    (forall s', state_fold int_ st (files h) body s = Return s' ->
                its !! id = Some (Remaining [])).
Proof.
  intros Hid. unfold for_iter, start. eff_simpl. rewrite Hid.
  destruct st as [data_path|lines|items]; cbn [state_fold].
  - destruct (files h !! data_path) as [lines|].
    + apply for_lines_spec.
    + eexists. split; [reflexivity|]. discriminate.
  - apply for_lines_spec.
  - apply for_items_spec.
Qed.

(** A loop over a fresh iterator. *)
Lemma alloc_for_iter {T} (st : iter_state) (body : Z -> T -> result T)
    (s : T) (h : heap) :
  exists its,
    (it ← alloc st; for_iter int_ it body s) h
    = (state_fold int_ st (files h) body s,
       mk_heap (S (next_id h)) its (files h)).
Proof.
  unfold alloc. eff_simpl.
  destruct (for_iter_spec (next_id h) body s
              (mk_heap (S (next_id h)) (<[next_id h := st]> (iters h))
                       (files h)) st) as (its & E & _).
  { apply lookup_insert_eq. }
  exists its. exact E.
Qed.

(** *** Loops whose lines all spell numbers, and loops whose body
    returns *)

Lemma fold_lines_parsed {T} (body : Z -> T -> result T)
    (lines : list (list Z)) :
  forall (items : list Z) (s : T),
  ints_of int_ lines = Return items ->
  fold_lines int_ body lines s = fold_result body items s.
Proof.
  induction lines as [|line rest IH]; intros items s.
  - intros [= <-]. reflexivity.
  - cbn [ints_of fold_lines]. destruct (int_ line) as [x|e]; [|discriminate].
    cbn [mbind result_bind].
    destruct (ints_of int_ rest) as [xs|e] eqn:E; [|discriminate].
    intros [= <-]. cbn [fold_result].
    destruct (body x s) as [s'|e]; [|reflexivity].
    cbn [mbind result_bind]. apply IH. reflexivity.
Qed.

Lemma fold_lines_returning {T} (f : Z -> T -> T) (lines : list (list Z)) :
  forall s : T,
  fold_lines int_ (fun x s => Return (f x s)) lines s
  = (items ← ints_of int_ lines;
     fold_result (fun x s => Return (f x s)) items s).
Proof.
  induction lines as [|line rest IH]; intros s; [reflexivity|].
  cbn [ints_of fold_lines]. destruct (int_ line) as [x|e]; [|reflexivity].
  cbn [mbind result_bind]. rewrite IH.
  destruct (ints_of int_ rest) as [xs|e]; reflexivity.
Qed.

Lemma state_fold_parsed {T} (st : iter_state)
    (fs : gmap string (list (list Z))) (body : Z -> T -> result T)
    (items : list Z) (s : T) :
  state_items int_ st fs = Return items ->
  state_fold int_ st fs body s = fold_result body items s.
Proof.
  destruct st as [data_path|lines|items']; cbn [state_items state_fold].
  - destruct (fs !! data_path) as [lines|]; [|discriminate].
    apply fold_lines_parsed.
  - apply fold_lines_parsed.
  - intros [= <-]. reflexivity.
Qed.

Lemma state_fold_returning {T} (st : iter_state)
    (fs : gmap string (list (list Z))) (f : Z -> T -> T) (s : T) :
  state_fold int_ st fs (fun x s => Return (f x s)) s
  = (items ← state_items int_ st fs;
     fold_result (fun x s => Return (f x s)) items s).
Proof.
  destruct st as [data_path|lines|items]; cbn [state_items state_fold].
  - destruct (fs !! data_path) as [lines|]; [|reflexivity].
    apply fold_lines_returning.
  - apply fold_lines_returning.
  - reflexivity.
Qed.

Lemma fold_result_sum (items : list Z) (total : Z) :
  fold_result (fun value total => Return (total + value)) items total
  = Return (foldl Z.add total items).
Proof.
  revert total. induction items as [|x rest IH]; intros total;
    [reflexivity|].
  cbn [fold_result foldl]. apply IH.
Qed.

Lemma state_fold_sum (st : iter_state) (fs : gmap string (list (list Z))) :
  state_fold int_ st fs (fun value total => Return (total + value)) 0
  = (items ← state_items int_ st fs; Return (foldl Z.add 0 items)).
Proof.
  rewrite (state_fold_returning st fs (fun value total => total + value)).
  destruct (state_items int_ st fs) as [items|e]; [|reflexivity].
  cbn [mbind result_bind]. apply fold_result_sum.
Qed.

Lemma fold_result_list (items acc : list Z) :
  fold_result (fun value items => Return (items ++ [value])) items acc
  = Return (acc ++ items).
Proof.
  revert acc. induction items as [|x rest IH]; intros acc.
  - cbn. rewrite app_nil_r. reflexivity.
  - cbn [fold_result mbind result_bind]. rewrite IH, <- app_assoc.
    reflexivity.
Qed.

Lemma state_fold_list (st : iter_state) (fs : gmap string (list (list Z))) :
  state_fold int_ st fs (fun value items => Return (items ++ [value])) []
  = state_items int_ st fs.
Proof.
  rewrite (state_fold_returning st fs (fun value items => items ++ [value])).
  destruct (state_items int_ st fs) as [items|e]; [|reflexivity].
  cbn [mbind result_bind]. apply fold_result_list.
Qed.

(** *** Containers *)

Lemma container_items (numbers : iterable) (h : heap) :
  is_container numbers ->
  exists st, (forall h', iter_ numbers h'
                         = alloc st h') /\
             (forall h', files h' = files h ->
                         state_items int_ st (files h')
                         = contents int_ numbers h).
Proof.
  intros Hc. destruct numbers as [items|data_path|id]; [| |discriminate].
  - exists (Remaining items). split; reflexivity.
  - exists (NotStarted data_path). split; [reflexivity|].
    intros h' E. cbn. rewrite E. reflexivity.
Qed.

(** [sum] and the loop of [normalize] over a container. *)
Lemma sum_container (numbers : iterable) (h : heap) :
  is_container numbers ->
  exists its,
    sum_ int_ numbers h
    = (items ← contents int_ numbers h; Return (foldl Z.add 0 items),
       mk_heap (S (next_id h)) its (files h)).
Proof.
  intros Hc. destruct (container_items numbers h Hc) as (st & Hit & Hst).
  destruct (alloc_for_iter st (fun value total => Return (total + value)) 0 h)
    as (its & E).
  exists its. unfold sum_. revert E. eff_simpl. rewrite Hit. intros ->.
  rewrite state_fold_sum, (Hst h eq_refl). reflexivity.
Qed.

Lemma loop_container (numbers : iterable) (h : heap) (total : Z)
    (items : list Z) :
  is_container numbers ->
  contents int_ numbers h = Return items ->
  exists its,
    (it ← iter_ numbers; for_iter int_ it (append_percent total) []) h
    = (fold_result (append_percent total) items [],
       mk_heap (S (next_id h)) its (files h)).
Proof.
  intros Hc Hitems.
  destruct (container_items numbers h Hc) as (st & Hit & Hst).
  destruct (alloc_for_iter st (append_percent total) [] h) as (its & E).
  exists its. revert E. eff_simpl. rewrite Hit. intros ->.
  rewrite (state_fold_parsed st (files h) _ items); [reflexivity|].
  rewrite (Hst h eq_refl). exact Hitems.
Qed.

Lemma contents_same_files (numbers : iterable) (h h' : heap) :
  is_container numbers -> files h' = files h ->
  contents int_ numbers h' = contents int_ numbers h.
Proof.
  intros Hc E. destruct numbers as [items|data_path|id];
    [reflexivity| |discriminate].
  cbn. rewrite E. reflexivity.
Qed.

(** On a container [normalize] computes the percentages. *)
Lemma normalize_container (numbers : iterable) (h : heap) :
  is_container numbers ->
  (normalize int_ numbers h).1
  = (items ← contents int_ numbers h; percentages items).
Proof.
  intros Hc. unfold normalize.
  destruct (sum_container numbers h Hc) as (its & Esum).
  change ((total ← sum_ int_ numbers;
           it ← iter_ numbers; for_iter int_ it (append_percent total) []) h)
    with (match sum_ int_ numbers h with
          | (Return total, h') =>
              (it ← iter_ numbers;
               for_iter int_ it (append_percent total) []) h'
          | (Raise e, h') => (Raise e, h')
          end).
  rewrite Esum.
  destruct (contents int_ numbers h) as [items|e] eqn:Ec; [|reflexivity].
  cbn [mbind result_bind].
  destruct (loop_container numbers (mk_heap (S (next_id h)) its (files h))
              (foldl Z.add 0 items) items Hc) as (its' & Eloop).
  { rewrite (contents_same_files numbers h
               (mk_heap (S (next_id h)) its (files h)) Hc eq_refl).
    exact Ec. }
  rewrite Eloop. reflexivity.
Qed.

(** On an iterator [normalize] returns the empty list: [sum] has used the
    iterator up before the loop starts. *)
Lemma normalize_iterator (id : nat) (h : heap) :
  (normalize int_ (IteratorObj id) h).1
  = (_ ← contents int_ (IteratorObj id) h; Return []).
Proof.
  unfold normalize, sum_, iter_. eff_simpl. cbn [contents].
  destruct (iters h !! id) as [st|] eqn:Hid.
  - destruct (for_iter_spec id (fun value total => Return (total + value)) 0
                h st Hid) as (its & E & Hex).
    rewrite E. rewrite state_fold_sum in *.
    destruct (state_items int_ st (files h)) as [items|e]; [|reflexivity].
    cbn [mbind result_bind] in *.
    specialize (Hex _ eq_refl).
    destruct (for_iter_spec id (append_percent (foldl Z.add 0 items)) []
                (mk_heap (next_id h) its (files h)) (Remaining []) Hex)
      as (its' & E' & _).
    rewrite E'. reflexivity.
  - unfold for_iter, start. eff_simpl. rewrite Hid.
    cbn [for_items]. unfold set_iter. eff_simpl. cbn [iters].
    rewrite lookup_insert_eq. reflexivity.
Qed.



(** *** Where the exceptions come from *)










(** A division of two [int]s raises [ZeroDivisionError] or
    [OverflowError], nothing else. *)
Lemma raised_by_division_cases (e : exn) :
  raised_by_division e -> e = ZeroDivisionError \/ e = OverflowError.
Proof.
  intros (a & b & H).
  assert (Hn : forall n, is_number (PyInt n))
    by (intros n; unfold is_number; cbn; congruence).
  destruct (truediv_outcome (PyInt a) (PyInt b) (Hn a) (Hn b))
    as [[f Hf]|[Hd|Ho]]; rewrite H in *.
  - discriminate.
  - left. congruence.
  - right. congruence.
Qed.






(** [normalize(visits)] *)
Example normalize_visits :
  (normalize int_ (ListObj visits) (mk_heap 0 ∅ ∅)).1
  = Return [PyFloat (S754_finite false 6495576385630523 (-49));
            PyFloat (S754_finite false 7578172449902277 (-48));
            PyFloat (S754_finite false 8660768514174031 (-47))].
Proof.
  rewrite normalize_container by reflexivity. vm_compute. reflexivity.
Qed.



End Item31_facts.


(** ** Generators under iteration *)
Section Generator_facts.
Import Generator.
Context {St : Type}.

Lemma drain_S {P} (c : code St P) (fuel : nat) (g : gstate P) (st : St) :
  drain (S fuel) c g st
  = match gen_resume c g Next st with
    | (Return v, g', st') =>
        match drain fuel c g' st' with
        | Some (Return vs, g'', st'') => Some (Return (v :: vs), g'', st'')
        | other => other
        end
    | (Raise StopIteration, g', st') => Some (Return [], g', st')
    | (Raise e, g', st') => Some (Raise e, g', st')
    end.
Proof. reflexivity. Qed.

Lemma gen_resume_next_equiv {P} (c1 c2 : code St P) :
  next_equiv c1 c2 ->
  forall g st, gen_resume c1 g Next st = gen_resume c2 g Next st.
Proof.
  intros [He Hr] g st. destruct g as [|p|]; cbn.
  - rewrite He. reflexivity.
  - rewrite Hr. reflexivity.
  - reflexivity.
Qed.

(** Iteration cannot tell such codes apart. *)
Lemma drain_next_equiv {P} (c1 c2 : code St P) :
  next_equiv c1 c2 ->
  forall fuel g st, drain fuel c1 g st = drain fuel c2 g st.
Proof.
  intros H fuel. induction fuel as [|fuel IH]; intros g st.
  - reflexivity.
  - rewrite !drain_S, (gen_resume_next_equiv c1 c2 H).
    destruct (gen_resume c2 g Next st) as [[[v|e] g'] st'].
    + rewrite IH. reflexivity.
    + reflexivity.
Qed.

(** The loop that yields every item again and [yield from] agree under
    iteration, whatever the inner generator is. *)
Lemma for_in_yield_yield_from {P} (g : code St P) :
  next_equiv (for_in_yield g) (yield_from g).
Proof. split; reflexivity. Qed.

Lemma seq_next_equiv {P Q} (c1 c1' : code St P) (c2 c2' : code St Q) :
  next_equiv c1 c1' -> next_equiv c2 c2' ->
  next_equiv (seq_ c1 c2) (seq_ c1' c2').
Proof.
  intros [He1 Hr1] [He2 Hr2]. split.
  - intros st. cbn. rewrite He1.
    destruct (enter c1' st) as [[v p| |e] st']; cbn; [reflexivity| |reflexivity].
    rewrite He2. reflexivity.
  - intros [p|q] st; cbn.
    + rewrite Hr1.
      destruct (resume c1' p Next st) as [[v p'| |e] st']; cbn;
        [reflexivity| |reflexivity].
      rewrite He2. reflexivity.
    + rewrite Hr2. reflexivity.
Qed.

(** A loop over a sequence whose body is one [yield]. *)
Lemma enter_each_yield {A} (f : A -> pyval) (xs : list A) (st : St) :
  enter_each (fun x => yield_ (f x)) xs st
  = match xs with
    | [] => (Done, st)
    | x :: xs' => (Yield (f x) (x, xs', tt), st)
    end.
Proof. destruct xs; reflexivity. Qed.

Lemma yield_from_for_each_yield {A} (f : A -> pyval) (xs : list A) :
  next_equiv (St := St) (yield_from (for_each xs (fun x => yield_ (f x))))
             (for_each xs (fun x => yield_ (f x))).
Proof.
  split.
  - intros st. cbn. rewrite enter_each_yield. destruct xs; reflexivity.
  - intros [[x xs'] []] st. cbn. rewrite enter_each_yield.
    destruct xs'; reflexivity.
Qed.

Lemma gen_resume_for_each_suspended {A} (f : A -> pyval)
    (xs ys : list A) (x : A) (st : St) :
  gen_resume (for_each xs (fun x => yield_ (f x))) (Suspended (x, ys, tt))
             Next st
  = match ys with
    | [] => (Raise StopIteration, Finished, st)
    | y :: ys' => (Return (f y), Suspended (y, ys', tt), st)
    end.
Proof. destruct ys; reflexivity. Qed.

Lemma drain_for_each_suspended {A} (f : A -> pyval) (xs ys : list A) :
  forall (x : A) (st : St),
  drain (S (length ys)) (for_each xs (fun x => yield_ (f x)))
        (Suspended (x, ys, tt)) st
  = Some (Return (map f ys), Finished, st).
Proof.
  induction ys as [|y ys IH]; intros x st.
  - reflexivity.
  - cbn [length]. rewrite drain_S.
    rewrite gen_resume_for_each_suspended, IH. reflexivity.
Qed.

(** Iterating such a loop gives the items in order and then stops; one
    unit of fuel for each item and one for the end is enough. *)
Lemma drain_for_each_yield {A} (f : A -> pyval) (xs : list A) (st : St) :
  drain (S (length xs)) (for_each xs (fun x => yield_ (f x))) Created st
  = Some (Return (map f xs), Finished, st).
Proof.
  destruct xs as [|x xs]; [reflexivity|].
  cbn [length]. rewrite drain_S.
  change (gen_resume (for_each (x :: xs) (fun x => yield_ (f x)))
                     Created Next st)
    with (Return (f x), Suspended (x, xs, tt), st).
  cbv beta iota. rewrite drain_for_each_suspended. reflexivity.
Qed.

(** More fuel does not change what an iteration that ended has given. *)
Lemma drain_more_fuel {P} (c : code St P) (fuel : nat) :
  forall g st r, drain fuel c g st = Some r ->
  forall extra, drain (fuel + extra) c g st = Some r.
Proof.
  induction fuel as [|fuel IH]; intros g st r H extra; [discriminate|].
  cbn [Nat.add]. rewrite drain_S in *.
  destruct (gen_resume c g Next st) as [[[v|e] g'] st']; [|exact H].
  destruct (drain fuel c g' st') as [r'|] eqn:E; [|discriminate].
  rewrite (IH _ _ _ E). exact H.
Qed.

End Generator_facts.

Section Item33_facts.
Import Generator Item33.

Lemma length_range (lo hi : Z) : length (range lo hi) = Z.to_nat (hi - lo).
Proof. unfold range. rewrite length_map, length_seq. reflexivity. Qed.

(** [range(lo, hi)] holds [lo + i] at index [i]. *)
Lemma range_lookup (lo hi i : Z) :
  lo <= i < hi -> range lo hi !! Z.to_nat (i - lo) = Some i.
Proof.
  intros H. unfold range. rewrite list_lookup_fmap.
  rewrite lookup_seq_lt by lia. cbn. f_equal. lia.
Qed.

(** [5.0] and [3.0] are the binary64 numbers 5 and 3. *)
Example f5_0_value :
  f5_0 = PyFloat (S754_finite false (5 * 2 ^ 50) (-50)) /\
  f3_0 = PyFloat (S754_finite false (3 * 2 ^ 51) (-51)).
Proof. split; vm_compute; reflexivity. Qed.

Lemma animate_next_equiv : next_equiv animate animate_composed.
Proof.
  unfold animate, animate_composed.
  repeat apply seq_next_equiv; apply for_in_yield_yield_from.
Qed.

Lemma slow_next_equiv : next_equiv slow fast.
Proof. apply for_in_yield_yield_from. Qed.

Lemma list_of_next_equiv {P} (c1 c2 : code unit P) :
  next_equiv c1 c2 -> forall fuel, list_of fuel c1 = list_of fuel c2.
Proof.
  intros H fuel. unfold list_of. rewrite (drain_next_equiv c1 c2 H).
  reflexivity.
Qed.

Lemma list_of_fast :
  list_of (S (length (range 0 1000000))) fast
  = Some (Return (map PyInt (range 0 1000000))).
Proof.
  unfold list_of, fast, child.
  rewrite (drain_next_equiv _ _ (yield_from_for_each_yield PyInt _)).
  rewrite drain_for_each_yield. reflexivity.
Qed.

(** C1. Under iteration the [yield from] versions give what the explicit
    loops give: [animate_composed()] yields the sequence of [animate()],
    which is four times [5.0], then three times [0], then twice [3.0];
    and [fast()] yields the sequence of [slow()], which is the integers
    of [range(1_000_000)], that is 0 to 999999 in order.  The sequences
    are complete: iteration reaches the end of each generator. *)
Theorem yield_from_same_sequence :
  (forall fuel, list_of fuel animate_composed = list_of fuel animate) /\
  list_of 10 animate = Some (Return deltas) /\
  list_of 10 animate_composed = Some (Return deltas) /\
  (forall fuel, list_of fuel fast = list_of fuel slow) /\
  list_of (S (length (range 0 1000000))) slow
  = Some (Return (map PyInt (range 0 1000000))) /\
  list_of (S (length (range 0 1000000))) fast
  = Some (Return (map PyInt (range 0 1000000))).
Proof.
  split; [|split; [|split; [|split; [|split]]]].
  - intros fuel. symmetry. apply list_of_next_equiv, animate_next_equiv.
  - vm_compute. reflexivity.
  - vm_compute. reflexivity.
  - intros fuel. symmetry. apply list_of_next_equiv, slow_next_equiv.
  - rewrite (list_of_next_equiv _ _ slow_next_equiv). apply list_of_fast.
  - apply list_of_fast.
Qed.

(** The two versions are not the same generator: an exception thrown into
    [slow()] is raised at the [yield] of [slow] and lost for [child()],
    whereas [fast()] hands it to [child()]; the equivalence is one under
    iteration. *)
Example animate_first_delta :
  gen_resume animate Created Next tt
  = (Return f5_0, Suspended (inl (0, [1; 2; 3], tt)), tt).
Proof. vm_compute. reflexivity. Qed.

End Item33_facts.

Section Item35_facts.
Import Generator Item35.

Lemma range_snoc (c : Z) : 0 <= c -> range 0 (c + 1) = range 0 c ++ [c].
Proof.
  intros H. unfold range.
  replace (Z.to_nat (c + 1 - 0)) with (S (Z.to_nat (c - 0))) by lia.
  rewrite seq_S, map_app. cbn [map]. do 2 f_equal. lia.
Qed.

Lemma countdown_0 : countdown 0 = [].
Proof. reflexivity. Qed.

Lemma countdown_succ (c : Z) :
  0 <= c -> countdown (c + 1) = PyInt c :: countdown c.
Proof.
  intros H. unfold countdown. rewrite range_snoc by exact H.
  rewrite rev_app_distr. reflexivity.
Qed.

Lemma timer_loop_0 : timer_loop 0 = Done.
Proof. reflexivity. Qed.

Lemma timer_loop_pos (c : Z) :
  c <> 0 -> timer_loop c = Yield (PyInt (c - 1)) (c - 1).
Proof.
  intros H. unfold timer_loop. destruct (Z.eqb_spec c 0); [lia|reflexivity].
Qed.

(** *** The generator [timer] *)

Lemma timer_resume_inv (period : Z) (g : gstate Z) (s : signal) :
  0 <= period -> timer_inv period g ->
  timer_inv period (gen_resume (timer period) g s tt).1.2.
Proof.
  intros Hp Hg.
  assert (Hloop : forall c, 0 <= c <= period ->
            timer_inv period (after (timer_loop c, tt)).1.2).
  { intros c Hc. destruct (Z.eq_dec c 0) as [->|Hne].
    - rewrite timer_loop_0. exact I.
    - rewrite timer_loop_pos by exact Hne. cbn. lia. }
  destruct g as [|c|]; cbn in Hg.
  - destruct s as [|v|e]; [apply Hloop; lia| |exact I].
    destruct v; try exact I. apply Hloop; lia.
  - destruct s as [|v|e]; cbn [gen_resume timer resume];
      [apply Hloop; lia|apply Hloop; lia|].
    destruct (is_Reset e); [apply Hloop; lia|exact I].
  - destruct s; exact I.
Qed.

Lemma run_signals_state (period : Z) (sigs : list signal) :
  forall g, (run_signals (timer period) sigs g tt).2 = tt.
Proof. intros g. destruct (run_signals _ _ _ _) as [g' []]. reflexivity. Qed.

Lemma timer_run_inv (period : Z) (sigs : list signal) :
  0 <= period ->
  forall g, timer_inv period g ->
  timer_inv period (run_signals (timer period) sigs g tt).1.
Proof.
  intros Hp. induction sigs as [|s sigs IH]; intros g Hg; [exact Hg|].
  cbn [run_signals].
  pose proof (timer_resume_inv period g s Hp Hg) as H.
  destruct (gen_resume (timer period) g s tt) as [[r g'] []].
  apply IH, H.
Qed.

Lemma drain_timer_suspended (period : Z) (n : nat) :
  drain (S n) (timer period) (Suspended (Z.of_nat n)) tt
  = Some (Return (countdown (Z.of_nat n)), Finished, tt).
Proof.
  induction n as [|n IH]; [reflexivity|].
  rewrite drain_S. cbn [gen_resume timer resume].
  rewrite timer_loop_pos by lia. cbn [after].
  replace (Z.of_nat (S n) - 1) with (Z.of_nat n) by lia.
  rewrite IH. replace (Z.of_nat (S n)) with (Z.of_nat n + 1) by lia.
  rewrite countdown_succ by lia. reflexivity.
Qed.

(** Without resets [timer(period)] counts down to zero and stops. *)
Lemma list_of_timer (period : Z) :
  0 <= period ->
  list_of (S (Z.to_nat period)) (timer period)
  = Some (Return (countdown period)).
Proof.
  intros Hp. unfold list_of. rewrite drain_S. cbn [gen_resume timer enter].
  destruct (Z.eq_dec period 0) as [->|Hne]; [reflexivity|].
  rewrite timer_loop_pos by exact Hne. cbn [after].
  replace (Z.to_nat period) with (S (Z.to_nat (period - 1))) by lia.
  replace (period - 1) with (Z.of_nat (Z.to_nat (period - 1))) at 2 by lia.
  rewrite drain_timer_suspended.
  replace period with (Z.of_nat (Z.to_nat (period - 1)) + 1) at 3 by lia.
  rewrite countdown_succ by lia.
  replace (Z.of_nat (Z.to_nat (period - 1))) with (period - 1) by lia.
  reflexivity.
Qed.

(** *** The class [Timer] *)

Lemma Timer_loop_0 (self : Timer) :
  current self = 0 -> Timer_loop self = (Done, self).
Proof. intros H. unfold Timer_loop. rewrite H. reflexivity. Qed.

Lemma Timer_loop_pos (self : Timer) :
  current self <> 0 ->
  Timer_loop self
  = (Yield (PyInt (current self - 1)) tt,
     {| current := current self - 1; period := period self |}).
Proof.
  intros H. unfold Timer_loop.
  destruct (Z.eqb_spec (current self) 0); [lia|reflexivity].
Qed.

Lemma Timer_op_inv (p : Z) (o : timer_op) (g : gstate unit) (self : Timer) :
  0 <= p -> Timer_inv p self -> Timer_inv p (run_op o g self).2.
Proof.
  intros Hp [Hc Hper].
  assert (Hloop : Timer_inv p (after (Timer_loop self)).2).
  { destruct (Z.eq_dec (current self) 0) as [E|E].
    - rewrite Timer_loop_0 by exact E. split; assumption.
    - rewrite Timer_loop_pos by exact E. split; cbn; [lia|assumption]. }
  assert (Hself : Timer_inv p self) by (split; assumption).
  destruct o as [s|]; [|split; cbn; lia].
  unfold run_op.
  destruct (gen_resume Timer_iter g s self) as [[r g'] self'] eqn:E.
  cbn [snd].
  assert (self' = (gen_resume Timer_iter g s self).2) as -> by (rewrite E; reflexivity).
  destruct g as [|[]|]; destruct s as [|v|e]; try exact Hself;
    try exact Hloop.
  destruct v; try exact Hself; exact Hloop.
Qed.

Lemma Timer_run_inv (p : Z) (ops : list timer_op) :
  0 <= p ->
  forall g self, Timer_inv p self -> Timer_inv p (run_ops ops g self).2.
Proof.
  intros Hp. induction ops as [|o ops IH]; intros g self H; [exact H|].
  cbn [run_ops].
  pose proof (Timer_op_inv p o g self Hp H) as H'.
  destruct (run_op o g self) as [g' self']. apply IH, H'.
Qed.

Lemma drain_Timer_suspended (p : Z) (n : nat) (g : gstate unit) :
  g <> Finished ->
  drain (S n) Timer_iter g {| current := Z.of_nat n; period := p |}
  = Some (Return (countdown (Z.of_nat n)), Finished,
          {| current := 0; period := p |}).
Proof.
  revert g. induction n as [|n IH]; intros g Hg.
  - destruct g as [|[]|]; [reflexivity|reflexivity|congruence].
  - rewrite drain_S.
    assert (E : gen_resume Timer_iter g Next
                  {| current := Z.of_nat (S n); period := p |}
                = (Return (PyInt (Z.of_nat n)), Suspended tt,
                   {| current := Z.of_nat n; period := p |})).
    { replace (Z.of_nat n) with (Z.of_nat (S n) - 1) by lia.
      destruct g as [|[]|]; [| |congruence];
        cbn [gen_resume Timer_iter enter resume];
        rewrite Timer_loop_pos by (cbn; lia); reflexivity. }
    rewrite E, IH by discriminate.
    replace (Z.of_nat (S n)) with (Z.of_nat n + 1) by lia.
    rewrite countdown_succ by lia. reflexivity.
Qed.

(** Without resets iterating a [Timer] counts down to zero and stops. *)
Lemma drain_Timer (p : Z) :
  0 <= p ->
  drain (S (Z.to_nat p)) Timer_iter Created (Timer_init p)
  = Some (Return (countdown p), Finished, {| current := 0; period := p |}).
Proof.
  intros Hp. unfold Timer_init.
  replace p with (Z.of_nat (Z.to_nat p)) at 2 4 by lia.
  apply drain_Timer_suspended. discriminate.
Qed.

(** C2. For a non-negative [period]:
    - wherever the generator [timer(period)] is suspended, whatever its
      caller has done with [next], [send] and [throw], its local satisfies
      [0 <= current <= period]; and the attribute of a [Timer(period)]
      satisfies [0 <= self.current <= self.period], whatever has been done
      with an iterator over it and with [reset];
    - without resets both iterations yield [period-1, ..., 0] and stop;
    - a [Reset] thrown into the suspended generator makes it yield
      [period-1]; [Timer.reset()] sets [self.current] to [period], and the
      item an iterator that has not finished gives next is [period-1]
      (for [period = 0] there is no such item: the iteration stops). *)
Theorem timer_counts_down (p : Z) (sigs : list signal) (ops : list timer_op) :
  0 <= p ->
  let g := (run_signals (timer p) sigs Created tt).1 in
  let it := (run_ops ops Created (Timer_init p)).1 in
  let self := (run_ops ops Created (Timer_init p)).2 in
  match g with Suspended c => 0 <= c <= p | _ => True end /\
  0 <= current self <= period self /\ period self = p /\
  list_of (S (Z.to_nat p)) (timer p) = Some (Return (countdown p)) /\
  drain (S (Z.to_nat p)) Timer_iter Created (Timer_init p)
  = Some (Return (countdown p), Finished, {| current := 0; period := p |}) /\
  match g with
  | Suspended c =>
      gen_resume (timer p) g (Throw Reset) tt
      = (Return (PyInt (p - 1)), Suspended (p - 1), tt)
  | _ => True
  end /\
  current (reset self) = p /\
  match it with
  | Finished => True
  | _ =>
      gen_resume Timer_iter it Next (reset self)
      = if p =? 0 then (Raise StopIteration, Finished, reset self)
        else (Return (PyInt (p - 1)), Suspended tt,
              {| current := p - 1; period := p |})
  end.
Proof.
  intros Hp g it self.
  assert (Hg : timer_inv p g) by (apply timer_run_inv; [exact Hp|exact I]).
  assert (Hself : Timer_inv p self).
  { apply Timer_run_inv; [exact Hp|]. split; cbn; lia. }
  destruct Hself as [Hc Hper].
  assert (Hnext : after (Timer_loop (reset self))
                  = if p =? 0 then (Raise StopIteration, Finished, reset self)
                    else (Return (PyInt (p - 1)), Suspended tt,
                          {| current := p - 1; period := p |})).
  { destruct (Z.eqb_spec p 0) as [E|E].
    - rewrite Timer_loop_0 by (cbn; lia). reflexivity.
    - rewrite Timer_loop_pos by (cbn; lia). cbn. rewrite Hper. reflexivity. }
  split; [destruct g; cbn in Hg; try exact I; lia|].
  split; [lia|]. split; [exact Hper|].
  split; [apply list_of_timer, Hp|].
  split; [apply drain_Timer, Hp|].
  split; [|split; [exact Hper|]].
  - destruct g as [|c|]; [exact I| |exact I]. cbn in Hg.
    cbn [gen_resume timer resume is_Reset].
    rewrite timer_loop_pos by lia. reflexivity.
  - destruct it as [|[]|]; [exact Hnext|exact Hnext|exact I].
Qed.

Lemma timer_counts_down_witness :
  0 <= 4 /\
  list_of 5 (timer 4)
  = Some (Return [PyInt 3; PyInt 2; PyInt 1; PyInt 0]) /\
  gen_resume (timer 4) (Suspended 1) (Throw Reset) tt
  = (Return (PyInt 3), Suspended 3, tt).
Proof.
  split; [lia|].
  assert (H4 : 0 <= 4) by lia.
  destruct (timer_counts_down 4 [Next; Next; Next] [OpResume Next; OpReset] H4)
    as (_ & _ & _ & Hlist & _ & Hreset & _).
  split; [exact Hlist|exact Hreset].
Defined.

(** The script drives [timer(4)] and never resets it. *)
Example run_timer_4 :
  list_of 5 (timer 4) = Some (Return [PyInt 3; PyInt 2; PyInt 1; PyInt 0]).
Proof. reflexivity. Qed.

(** With a negative [period] the loop never reaches zero. *)
Example timer_negative :
  gen_resume (timer (-1)) Created Next tt
  = (Return (PyInt (-2)), Suspended (-2), tt).
Proof. reflexivity. Qed.

End Item35_facts.


(** ** Sequences: orders and [list.sort] *)
Section Sequences_facts.
Import Sequences.

(** *** The order of [str] *)

Lemma str_lt_cons (a b : Z) (x y : list Z) :
  str_lt (a :: x) (b :: y) = true <-> a < b \/ (a = b /\ str_lt x y = true).
Proof.
  cbn. rewrite orb_true_iff, andb_true_iff, Z.ltb_lt, Z.eqb_eq. reflexivity.
Qed.

Lemma str_lt_cons_false (a b : Z) (x y : list Z) :
  str_lt (a :: x) (b :: y) = false <->
  b < a \/ (a = b /\ str_lt x y = false).
Proof.
  cbn. rewrite orb_false_iff, andb_false_iff, Z.ltb_ge, Z.eqb_neq.
  destruct (str_lt x y); intuition (try discriminate; lia).
Qed.

Lemma str_lt_asym (x : list Z) :
  forall y, str_lt x y = true -> str_lt y x = false.
Proof.
  induction x as [|a x IH]; intros [|b y] H; try reflexivity;
    try discriminate.
  apply str_lt_cons in H. apply str_lt_cons_false.
  destruct H as [H|[-> H]]; [left; exact H | right].
  split; [reflexivity | apply IH; exact H].
Qed.

Lemma str_lt_irrefl (x : list Z) : str_lt x x = false.
Proof.
  destruct (str_lt x x) eqn:E; [|reflexivity].
  rewrite (str_lt_asym _ _ E) in E. discriminate.
Qed.

Lemma str_le_trans (x : list Z) :
  forall y z, str_lt y x = false -> str_lt z y = false -> str_lt z x = false.
Proof.
  induction x as [|a x IH]; intros y z Hxy Hyz.
  - destruct z; reflexivity.
  - destruct y as [|b y]; [discriminate Hxy|].
    destruct z as [|c z]; [discriminate Hyz|].
    apply str_lt_cons_false in Hxy, Hyz. apply str_lt_cons_false.
    destruct Hxy as [Hxy|[-> Hxy]], Hyz as [Hyz|[-> Hyz]];
      try (left; lia).
    right. split; [reflexivity | apply (IH y z); assumption].
Qed.

(** Two [str] of which neither is smaller are the same. *)
Lemma str_lt_total (x : list Z) :
  forall y, str_lt x y = false -> str_lt y x = false -> x = y.
Proof.
  induction x as [|a x IH]; intros [|b y] H1 H2; try reflexivity;
    try discriminate.
  apply str_lt_cons_false in H1, H2.
  destruct H1 as [H1|[-> H1]], H2 as [H2|[H2 H2']]; try lia.
  f_equal. apply IH; assumption.
Qed.

(** *** The order of pairs of [int]s *)

Lemma pair_lt_asym (x y : Z * Z) : pair_lt x y = true -> pair_lt y x = false.
Proof.
  unfold pair_lt.
  rewrite orb_true_iff, andb_true_iff, orb_false_iff, andb_false_iff,
    !Z.ltb_lt, !Z.ltb_ge, Z.eqb_eq, Z.eqb_neq. lia.
Qed.

Lemma pair_le_trans (x y z : Z * Z) :
  pair_lt y x = false -> pair_lt z y = false -> pair_lt z x = false.
Proof.
  unfold pair_lt.
  rewrite !orb_false_iff, !andb_false_iff, !Z.ltb_ge, !Z.eqb_neq. lia.
Qed.

Lemma StronglySorted_weaken {B} (R R' : B -> B -> Prop) (l : list B) :
  (forall a b, R a b -> R' a b) ->
  StronglySorted R l -> StronglySorted R' l.
Proof.
  intros H. induction 1 as [|x l _ IH Hx]; constructor; [exact IH|].
  eapply Forall_impl; [exact Hx | apply H].
Qed.

(** *** The sort *)
Section Sort_facts.
Context {K A : Type} (lt : K -> K -> bool).

Lemma sort_keyed_cons (reverse : bool) (kx : K * A) (l : list (K * A)) :
  sort_keyed lt reverse (kx :: l)
  = insert_keyed lt reverse kx (sort_keyed lt reverse l).
Proof. reflexivity. Qed.

Lemma insert_keyed_perm (reverse : bool) (kx : K * A) (l : list (K * A)) :
  insert_keyed lt reverse kx l ≡ₚ kx :: l.
Proof.
  induction l as [|ky l IH]; [reflexivity|]. cbn.
  destruct (precedes lt reverse ky.1 kx.1); [|reflexivity].
  rewrite IH. apply perm_swap.
Qed.

Lemma sort_keyed_perm (reverse : bool) (l : list (K * A)) :
  sort_keyed lt reverse l ≡ₚ l.
Proof.
  induction l as [|kx l IH]; [reflexivity|]. cbn.
  rewrite insert_keyed_perm, IH. reflexivity.
Qed.

(** The sort rearranges the list. *)
Lemma sort_by_perm (key : A -> K) (reverse : bool) (l : list A) :
  sort_by lt key reverse l ≡ₚ l.
Proof.
  unfold sort_by. rewrite sort_keyed_perm.
  rewrite <- list_fmap_compose. cbn.
  induction l as [|x l IH]; [reflexivity|]. cbn. rewrite IH. reflexivity.
Qed.

(** The items keep their keys. *)
Lemma sort_by_keyed (key : A -> K) (reverse : bool) (l : list A) :
  sort_keyed lt reverse (map (fun x => (key x, x)) l)
  = map (fun x => (key x, x)) (sort_by lt key reverse l).
Proof.
  unfold sort_by.
  assert (H : Forall (fun kx : K * A => kx.1 = key kx.2)
                     (sort_keyed lt reverse (map (fun x => (key x, x)) l))).
  { rewrite sort_keyed_perm. apply Forall_forall.
    intros kx Hin. apply list_elem_of_fmap in Hin as (x & -> & _). reflexivity. }
  induction H as [|[k x] m Hk _ IH]; [reflexivity|].
  cbn in *. subst k. f_equal. exact IH.
Qed.

(** What the items are does not matter to the sort, only their keys. *)
Lemma insert_keyed_fmap {B} (f : A -> B) (reverse : bool) (kx : K * A)
    (m : list (K * A)) :
  insert_keyed lt reverse (kx.1, f kx.2) (map (fun kx => (kx.1, f kx.2)) m)
  = map (fun kx => (kx.1, f kx.2)) (insert_keyed lt reverse kx m).
Proof.
  induction m as [|ky m IH]; [reflexivity|]. cbn [map insert_keyed fst].
  destruct (precedes lt reverse ky.1 kx.1); [|reflexivity].
  rewrite IH. reflexivity.
Qed.

Lemma sort_keyed_fmap {B} (f : A -> B) (reverse : bool) (l : list (K * A)) :
  sort_keyed lt reverse (map (fun kx => (kx.1, f kx.2)) l)
  = map (fun kx => (kx.1, f kx.2)) (sort_keyed lt reverse l).
Proof.
  unfold sort_keyed.
  induction l as [|kx l IH]; [reflexivity|]. cbn [map foldr].
  rewrite IH. apply insert_keyed_fmap.
Qed.

Hypothesis lt_asym : forall x y, lt x y = true -> lt y x = false.
Hypothesis le_trans :
  forall x y z, lt y x = false -> lt z y = false -> lt z x = false.

Lemma in_order_trans (reverse : bool) (a b c : K) :
  in_order lt reverse a b -> in_order lt reverse b c -> in_order lt reverse a c.
Proof.
  unfold in_order, precedes. destruct reverse; intros H1 H2.
  - apply (le_trans c b a); assumption.
  - apply (le_trans a b c); assumption.
Qed.

Lemma insert_keyed_sorted (reverse : bool) (kx : K * A) (l : list (K * A)) :
  StronglySorted (fun a b => in_order lt reverse a.1 b.1) l ->
  StronglySorted (fun a b => in_order lt reverse a.1 b.1)
                 (insert_keyed lt reverse kx l).
Proof.
  induction 1 as [|ky l Hl IH Hky]; cbn.
  - constructor; constructor.
  - destruct (precedes lt reverse ky.1 kx.1) eqn:E.
    + constructor; [exact IH|].
      rewrite insert_keyed_perm. constructor; [|exact Hky].
      unfold in_order, precedes in *. destruct reverse; apply lt_asym; exact E.
    + constructor; [constructor; assumption|].
      constructor; [exact E|].
      eapply Forall_impl; [exact Hky|].
      intros kz Hz. apply (in_order_trans reverse _ ky.1); [exact E | exact Hz].
Qed.

Lemma sort_keyed_sorted (reverse : bool) (l : list (K * A)) :
  StronglySorted (fun a b => in_order lt reverse a.1 b.1)
                 (sort_keyed lt reverse l).
Proof.
  induction l as [|kx l IH]; cbn; [constructor|].
  apply insert_keyed_sorted. exact IH.
Qed.

(** The result is in order of the keys. *)
Lemma sort_by_sorted (key : A -> K) (reverse : bool) (l : list A) :
  StronglySorted (fun a b => in_order lt reverse (key a) (key b))
                 (sort_by lt key reverse l).
Proof.
  pose proof (sort_keyed_sorted reverse (map (fun x => (key x, x)) l)) as H.
  rewrite sort_by_keyed in H.
  induction (sort_by lt key reverse l) as [|x m IH]; [constructor|].
  cbn in H. inversion H as [|? ? Hm Hx]; subst.
  constructor; [apply IH; exact Hm|].
  rewrite Forall_fmap in Hx. exact Hx.
Qed.

End Sort_facts.

End Sequences_facts.

(** ** Chap1, Item 6: [bubble_sort] *)
Section Item6_facts.
Import Sequences Item6.
Context {A : Type}.

Lemma position_nat (a : list A) (n : nat) :
  (n < length a)%nat -> position a (Z.of_nat n) = Return n.
Proof.
  intros Hn. unfold position, len.
  destruct (Z.ltb_spec (Z.of_nat n) 0) as [H|_]; [lia|].
  destruct (Z.leb_spec 0 (Z.of_nat n)) as [_|H]; [|lia].
  destruct (Z.ltb_spec (Z.of_nat n) (Z.of_nat (length a))) as [_|H]; [|lia].
  cbn. rewrite Nat2Z.id. reflexivity.
Qed.

Lemma position_same_length (a b : list A) (i : Z) :
  length a = length b -> position a i = position b i.
Proof. intros H. unfold position, len. rewrite H. reflexivity. Qed.

Lemma getitem_nat (a : list A) (n : nat) (x : A) :
  a !! n = Some x -> getitem a (Z.of_nat n) = Return x.
Proof.
  intros H. unfold getitem.
  rewrite position_nat by (apply lookup_lt_is_Some; eauto).
  cbn. rewrite H. reflexivity.
Qed.

Lemma setitem_nat (a : list A) (n : nat) (x : A) :
  (n < length a)%nat -> setitem a (Z.of_nat n) x = Return (<[n := x]> a).
Proof. intros H. unfold setitem. rewrite position_nat by exact H. reflexivity. Qed.

(** The two ways of swapping do the same at every index, in range or
    not. *)
Lemma swap_temp_unpack (lt : A -> A -> bool) (i : Z) (a : list A) :
  swap_temp lt i a = swap_unpack lt i a.
Proof.
  unfold swap_temp, swap_unpack, getitem, setitem.
  destruct (position a i) as [j1|e] eqn:E1; cbn; [|reflexivity].
  destruct (a !! j1) as [x|] eqn:Ex; cbn; [|reflexivity].
  destruct (position a (i - 1)) as [j2|e] eqn:E2; cbn; [|reflexivity].
  destruct (a !! j2) as [y|] eqn:Ey; cbn; [|reflexivity].
  destruct (lt x y); [|reflexivity].
  rewrite (position_same_length (<[j1:=y]> a) a) by apply length_insert.
  rewrite (position_same_length (<[j2:=x]> a) a) by apply length_insert.
  rewrite E1, E2. cbn.
  destruct (decide (j1 = j2)) as [->|Hne].
  - assert (x = y) by congruence. subst y. reflexivity.
  - f_equal. apply list_insert_insert_ne. congruence.
Qed.

Lemma for_result_ext {B T} (xs : list B) (f g : B -> T -> result T) (s : T) :
  (forall x s, f x s = g x s) -> for_result xs f s = for_result xs g s.
Proof.
  intros H. revert s. induction xs as [|x xs IH]; intros s; [reflexivity|].
  cbn. rewrite H. destruct (g x s); cbn; [apply IH | reflexivity].
Qed.

(** The swap at the position after [pre]. *)
Lemma swap_unpack_at (lt : A -> A -> bool) (pre : list A) (x y : A)
    (rest : list A) :
  swap_unpack lt (1 + Z.of_nat (length pre)) (pre ++ x :: y :: rest)
  = Return (if lt y x then pre ++ y :: x :: rest else pre ++ x :: y :: rest).
Proof.
  assert (Hy : (pre ++ x :: y :: rest) !! S (length pre) = Some y).
  { rewrite lookup_app_r by lia.
    replace (S (length pre) - length pre)%nat with 1%nat by lia. reflexivity. }
  assert (Hx : (pre ++ x :: y :: rest) !! length pre = Some x).
  { rewrite lookup_app_r by lia. rewrite Nat.sub_diag. reflexivity. }
  unfold swap_unpack.
  replace (1 + Z.of_nat (length pre)) with (Z.of_nat (S (length pre))) by lia.
  replace (Z.of_nat (S (length pre)) - 1) with (Z.of_nat (length pre)) by lia.
  rewrite (getitem_nat _ _ _ Hy), (getitem_nat _ _ _ Hx). cbn.
  destruct (lt y x); [|reflexivity].
  rewrite setitem_nat by (rewrite length_app; cbn; lia). cbn.
  rewrite setitem_nat
    by (rewrite length_insert, length_app; cbn; lia).
  f_equal.
  rewrite insert_app_r_alt by lia. rewrite Nat.sub_diag. cbn.
  rewrite insert_app_r_alt by lia.
  replace (S (length pre) - length pre)%nat with 1%nat by lia. reflexivity.
Qed.

(** The inner loop carries an item to the right. *)
Lemma inner_loop_carry (lt : A -> A -> bool) (rest : list A) :
  forall (pre : list A) (x : A),
  for_result (map (fun j => 1 + Z.of_nat j) (seq (length pre) (length rest)))
             (swap_unpack lt) (pre ++ x :: rest)
  = Return (pre ++ carry lt x rest).
Proof.
  induction rest as [|y rest IH]; intros pre x; [reflexivity|].
  cbn [length seq map for_result carry].
  rewrite swap_unpack_at. cbn.
  destruct (lt y x).
  - specialize (IH (pre ++ [y]) x).
    rewrite length_app in IH. cbn in IH.
    rewrite Nat.add_1_r, <- app_assoc in IH. cbn in IH.
    rewrite IH, <- app_assoc. reflexivity.
  - specialize (IH (pre ++ [x]) y).
    rewrite length_app in IH. cbn in IH.
    rewrite Nat.add_1_r, <- app_assoc in IH. cbn in IH.
    rewrite IH, <- app_assoc. reflexivity.
Qed.

Lemma inner_loop_pass (lt : A -> A -> bool) (a : list A) :
  for_result (range 1 (len a)) (swap_unpack lt) a = Return (pass lt a).
Proof.
  destruct a as [|x rest]; [reflexivity|].
  unfold range, len. cbn [length].
  replace (Z.to_nat (Z.of_nat (S (length rest)) - 1)) with (length rest) by lia.
  apply (inner_loop_carry lt rest [] x).
Qed.

Lemma length_carry (lt : A -> A -> bool) (rest : list A) :
  forall x, length (carry lt x rest) = S (length rest).
Proof.
  induction rest as [|y rest IH]; intros x; cbn; [reflexivity|].
  destruct (lt y x); cbn; rewrite IH; reflexivity.
Qed.

Lemma length_pass (lt : A -> A -> bool) (a : list A) :
  length (pass lt a) = length a.
Proof. destruct a; [reflexivity | apply length_carry]. Qed.

(** The outer loop repeats the pass. *)
Lemma outer_loop_passes (lt : A -> A -> bool) (idx : list Z) :
  forall a,
  for_result idx (fun _ a => for_result (range 1 (len a)) (swap_unpack lt) a) a
  = Return (Nat.iter (length idx) (pass lt) a).
Proof.
  induction idx as [|i idx IH]; intros a; [reflexivity|].
  cbn [for_result length]. rewrite inner_loop_pass.
  cbn [mbind result_bind]. rewrite IH, Nat.iter_succ_r. reflexivity.
Qed.

Lemma bubble_sort_passes (lt : A -> A -> bool) (a : list A) :
  bubble_sort lt a = Return (Nat.iter (length a) (pass lt) a).
Proof.
  unfold bubble_sort, bubble_loops. rewrite outer_loop_passes.
  rewrite length_range. unfold len.
  replace (Z.to_nat (Z.of_nat (length a) - 0)) with (length a) by lia.
  reflexivity.
Qed.

(** *** The passes sort *)
Section Order.
Variable lt : A -> A -> bool.
Hypothesis lt_asym : forall x y, lt x y = true -> lt y x = false.
Hypothesis le_trans :
  forall x y z, lt y x = false -> lt z y = false -> lt z x = false.

Lemma le_refl (x : A) : at_most lt x x.
Proof.
  unfold at_most. destruct (lt x x) eqn:E; [|reflexivity].
  rewrite (lt_asym _ _ E) in E. discriminate.
Qed.

(** An item no larger than a sorted run stays in front of it. *)
Lemma carry_sorted (b : list A) :
  forall x, Forall (at_most lt x) b -> StronglySorted (at_most lt) b -> carry lt x b = x :: b.
Proof.
  induction b as [|z b IH]; intros x Hx Hb; [reflexivity|].
  cbn. inversion Hx as [|? ? Hxz Hxb]; subst.
  unfold at_most in Hxz. rewrite Hxz.
  inversion Hb as [|? ? Hb' Hzb]; subst.
  rewrite IH by assumption. reflexivity.
Qed.

(** Carrying [x] through [f] and then through a sorted run [b] of larger
    items leaves the largest of [x :: f] in front of [b]. *)
Lemma carry_front (f : list A) :
  forall (x : A) (b : list A),
  Forall (fun y => Forall (at_most lt y) b) (x :: f) -> StronglySorted (at_most lt) b ->
  exists f' m,
    carry lt x (f ++ b) = f' ++ m :: b /\
    f' ++ [m] ≡ₚ x :: f /\
    Forall (fun y => at_most lt y m) (x :: f).
Proof.
  induction f as [|y f IH]; intros x b Hfb Hb.
  - exists [], x. cbn. split; [|split].
    + apply carry_sorted; [|exact Hb]. inversion Hfb; assumption.
    + reflexivity.
    + constructor; [apply le_refl | constructor].
  - cbn [app carry].
    inversion Hfb as [|? ? Hxb Hrest]; subst.
    destruct (lt y x) eqn:Eyx.
    + destruct (IH x b) as (f' & m & Hc & Hp & Hm).
      { constructor; [exact Hxb|]. inversion Hrest; assumption. }
      { exact Hb. }
      exists (y :: f'), m. split; [|split].
      * rewrite Hc. reflexivity.
      * cbn. rewrite Hp. apply perm_swap.
      * inversion Hm as [|? ? Hxm Hfm]; subst.
        constructor; [exact Hxm|]. constructor; [|exact Hfm].
        apply (le_trans y x m); [|exact Hxm].
        apply lt_asym. exact Eyx.
    + destruct (IH y b) as (f' & m & Hc & Hp & Hm).
      { exact Hrest. }
      { exact Hb. }
      exists (x :: f'), m. split; [|split].
      * rewrite Hc. reflexivity.
      * cbn. rewrite Hp. reflexivity.
      * inversion Hm as [|? ? Hym Hfm]; subst.
        constructor; [|constructor; assumption].
        apply (le_trans x y m); assumption.
Qed.

Lemma pass_sorted_tail (k : nat) (l : list A) :
  (k < length l)%nat -> sorted_tail lt k l -> sorted_tail lt (S k) (pass lt l).
Proof.
  intros Hk (front & back & -> & Hlen & Hsorted & Hle).
  destruct front as [|x f].
  { cbn in Hk. lia. }
  cbn [app pass].
  destruct (carry_front f x back Hle Hsorted) as (f' & m & Hc & Hp & Hm).
  exists f', (m :: back). split; [exact Hc|]. split; [cbn; lia|].
  assert (Hin : forall y, y ∈ f' ++ [m] -> y ∈ x :: f).
  { intros y Hy. rewrite <- Hp. exact Hy. }
  split.
  - constructor; [exact Hsorted|].
    assert (Hmx : m ∈ x :: f) by (apply Hin; set_solver).
    rewrite Forall_forall in Hle. apply Hle. exact Hmx.
  - apply Forall_forall. intros y Hy.
    assert (Hyx : y ∈ x :: f) by (apply Hin; set_solver).
    constructor.
    + rewrite Forall_forall in Hm. apply Hm. exact Hyx.
    + rewrite Forall_forall in Hle. apply Hle. exact Hyx.
Qed.

Lemma pass_perm (l : list A) : pass lt l ≡ₚ l.
Proof.
  destruct l as [|x rest]; [reflexivity|]. cbn.
  revert x. induction rest as [|y rest IH]; intros x; [reflexivity|].
  cbn. destruct (lt y x).
  - rewrite IH. apply perm_swap.
  - rewrite IH. reflexivity.
Qed.

Lemma passes_perm (k : nat) (l : list A) : Nat.iter k (pass lt) l ≡ₚ l.
Proof.
  induction k as [|k IH]; [reflexivity|].
  rewrite Nat.iter_succ, pass_perm. exact IH.
Qed.

Lemma passes_sorted_tail (k : nat) (l : list A) :
  (k <= length l)%nat -> sorted_tail lt k (Nat.iter k (pass lt) l).
Proof.
  induction k as [|k IH]; intros Hk.
  - exists l, []. cbn. rewrite app_nil_r. split; [reflexivity|].
    split; [reflexivity|]. split; [constructor|].
    apply Forall_forall. intros; constructor.
  - rewrite Nat.iter_succ. apply pass_sorted_tail; [|apply IH; lia].
    rewrite (Permutation_length (passes_perm k l)). lia.
Qed.

(** X1.  For an order [<] on the items (asymmetric, and with a transitive
    [<=]), [bubble_sort(a)] raises nothing and leaves in [a] the items it
    held, rearranged so that no item is smaller than an earlier one. *)
Theorem bubble_sort_sorts (a : list A) :
  exists a',
    bubble_sort lt a = Return a' /\
    a' ≡ₚ a /\
    StronglySorted (fun x y => lt y x = false) a'.
Proof.
  exists (Nat.iter (length a) (pass lt) a).
  split; [apply bubble_sort_passes|]. split; [apply passes_perm|].
  destruct (passes_sorted_tail (length a) a (le_n _))
    as (front & back & Heq & Hlen & Hsorted & _).
  assert (Hfront : front = []).
  { apply nil_length_inv.
    assert (Hl : length (Nat.iter (length a) (pass lt) a) = length a)
      by (apply Permutation_length, passes_perm).
    rewrite Heq, length_app in Hl. lia. }
  rewrite Heq, Hfront. exact Hsorted.
Qed.

End Order.

(** X2.  The two definitions of [bubble_sort], with a temporary variable
    and with unpacking, do the same to every list, whatever [<] is. *)
Theorem bubble_sort_temp_unpack (lt : A -> A -> bool) (a : list A) :
  bubble_sort_temp lt a = bubble_sort lt a.
Proof.
  unfold bubble_sort_temp, bubble_sort, bubble_loops.
  apply for_result_ext. intros _ s.
  apply for_result_ext. intros i s'. apply swap_temp_unpack.
Qed.

End Item6_facts.

Section Item6_script.
Import Sequences Item6.

Lemma bubble_sort_sorts_witness :
  exists a',
    bubble_sort str_lt names = Return a' /\
    a' ≡ₚ names /\
    StronglySorted (fun x y => str_lt y x = false) a'.
Proof.
  exact (bubble_sort_sorts str_lt str_lt_asym str_le_trans names).
Defined.

(** [bubble_sort(names); print(names)] *)
Example bubble_sort_names :
  bubble_sort str_lt names
  = Return [lit "arugula"; lit "bacon"; lit "carrots"; lit "pretzels"].
Proof. vm_compute. reflexivity. Qed.

End Item6_script.

(** ** Chap2, Item 15: [populate_ranks] and [get_winner] *)
Section Item15_facts.
Import Sequences Item15.

Lemma dict_get_elem {V} (d : dict V) (k : list Z) (v : V) :
  NoDup (keys d) -> (k, v) ∈ d -> dict_get d k = Some v.
Proof.
  unfold keys. induction d as [|[k' v'] d IH]; intros Hnd Hin.
  - inversion Hin.
  - cbn in *. apply NoDup_cons in Hnd as [Hk' Hnd].
    apply elem_of_cons in Hin as [Heq|Hin].
    + inversion Heq; subst. rewrite bool_decide_eq_true_2 by reflexivity.
      reflexivity.
    + rewrite bool_decide_eq_false_2; [apply IH; assumption|].
      intros ->. apply Hk'. apply list_elem_of_fmap. exists (k, v). auto.
Qed.

(** The keys of the sort are the counts of the votes. *)
Lemma keys_of_votes_get (votes l : dict Z) :
  Forall (fun kv => dict_get votes kv.1 = Some kv.2) l ->
  keys_of (M := result) (votes_get votes) (keys l)
  = Return (map (fun kv => (kv.2, kv.1)) l).
Proof.
  induction 1 as [|[k v] l Hk _ IH]; [reflexivity|].
  unfold keys in *. cbn [fmap list_fmap fst snd] in *. cbn [keys_of].
  assert (Hg : votes_get votes k = Return v)
    by (unfold votes_get; rewrite Hk; reflexivity).
  rewrite Hg. cbn [mbind result_bind]. rewrite IH. reflexivity.
Qed.

(** The names in the order [populate_ranks] gives them their ranks. *)
Lemma sort_with_votes_get (votes : dict Z) :
  NoDup (keys votes) ->
  sort_with (M := result) Z.ltb (votes_get votes) true (keys votes)
  = Return (sort_by Z.ltb snd true votes).*1.
Proof.
  intros Hnd. unfold sort_with.
  rewrite keys_of_votes_get.
  2:{ apply Forall_forall. intros [k v] Hin. apply dict_get_elem; assumption. }
  cbn. f_equal. unfold sort_by.
  transitivity
    (map (fun kx : Z * (list Z * Z) => (kx.1, kx.2.1))
         (sort_keyed Z.ltb true (map (fun x => (x.2, x)) votes))).*2.
  - rewrite <- (sort_keyed_fmap Z.ltb fst true). rewrite map_map. reflexivity.
  - generalize (sort_keyed Z.ltb true (map (fun x : list Z * Z => (x.2, x)) votes)).
    intros m. induction m as [|[k [n c]] m IH]; cbn; [reflexivity|].
    f_equal. exact IH.
Qed.

Lemma dict_setitem_new {V} (d : dict V) (key : list Z) (v : V) :
  key ∉ keys d -> dict_setitem d key v = d ++ [(key, v)].
Proof.
  unfold keys. induction d as [|[k w] d IH]; intros Hk; [reflexivity|].
  cbn in *. apply not_elem_of_cons in Hk as [Hne Hk].
  rewrite bool_decide_eq_false_2 by congruence.
  rewrite IH by exact Hk. reflexivity.
Qed.

(** Filling a dictionary with new names appends them with their ranks. *)
Lemma fill_ranks (names : list (list Z)) :
  forall (start : Z) (d : dict Z),
  NoDup (keys d ++ names) ->
  foldl (fun ranks '(i, name) => dict_setitem ranks name i) d
        (enumerate start names)
  = d ++ map (fun '(i, name) => (name, i)) (enumerate start names).
Proof.
  induction names as [|name names IH]; intros start d Hnd.
  - cbn. rewrite app_nil_r. reflexivity.
  - cbn. rewrite dict_setitem_new.
    2:{ apply NoDup_app in Hnd as (_ & Hd & _). intros Hin.
        apply (Hd name Hin). left. }
    rewrite IH.
    + rewrite <- app_assoc. reflexivity.
    + unfold keys. rewrite fmap_app. cbn. rewrite <- app_assoc. exact Hnd.
Qed.

Lemma enumerate_names {B} (l : list B) :
  forall start,
  (map (fun '(i, name) => (name, i)) (enumerate start l)).*1 = l.
Proof.
  induction l as [|x l IH]; intros start; [reflexivity|].
  cbn. rewrite IH. reflexivity.
Qed.

Lemma enumerate_ranks {B} (l : list B) :
  forall start,
  (map (fun '(i, name) => (name, i)) (enumerate start l)).*2
  = range start (start + Sequences.len l).
Proof.
  unfold range, Sequences.len.
  induction l as [|x l IH]; intros start.
  - cbn [enumerate map fmap list_fmap length].
    replace (Z.to_nat (start + Z.of_nat 0 - start)) with 0%nat by lia.
    reflexivity.
  - cbn [enumerate map fmap list_fmap length]. cbn [snd].
    replace (Z.to_nat (start + Z.of_nat (S (length l)) - start))
      with (S (length l)) by lia.
    specialize (IH (start + 1)).
    replace (Z.to_nat (start + 1 + Z.of_nat (length l) - (start + 1)))
      with (length l) in IH by lia.
    cbn [seq map]. f_equal; [lia|].
    etransitivity; [exact IH|].
    rewrite <- seq_shift, map_map. apply map_ext. intros i. lia.
Qed.

(** What [populate_ranks] leaves in an empty [dict]. *)
Lemma populate_ranks_dict_eq (votes : dict Z) :
  NoDup (keys votes) ->
  populate_ranks votes ([] : dict Z)
  = Return (map (fun '(i, name) => (name, i))
                (enumerate 1 (sort_by Z.ltb snd true votes).*1)).
Proof.
  intros Hnd. unfold populate_ranks.
  rewrite sort_with_votes_get by exact Hnd. cbn [mbind result_bind].
  f_equal. cbn [setitem dict_MutableMapping].
  rewrite fill_ranks; [reflexivity|].
  cbn. rewrite (sort_by_perm Z.ltb snd true votes). exact Hnd.
Qed.

Lemma foldl_setitem_data (l : list (Z * list Z)) :
  forall ranks : SortedDict,
  data (foldl (fun ranks '(i, name) => setitem ranks name i) ranks l)
  = foldl (fun ranks '(i, name) => dict_setitem ranks name i) (data ranks) l.
Proof.
  induction l as [|[i name] l IH]; intros ranks; [reflexivity|].
  cbn [foldl]. rewrite IH. reflexivity.
Qed.

(** The first of a sorted list is in order with every item. *)
Lemma sorted_head {B} (R : B -> B -> Prop) (x : B) (l : list B) :
  (forall y, R y y) -> StronglySorted R (x :: l) ->
  forall y, y ∈ x :: l -> R x y.
Proof.
  intros Hrefl Hs y Hy. inversion Hs as [|? ? _ Hx]; subst.
  apply elem_of_cons in Hy as [->|Hy]; [apply Hrefl|].
  rewrite Forall_forall in Hx. apply Hx. exact Hy.
Qed.

(** X3.  For a dictionary [votes] (no name twice), [populate_ranks] on an
    empty [dict] raises nothing and leaves the names of [votes] in an
    order of descending counts, with the ranks 1, 2, ... in that order;
    [get_winner] then returns a name with the largest count, and raises
    [StopIteration] when there are no votes. *)
Theorem populate_ranks_dict (votes : dict Z) :
  NoDup (keys votes) ->
  exists (ranks : dict Z) (sorted : dict Z),
    populate_ranks votes ([] : dict Z) = Return ranks /\
    sorted ≡ₚ votes /\
    StronglySorted (fun a b => b.2 <= a.2) sorted /\
    keys ranks = keys sorted /\
    ranks.*2 = range 1 (1 + Sequences.len votes) /\
    match get_winner ranks with
    | Return winner =>
        exists count, (winner, count) ∈ votes /\
                      forall name count', (name, count') ∈ votes ->
                                          count' <= count
    | Raise e => e = StopIteration /\ votes = []
    end.
Proof.
  intros Hnd.
  pose proof (sort_by_perm Z.ltb snd true votes) as Hperm.
  assert (Hsorted : StronglySorted (fun a b : list Z * Z => b.2 <= a.2)
                                   (sort_by Z.ltb snd true votes)).
  { apply (StronglySorted_weaken
             (fun a b : list Z * Z => in_order Z.ltb true a.2 b.2));
      [|apply (sort_by_sorted Z.ltb); intros; lia].
    intros a b. unfold in_order, precedes. lia. }
  eexists _, (sort_by Z.ltb snd true votes).
  split; [apply populate_ranks_dict_eq; exact Hnd|].
  split; [exact Hperm|]. split; [exact Hsorted|].
  split; [apply enumerate_names|].
  split.
  { rewrite enumerate_ranks. unfold Sequences.len.
    rewrite length_fmap, (Permutation_length Hperm). reflexivity. }
  unfold get_winner. cbn [iter dict_MutableMapping].
  unfold keys at 1. rewrite enumerate_names.
  destruct (sort_by Z.ltb snd true votes) as [|[winner count] rest] eqn:E.
  - cbn. split; [reflexivity|].
    apply Permutation_nil_l in Hperm. symmetry. exact Hperm.
  - cbn. exists count. split.
    + rewrite <- Hperm. left.
    + intros name count' Hin. rewrite <- Hperm in Hin.
      apply (sorted_head _ _ _ (fun y => Z.le_refl y.2) Hsorted (name, count')).
      exact Hin.
Qed.

(** X4.  [populate_ranks] fills a [SortedDict] with the same ranks as a
    [dict], but [get_winner] then returns the name that is first in the
    order of [str], whatever the counts are. *)
Theorem populate_ranks_SortedDict (votes : dict Z) :
  NoDup (keys votes) ->
  exists ranks : SortedDict,
    populate_ranks votes SortedDict_init = Return ranks /\
    populate_ranks votes ([] : dict Z) = Return (data ranks) /\
    match get_winner ranks with
    | Return winner =>
        winner ∈ keys votes /\
        forall name, name ∈ keys votes -> str_lt name winner = false
    | Raise e => e = StopIteration /\ votes = []
    end.
Proof.
  intros Hnd.
  pose proof (sort_by_perm Z.ltb snd true votes) as Hperm.
  unfold populate_ranks.
  rewrite sort_with_votes_get by exact Hnd. cbn [mbind result_bind].
  eexists. split; [reflexivity|].
  rewrite foldl_setitem_data. split; [reflexivity|].
  unfold get_winner. cbn [iter SortedDict_MutableMapping].
  rewrite foldl_setitem_data. cbn [data SortedDict_init].
  rewrite fill_ranks by (cbn; rewrite Hperm; exact Hnd).
  cbn [app]. unfold keys at 1. rewrite enumerate_names.
  assert (Hp : sort_strs (sort_by Z.ltb snd true votes).*1 ≡ₚ keys votes).
  { unfold sort_strs. rewrite sort_by_perm, Hperm. reflexivity. }
  pose proof (sort_by_sorted str_lt str_lt_asym str_le_trans (fun x => x) false
                (sort_by Z.ltb snd true votes).*1) as Hs.
  fold sort_strs in Hs.
  destruct (sort_strs (sort_by Z.ltb snd true votes).*1) as [|winner rest].
  - split; [reflexivity|]. apply Permutation_nil_l in Hp.
    destruct votes; [reflexivity | discriminate].
  - split; [rewrite <- Hp; left|].
    intros name Hin. rewrite <- Hp in Hin.
    apply (sorted_head _ _ _ str_lt_irrefl Hs name Hin).
Qed.

Lemma votes_NoDup : NoDup (keys votes).
Proof. apply (bool_decide_unpack _). vm_compute. exact I. Qed.

Lemma populate_ranks_dict_witness :
  exists (ranks : dict Z) (sorted : dict Z),
    populate_ranks votes ([] : dict Z) = Return ranks /\
    sorted ≡ₚ votes /\
    StronglySorted (fun a b => b.2 <= a.2) sorted /\
    keys ranks = keys sorted /\
    ranks.*2 = range 1 (1 + Sequences.len votes) /\
    match get_winner ranks with
    | Return winner =>
        exists count, (winner, count) ∈ votes /\
                      forall name count', (name, count') ∈ votes ->
                                          count' <= count
    | Raise e => e = StopIteration /\ votes = []
    end.
Proof. exact (populate_ranks_dict votes votes_NoDup). Defined.

Lemma populate_ranks_SortedDict_witness :
  exists ranks : SortedDict,
    populate_ranks votes SortedDict_init = Return ranks /\
    populate_ranks votes ([] : dict Z) = Return (data ranks) /\
    match get_winner ranks with
    | Return winner =>
        winner ∈ keys votes /\
        forall name, name ∈ keys votes -> str_lt name winner = false
    | Raise e => e = StopIteration /\ votes = []
    end.
Proof. exact (populate_ranks_SortedDict votes votes_NoDup). Defined.

(** The script: the winner is ['otter'] with a [dict] and ['fox'] with a
    [SortedDict]. *)
Example winners_of_the_script :
  (ranks ← populate_ranks votes ([] : dict Z); get_winner ranks)
  = Return (lit "otter") /\
  (ranks ← populate_ranks votes SortedDict_init; get_winner ranks)
  = Return (lit "fox").
Proof. split; vm_compute; reflexivity. Qed.

End Item15_facts.

(** ** Chap3, Item 21: [sort_priority] and the scope of [found] *)
Section Item21_facts.
Import Sequences Item21.

Lemma precedes_same_tag (t k' k : Z) :
  precedes pair_lt false (t, k') (t, k) = (k' <? k).
Proof.
  unfold precedes, pair_lt. cbn [fst snd].
  rewrite Z.ltb_irrefl, Z.eqb_refl. reflexivity.
Qed.

(** Items with the same first component of their keys are inserted as
    the second components say. *)
Lemma insert_keyed_tagged (t k x : Z) (m : list (Z * Z)) :
  insert_keyed pair_lt false ((t, k), x)
               (map (fun kx => ((t, kx.1), kx.2)) m)
  = map (fun kx => ((t, kx.1), kx.2)) (insert_keyed Z.ltb false (k, x) m).
Proof.
  induction m as [|[k' x'] m IH]; [reflexivity|].
  cbn [map insert_keyed fst snd]. rewrite precedes_same_tag.
  unfold precedes. destruct (k' <? k); [|reflexivity].
  rewrite IH. reflexivity.
Qed.

(** An item of the group stops in front of the items that are not in
    it. *)
Lemma insert_keyed_member (k x : Z) (l1 l2 : list (Z * Z * Z)) :
  Forall (fun ky => ky.1.1 = 1) l2 ->
  insert_keyed pair_lt false ((0, k), x) (l1 ++ l2)
  = insert_keyed pair_lt false ((0, k), x) l1 ++ l2.
Proof.
  intros H2. induction l1 as [|ky l1 IH].
  - destruct H2 as [|[[t k'] x'] l2 Ht _]; [reflexivity|].
    cbn in *. subst t. reflexivity.
  - cbn [app insert_keyed].
    destruct (precedes pair_lt false ky.1 (0, k, x).1); [|reflexivity].
    rewrite IH. reflexivity.
Qed.

(** An item that is not in the group passes the items of the group. *)
Lemma insert_keyed_other (k x : Z) (l1 l2 : list (Z * Z * Z)) :
  Forall (fun ky => ky.1.1 = 0) l1 ->
  insert_keyed pair_lt false ((1, k), x) (l1 ++ l2)
  = l1 ++ insert_keyed pair_lt false ((1, k), x) l2.
Proof.
  induction 1 as [|[[t k'] x'] l1 Ht _ IH]; [reflexivity|].
  cbn in Ht. subst t. cbn [app insert_keyed].
  change (precedes pair_lt false (0, k', x').1 (1, k, x).1) with true.
  rewrite IH. reflexivity.
Qed.

Lemma sort_keyed_helper (values : list Z) (group : gset Z) :
  sort_keyed pair_lt false (map (fun x => (helper group x, x)) values)
  = map (fun kx => ((0, kx.1), kx.2))
        (sort_keyed Z.ltb false
           (map (fun x => (x, x)) (filter (fun x => x ∈ group) values)))
    ++ map (fun kx => ((1, kx.1), kx.2))
           (sort_keyed Z.ltb false
              (map (fun x => (x, x)) (filter (fun x => x ∉ group) values))).
Proof.
  induction values as [|x values IH]; [reflexivity|].
  cbn [map]. rewrite sort_keyed_cons, IH. clear IH. unfold helper at 1.
  destruct (decide (x ∈ group)) as [Hin|Hout].
  - rewrite bool_decide_eq_true_2 by exact Hin.
    rewrite (filter_cons_True (fun x => x ∈ group)) by exact Hin.
    rewrite (filter_cons_False (fun x => x ∉ group)) by (intros H; exact (H Hin)).
    rewrite insert_keyed_member by (apply Forall_fmap, Forall_true; reflexivity).
    cbn [map]. rewrite sort_keyed_cons, insert_keyed_tagged. reflexivity.
  - rewrite bool_decide_eq_false_2 by exact Hout.
    rewrite (filter_cons_False (fun x => x ∈ group)) by exact Hout.
    rewrite (filter_cons_True (fun x => x ∉ group)) by exact Hout.
    rewrite insert_keyed_other by (apply Forall_fmap, Forall_true; reflexivity).
    cbn [map]. rewrite sort_keyed_cons, insert_keyed_tagged. reflexivity.
Qed.

(** [sort_priority] sorts the numbers of the group and the other numbers
    apart and puts the former in front. *)
Lemma sort_priority_eq (values : list Z) (group : gset Z) :
  sort_priority values group
  = sort_ints (filter (fun x => x ∈ group) values)
    ++ sort_ints (filter (fun x => x ∉ group) values).
Proof.
  unfold sort_priority, sort_by at 1. rewrite sort_keyed_helper.
  rewrite fmap_app. unfold sort_ints, sort_by.
  f_equal; rewrite <- list_fmap_compose; reflexivity.
Qed.

Lemma sort_ints_sorted (l : list Z) : StronglySorted Z.le (sort_ints l).
Proof.
  apply (StronglySorted_weaken (fun a b => in_order Z.ltb false a b)).
  - intros a b. unfold in_order, precedes. lia.
  - apply (sort_by_sorted Z.ltb); intros; lia.
Qed.

(** X5.  [sort_priority(values, group)] rearranges [values] so that the
    numbers of [group] come first, in ascending order, and the other
    numbers follow, in ascending order. *)
Theorem sort_priority_groups (values : list Z) (group : gset Z) :
  exists front back,
    sort_priority values group = front ++ back /\
    front ≡ₚ filter (fun x => x ∈ group) values /\
    back ≡ₚ filter (fun x => x ∉ group) values /\
    StronglySorted Z.le front /\ StronglySorted Z.le back.
Proof.
  exists (sort_ints (filter (fun x => x ∈ group) values)),
         (sort_ints (filter (fun x => x ∉ group) values)).
  split; [apply sort_priority_eq|].
  split; [apply sort_by_perm|]. split; [apply sort_by_perm|].
  split; apply sort_ints_sorted.
Qed.

(** *** The flag [found] *)

(** A [helper] that declares nothing leaves the variables of the
    enclosing function as they are. *)
Lemma keys_of_helper_local (group : gset Z) (numbers : list Z) :
  forall locals : frame,
  keys_of (helper_found [] group) numbers locals
  = (Return (map (fun x => (helper group x, x)) numbers), locals).
Proof.
  induction numbers as [|x numbers IH]; intros locals; [reflexivity|].
  cbn [keys_of map]. unfold mbind at 1, eff_bind.
  assert (Hx : helper_found [] group x locals
               = (Return (helper group x), locals)).
  { unfold helper_found, helper, assign.
    destruct (bool_decide (x ∈ group)); reflexivity. }
  rewrite Hx. unfold mbind, eff_bind. rewrite IH. reflexivity.
Qed.

(** A [helper] that declares [found] nonlocal sets the variable of the
    enclosing function when it meets a number of the group. *)
Lemma keys_of_helper_nonlocal (group : gset Z) (numbers : list Z) :
  forall locals : frame,
  keys_of (helper_found ["found"] group) numbers locals
  = (Return (map (fun x => (helper group x, x)) numbers),
     if some_in_group numbers group
     then <["found" := PyBool true]> locals else locals).
Proof.
  induction numbers as [|x numbers IH]; intros locals; [reflexivity|].
  cbn [keys_of map]. unfold mbind at 1, eff_bind.
  assert (Hx : helper_found ["found"] group x locals
               = (Return (helper group x),
                  if bool_decide (x ∈ group)
                  then <["found" := PyBool true]> locals else locals)).
  { unfold helper_found, helper, assign.
    destruct (bool_decide (x ∈ group)); [|reflexivity].
    unfold mbind, eff_bind.
    rewrite bool_decide_eq_true_2 by (apply list_elem_of_here).
    reflexivity. }
  rewrite Hx. unfold mbind, eff_bind. rewrite IH.
  unfold some_in_group. cbn [existsb].
  destruct (bool_decide (x ∈ group)); cbn [orb]; [|reflexivity].
  destruct (existsb _ numbers); [|reflexivity].
  unfold mret, eff_ret. f_equal. unfold frame in *.
  apply (insert_insert_eq (M := gmap string)).
Qed.

Lemma keys_of_Sorter (numbers : list Z) :
  forall self : Sorter,
  keys_of Sorter_call numbers self
  = (Return (map (fun x => (helper (group self) x, x)) numbers),
     {| group := group self;
        found := found self || some_in_group numbers (group self) |}).
Proof.
  induction numbers as [|x numbers IH]; intros self.
  - cbn. rewrite orb_false_r. destruct self; reflexivity.
  - cbn [keys_of map]. unfold mbind at 1, eff_bind.
    unfold Sorter_call at 1, helper at 1, some_in_group. cbn [existsb].
    destruct (bool_decide (x ∈ group self)).
    + unfold mbind, eff_bind. rewrite IH. cbn [group found orb].
      rewrite orb_true_r. reflexivity.
    + unfold mbind, eff_bind. rewrite IH. cbn [orb]. reflexivity.
Qed.

(** X6.  [sort_priority2] returns [False] whatever it is given, since
    the assignment in its [helper] makes a variable of [helper];
    [sort_priority3] and a [Sorter] report whether a number of the group
    was met; all three sort the numbers as [sort_priority] does. *)
Theorem found_flag (numbers : list Z) (group : gset Z) :
  sort_priority2 numbers group
  = (Return (PyBool false), sort_priority numbers group) /\
  sort_priority3 numbers group
  = (Return (PyBool (some_in_group numbers group)),
     sort_priority numbers group) /\
  sort_with_Sorter numbers group
  = (Return (sort_priority numbers group),
     {| Item21.group := group;
        found := some_in_group numbers group |}) /\
  (some_in_group numbers group = true <->
   exists x, x ∈ numbers /\ x ∈ group).
Proof.
  split; [|split; [|split]].
  - unfold sort_priority2, sort_priority_found, sort_with.
    unfold mbind, eff_bind. rewrite keys_of_helper_local.
    unfold mret, eff_ret. cbv beta iota. unfold frame.
    rewrite lookup_singleton_eq. reflexivity.
  - unfold sort_priority3, sort_priority_found, sort_with.
    unfold mbind, eff_bind. rewrite keys_of_helper_nonlocal.
    unfold mret, eff_ret. cbv beta iota. unfold frame.
    destruct (some_in_group numbers group).
    + rewrite lookup_insert_eq. reflexivity.
    + rewrite lookup_singleton_eq. reflexivity.
  - unfold sort_with_Sorter, sort_with.
    unfold mbind, eff_bind. rewrite keys_of_Sorter. reflexivity.
  - unfold some_in_group. rewrite existsb_exists. split.
    + intros (x & Hin & Hx). exists x. split.
      * apply list_elem_of_In. exact Hin.
      * apply bool_decide_eq_true in Hx. exact Hx.
    + intros (x & Hin & Hx). exists x. split.
      * apply list_elem_of_In. exact Hin.
      * apply bool_decide_eq_true. exact Hx.
Qed.

(** The script: [sort_priority(numbers, group); print(numbers)]. *)
Example sort_priority_numbers :
  sort_priority numbers group_2357 = [2; 3; 5; 7; 1; 4; 6; 8].
Proof. vm_compute. reflexivity. Qed.

End Item21_facts.

(** ** Iterating composed generators *)
Section Iteration_facts.
Import Generator Item30.
Context {St : Type}.

(** [run_from] is the iteration of [drain], seen after the first step. *)
Lemma run_from_after {P} (c : code St P) (fuel : nat) :
  forall r : step P * St,
  match run_from fuel c r with
  | Some (res, st') => Some (res, Finished, st')
  | None => None
  end
  = match after r with
    | (Return v, g', st') =>
        match drain fuel c g' st' with
        | Some (Return vs, g'', st'') => Some (Return (v :: vs), g'', st'')
        | other => other
        end
    | (Raise StopIteration, g', st') => Some (Return [], g', st')
    | (Raise e, g', st') => Some (Raise e, g', st')
    end.
Proof.
  induction fuel as [|fuel IH]; intros [[v p| |e] st]; cbn [run_from after].
  - reflexivity.
  - reflexivity.
  - destruct e; reflexivity.
  - rewrite drain_S.
    change (gen_resume c (Suspended p) Next st)
      with (after (resume c p Next st)).
    rewrite <- IH.
    destruct (run_from fuel c (resume c p Next st)) as [[[vs|e] st']|];
      reflexivity.
  - reflexivity.
  - destruct e; reflexivity.
Qed.

Lemma drain_created {P} (c : code St P) (fuel : nat) (st : St) :
  drain (S fuel) c Created st
  = match run_from fuel c (enter c st) with
    | Some (res, st') => Some (res, Finished, st')
    | None => None
    end.
Proof. rewrite drain_S, run_from_after. reflexivity. Qed.

(** One unit of fuel for each item is enough. *)
Lemma run_from_length {P} (c : code St P) (fuel : nat) :
  forall (r : step P * St) vs st',
  run_from fuel c r = Some (Return vs, st') ->
  run_from (length vs) c r = Some (Return vs, st').
Proof.
  induction fuel as [|fuel IH]; intros [[v p| |e] st] vs st' H;
    cbn [run_from] in H; try discriminate.
  - inversion H; subst. reflexivity.
  - destruct (run_from fuel c (resume c p Next st)) as [[[ws|e] st1]|] eqn:E;
      try discriminate.
    inversion H; subst. cbn [length run_from].
    rewrite (IH _ _ _ E). reflexivity.
  - inversion H; subst. reflexivity.
Qed.

(** A generator that completes is listed in full by [drain], with one
    unit of fuel for each item and one for the end. *)
Lemma completes_drain {P} (c : code St P) (st : St) vs st' :
  completes c (enter c st) vs st' ->
  drain (S (length vs)) c Created st = Some (Return vs, Finished, st').
Proof.
  intros [fuel H]. rewrite drain_created, (run_from_length c fuel _ _ _ H).
  reflexivity.
Qed.

(** Only how the code resumes under [next] matters. *)
Lemma run_from_ext {P} (c c' : code St P) :
  (forall p st, resume c p Next st = resume c' p Next st) ->
  forall fuel r, run_from fuel c r = run_from fuel c' r.
Proof.
  intros H fuel. induction fuel as [|fuel IH]; intros [[v p| |e] st];
    cbn [run_from]; try reflexivity.
  rewrite H, IH. reflexivity.
Qed.

Lemma completes_ext {P} (c c' : code St P) r vs st' :
  (forall p st, resume c p Next st = resume c' p Next st) ->
  completes c r vs st' -> completes c' r vs st'.
Proof.
  intros H [fuel Hr]. exists fuel. rewrite <- (run_from_ext c c' H). exact Hr.
Qed.

(** *** The statements *)

Lemma completes_yield (v : pyval) (st : St) :
  completes (yield_ v) (enter (yield_ v) st) [v] st.
Proof. exists 1%nat. reflexivity. Qed.

Lemma completes_yield_of (e : St -> pyval) (st : St) :
  completes (yield_of e) (enter (yield_of e) st) [e st] st.
Proof. exists 1%nat. reflexivity. Qed.

Lemma completes_exec (f : St -> St) (st : St) :
  completes (exec f) (enter (exec f) st) [] (f st).
Proof. exists 0%nat. reflexivity. Qed.

Lemma completes_when {P} (b : bool) (body : code St P) (st : St) vs :
  completes body (enter body st) vs st ->
  completes (when_ b body) (enter (when_ b body) st) (if b then vs else []) st.
Proof.
  intros H. destruct b.
  - apply (completes_ext body); [reflexivity | exact H].
  - exists 0%nat. reflexivity.
Qed.

(** Once the first statement of a sequence is done, the sequence is its
    second statement. *)
Lemma run_from_seq_right {P Q} (c1 : code St P) (c2 : code St Q)
    (fuel : nat) :
  forall (r : step Q * St),
  run_from fuel (seq_ c1 c2) (let '(s, st) := r in (map_pc (@inr P Q) s, st))
  = run_from fuel c2 r.
Proof.
  induction fuel as [|fuel IH]; intros [[v q| |e] st]; cbn [run_from map_pc];
    try reflexivity.
  change (resume (seq_ c1 c2) (inr q) Next st)
    with (let '(s, st') := resume c2 q Next st in (map_pc (@inr P Q) s, st')).
  rewrite IH. reflexivity.
Qed.

Lemma completes_seq {P Q} (c1 : code St P) (c2 : code St Q) :
  forall (r : step P * St) vs1 st1 vs2 st2,
  completes c1 r vs1 st1 ->
  completes c2 (enter c2 st1) vs2 st2 ->
  completes (seq_ c1 c2) (then_ c2 r) (vs1 ++ vs2) st2.
Proof.
  intros r vs1 st1 vs2 st2 [f1 H1] [f2 H2].
  revert r vs1 H1.
  induction f1 as [|f1 IH]; intros [[v p| |e] st] vs1 H1;
    cbn [run_from] in H1; try discriminate.
  - inversion H1; subst. exists f2. cbn [then_ app].
    rewrite (run_from_seq_right c1 c2 f2 (enter c2 st1)). exact H2.
  - destruct (run_from f1 c1 (resume c1 p Next st)) as [[[ws|e] st']|] eqn:E;
      try discriminate.
    inversion H1; subst.
    destruct (IH _ _ E) as [f Hf].
    exists (S f). cbn [then_ run_from app].
    change (resume (seq_ c1 c2) (inl p) Next st)
      with (then_ c2 (resume c1 p Next st)).
    rewrite Hf. reflexivity.
  - inversion H1; subst. exists f2. cbn [then_ app].
    rewrite (run_from_seq_right c1 c2 f2 (enter c2 st1)). exact H2.
Qed.

Lemma completes_seq_enter {P Q} (c1 : code St P) (c2 : code St Q) (st : St)
    vs1 st1 vs2 st2 :
  completes c1 (enter c1 st) vs1 st1 ->
  completes c2 (enter c2 st1) vs2 st2 ->
  completes (seq_ c1 c2) (enter (seq_ c1 c2) st) (vs1 ++ vs2) st2.
Proof. apply completes_seq. Qed.

Lemma completes_each {A P} (body : A -> code St P) (items : list A)
    (x : A) (xs : list A) :
  forall (r : step P * St) vs1 st1 vs2 st2,
  completes (body x) r vs1 st1 ->
  completes (for_each xs body) (enter_each body xs st1) vs2 st2 ->
  completes (for_each items body) (each body x xs r) (vs1 ++ vs2) st2.
Proof.
  intros r vs1 st1 vs2 st2 [f1 H1] H2.
  apply (completes_ext (for_each xs body) (for_each items body)) in H2;
    [|reflexivity].
  destruct H2 as [f2 H2].
  revert r vs1 H1.
  induction f1 as [|f1 IH]; intros [[v p| |e] st] vs1 H1;
    cbn [run_from] in H1; try discriminate.
  - inversion H1; subst. exists f2. exact H2.
  - destruct (run_from f1 (body x) (resume (body x) p Next st))
      as [[[ws|e] st']|] eqn:E; try discriminate.
    inversion H1; subst.
    destruct (IH _ _ E) as [f Hf].
    exists (S f). cbn [each run_from app].
    change (resume (for_each items body) (x, xs, p) Next st)
      with (each body x xs (resume (body x) p Next st)).
    rewrite Hf. reflexivity.
  - inversion H1; subst. exists f2. exact H2.
Qed.

(** A loop whose body completes for every item completes. *)
Lemma completes_for_each {A P} (body : A -> code St P)
    (f : A -> St -> list pyval * St) :
  (forall x st, completes (body x) (enter (body x) st) (f x st).1 (f x st).2) ->
  forall xs st,
  completes (for_each xs body) (enter (for_each xs body) st)
            (fold_out f xs st).1 (fold_out f xs st).2.
Proof.
  intros Hbody xs. induction xs as [|x xs IH]; intros st.
  - exists 0%nat. reflexivity.
  - cbn [fold_out].
    pose proof (Hbody x st) as Hx.
    destruct (f x st) as [vs st1]. cbn [fst snd] in Hx.
    pose proof (IH st1) as Hxs.
    destruct (fold_out f xs st1) as [ws st2]. cbn [fst snd] in *.
    change (enter (for_each (x :: xs) body) st)
      with (each body x xs (enter (body x) st)).
    apply (completes_each body (x :: xs) x xs _ vs st1 ws st2 Hx).
    exact Hxs.
Qed.

End Iteration_facts.

(** ** Chap4, Item 30: [index_words_iter] and [index_file] *)
Section Item30_facts.
Import Generator Sequences Item30.

(** *** Where the words start *)

Lemma after_spaces_spec (text : list Z) :
  forall offset i,
  i ∈ after_spaces offset text <->
  offset < i /\ text !! Z.to_nat (i - offset - 1) = Some 32.
Proof.
  induction text as [|letter text IH]; intros offset i; cbn [after_spaces].
  - split; [intros H; inversion H | intros [_ H]; discriminate].
  - rewrite elem_of_app, IH. unfold is_space.
    destruct (Z.eq_dec i (offset + 1)) as [->|Hne].
    + replace (Z.to_nat (offset + 1 - offset - 1)) with 0%nat by lia. cbn.
      destruct (Z.eqb_spec letter 32) as [->|Hl].
      * split; [intros _; split; [lia | reflexivity]|].
        intros _. left. left.
      * split.
        -- intros [H|[H _]]; [inversion H | lia].
        -- intros [_ H]. congruence.
    + split.
      * intros [H|[Hlt H]].
        -- destruct (letter =? 32); [|inversion H].
           apply list_elem_of_singleton in H. contradiction.
        -- split; [lia|].
           replace (Z.to_nat (i - offset - 1))
             with (S (Z.to_nat (i - (offset + 1) - 1))) by lia.
           exact H.
      * intros [Hlt H]. right. split; [lia|].
        replace (Z.to_nat (i - offset - 1))
          with (S (Z.to_nat (i - (offset + 1) - 1))) in H by lia.
        exact H.
Qed.

Lemma after_spaces_sorted (text : list Z) :
  forall offset, StronglySorted Z.lt (after_spaces offset text).
Proof.
  induction text as [|letter text IH]; intros offset; cbn [after_spaces].
  - constructor.
  - destruct (is_space letter); cbn [app]; [|apply IH].
    constructor; [apply IH|].
    apply Forall_forall. intros i Hi.
    apply after_spaces_spec in Hi. lia.
Qed.

Lemma word_starts_spec (text : list Z) (i : Z) :
  i ∈ word_starts 0 text <->
  (i = 0 /\ text <> []) \/ (0 < i /\ text !! Z.to_nat (i - 1) = Some 32).
Proof.
  unfold word_starts. rewrite elem_of_app, after_spaces_spec.
  replace (i - 0 - 1) with (i - 1) by lia.
  destruct text as [|letter text]; cbn [nonempty].
  - split; [intros [H|H]; [inversion H | right; exact H]|].
    intros [[_ H]|H]; [congruence | right; exact H].
  - rewrite list_elem_of_singleton. split.
    + intros [->|H]; [left; split; [reflexivity | discriminate] | right; exact H].
    + intros [[-> _]|H]; [left; reflexivity | right; exact H].
Qed.

Lemma word_starts_sorted (offset : Z) (text : list Z) :
  StronglySorted Z.lt (word_starts offset text).
Proof.
  unfold word_starts. destruct (nonempty text); cbn [app].
  - constructor; [apply after_spaces_sorted|].
    apply Forall_forall. intros i Hi. apply after_spaces_spec in Hi. lia.
  - apply after_spaces_sorted.
Qed.

(** *** [index_words_iter] *)

Lemma fold_out_words (text : list Z) :
  forall offset,
  fold_out (St := unit)
    (fun '(index, letter) st =>
       (if is_space letter then [PyInt (index + 1)] else [], st))
    (enumerate offset text) tt
  = (map PyInt (after_spaces offset text), tt).
Proof.
  induction text as [|letter text IH]; intros offset; [reflexivity|].
  cbn [enumerate fold_out after_spaces]. rewrite IH, map_app.
  destruct (is_space letter); reflexivity.
Qed.

Lemma index_words_iter_completes (text : list Z) :
  completes (index_words_iter text) (enter (index_words_iter text) tt)
            (map PyInt (word_starts 0 text)) tt.
Proof.
  unfold index_words_iter, word_starts. rewrite map_app.
  apply (completes_seq_enter _ _ tt _ tt).
  - replace (map PyInt (if nonempty text then [0] else []))
      with (if nonempty text then [PyInt 0] else [])
      by (destruct (nonempty text); reflexivity).
    apply completes_when, completes_yield.
  - pose proof (completes_for_each (St := unit)
        (fun '(index, letter) =>
           when_ (is_space letter) (yield_ (PyInt (index + 1))))
        (fun '(index, letter) st =>
           (if is_space letter then [PyInt (index + 1)] else [], st))) as H.
    specialize (H (fun '(index, letter) st =>
                     completes_when (is_space letter) _ st _
                                    (completes_yield _ st))).
    specialize (H (enumerate 0 text) tt).
    rewrite fold_out_words in H. exact H.
Qed.

(** X7.  [list(index_words_iter(text))] is complete after one [next] for
    each item and one more; the indices come in increasing order, and
    they are 0, when [text] is not empty, and every index that follows a
    space of [text]. *)
Theorem index_words_iter_indices (text : list Z) :
  list_of (S (length (word_starts 0 text))) (index_words_iter text)
  = Some (Return (map PyInt (word_starts 0 text))) /\
  StronglySorted Z.lt (word_starts 0 text) /\
  forall i,
    i ∈ word_starts 0 text <->
    (i = 0 /\ text <> []) \/ (0 < i /\ text !! Z.to_nat (i - 1) = Some 32).
Proof.
  split; [|split].
  - unfold list_of.
    pose proof (completes_drain _ _ _ _ (index_words_iter_completes text)) as H.
    rewrite length_map in H. rewrite H. reflexivity.
  - apply word_starts_sorted.
  - apply word_starts_spec.
Qed.

(** *** [index_file] *)

Lemma fold_out_letters (line : list Z) :
  forall offset : Z,
  fold_out
    (fun letter offset =>
       (if is_space letter then [PyInt (offset + 1)] else [], offset + 1))
    line offset
  = (map PyInt (after_spaces offset line), offset + len line).
Proof.
  unfold len.
  induction line as [|letter line IH]; intros offset.
  - cbn. f_equal. lia.
  - cbn [fold_out after_spaces length]. rewrite IH, map_app.
    destruct (is_space letter); cbn [map app]; f_equal; lia.
Qed.

Lemma fold_out_lines (handle : list (list Z)) :
  forall offset : Z,
  fold_out
    (fun line offset => (map PyInt (word_starts offset line), offset + len line))
    handle offset
  = (map PyInt (line_starts offset handle), offset + len (concat handle)).
Proof.
  unfold len.
  induction handle as [|line handle IH]; intros offset.
  - cbn. f_equal. lia.
  - cbn [fold_out line_starts concat]. rewrite IH, map_app, length_app.
    f_equal. unfold len. lia.
Qed.

Lemma letter_completes (letter : Z) (offset : Z) :
  completes
    (seq_ (exec (fun offset => offset + 1))
          (when_ (is_space letter) (yield_of PyInt)))
    (enter (seq_ (exec (fun offset => offset + 1))
                 (when_ (is_space letter) (yield_of PyInt))) offset)
    (if is_space letter then [PyInt (offset + 1)] else []) (offset + 1).
Proof.
  apply (completes_seq_enter _ _ offset [] (offset + 1)
            (if is_space letter then [PyInt (offset + 1)] else [])).
  - apply (completes_exec (fun offset => offset + 1)).
  - apply (completes_when _ _ _ [PyInt (offset + 1)]),
      (completes_yield_of PyInt).
Qed.

Lemma line_completes (line : list Z) (offset : Z) :
  let body :=
    seq_ (when_ (nonempty line) (yield_of PyInt))
         (for_each line
            (fun letter =>
               seq_ (exec (fun offset => offset + 1))
                    (when_ (is_space letter) (yield_of PyInt)))) in
  completes body (enter body offset)
            (map PyInt (word_starts offset line)) (offset + len line).
Proof.
  intros body. unfold body, word_starts. rewrite map_app.
  apply (completes_seq_enter _ _ offset _ offset).
  - replace (map PyInt (if nonempty line then [offset] else []))
      with (if nonempty line then [PyInt offset] else [])
      by (destruct (nonempty line); reflexivity).
    apply completes_when, (completes_yield_of PyInt).
  - pose proof (completes_for_each
        (fun letter =>
           seq_ (exec (fun offset => offset + 1))
                (when_ (is_space letter) (yield_of PyInt)))
        (fun letter offset =>
           (if is_space letter then [PyInt (offset + 1)] else [], offset + 1))
        letter_completes line offset) as H.
    rewrite fold_out_letters in H. exact H.
Qed.

Lemma index_file_completes (handle : list (list Z)) (st : Z) :
  completes (index_file handle) (enter (index_file handle) st)
            (map PyInt (line_starts 0 handle)) (len (concat handle)).
Proof.
  unfold index_file.
  apply (completes_seq_enter _ _ st [] 0 (map PyInt (line_starts 0 handle))).
  - apply (completes_exec (fun _ => 0)).
  - pose proof (completes_for_each
        (fun line =>
           seq_ (when_ (nonempty line) (yield_of PyInt))
                (for_each line
                   (fun letter =>
                      seq_ (exec (fun offset => offset + 1))
                           (when_ (is_space letter) (yield_of PyInt)))))
        (fun line offset =>
           (map PyInt (word_starts offset line), offset + len line))
        line_completes handle 0) as H.
    rewrite fold_out_lines in H. exact H.
Qed.

(** X8.  Whatever [offset] held before, iterating [index_file(handle)]
    is complete after one [next] for each item and one more, and leaves
    in [offset] the number of characters read; the indices are, line by
    line, those that [index_words_iter] yields for the line, counted from
    the characters before the line.  For a handle that yields one line
    they are the indices of [index_words_iter] for that line. *)
Theorem index_file_indices (handle : list (list Z)) (st : Z) :
  drain (S (length (line_starts 0 handle))) (index_file handle) Created st
  = Some (Return (map PyInt (line_starts 0 handle)), Finished,
          len (concat handle)) /\
  (forall offset line lines,
     line_starts offset (line :: lines)
     = map (Z.add offset) (word_starts 0 line)
       ++ line_starts (offset + len line) lines) /\
  (forall text,
     drain (S (length (word_starts 0 text))) (index_file [text]) Created st
     = Some (Return (map PyInt (word_starts 0 text)), Finished, len text) /\
     list_of (S (length (word_starts 0 text))) (index_words_iter text)
     = Some (Return (map PyInt (word_starts 0 text)))).
Proof.
  split; [|split].
  - pose proof (completes_drain _ _ _ _ (index_file_completes handle st)) as H.
    rewrite length_map in H. exact H.
  - intros offset line lines. cbn [line_starts]. f_equal.
    unfold word_starts. rewrite map_app. f_equal.
    + destruct (nonempty line); cbn; [f_equal; lia | reflexivity].
    + clear. replace offset with (offset + 0) at 1 by lia.
      generalize 0. induction line as [|letter line IH]; intros o;
        [reflexivity|].
      cbn [after_spaces]. rewrite map_app. f_equal.
      * destruct (is_space letter); cbn; [f_equal; lia | reflexivity].
      * rewrite <- IH. f_equal. lia.
  - intros text. split.
    + pose proof (completes_drain _ _ _ _ (index_file_completes [text] st)) as H.
      cbn [line_starts concat] in H. rewrite !app_nil_r in H.
      rewrite length_map in H. exact H.
    + unfold list_of.
      pose proof (completes_drain _ _ _ _ (index_words_iter_completes text))
        as H.
      rewrite length_map in H. rewrite H. reflexivity.
Qed.

(** [result = list(index_words_iter(address))] *)
Example index_words_iter_address :
  list_of 7 (index_words_iter address)
  = Some (Return (map PyInt [0; 5; 11; 15; 21; 27])).
Proof. vm_compute. reflexivity. Qed.

(** A handle that yields several lines: the start of each line is an
    index as well, which it is not for [index_words_iter] on the lines put
    together. *)
Example index_file_two_lines :
  drain 3 (index_file [lit "ab"; lit "cd"]) Created 0
  = Some (Return [PyInt 0; PyInt 2], Finished, 4) /\
  list_of 2 (index_words_iter (lit "abcd")) = Some (Return [PyInt 0]).
Proof. split; vm_compute; reflexivity. Qed.

End Item30_facts.

(** ** Chap4, Item 35: the two [run] and [my_generator] *)
Section Item35_run_facts.
Import Generator Item30 Item35 Item35_run.

(** One turn of each iterator. *)
Lemma Timer_iter_next (g : gstate unit) (current period : Z) :
  g <> Finished ->
  gen_resume Timer_iter g Next (mk_Timer current period)
  = if current =? 0
    then (Raise StopIteration, Finished, mk_Timer current period)
    else (Return (PyInt (current - 1)), Suspended tt,
          mk_Timer (current - 1) period).
Proof.
  intros Hg. destruct g as [|[]|]; [| |congruence];
    cbn; unfold Timer_loop; cbn; destruct (current =? 0); reflexivity.
Qed.

Lemma timer_next (period current : Z) :
  gen_resume (timer period) (Suspended current) Next tt
  = if current =? 0 then (Raise StopIteration, Finished, tt)
    else (Return (PyInt (current - 1)), Suspended (current - 1), tt).
Proof. cbn. unfold timer_loop. destruct (current =? 0); reflexivity. Qed.

Lemma timer_start (period : Z) :
  gen_resume (timer period) Created Next tt
  = if period =? 0 then (Raise StopIteration, Finished, tt)
    else (Return (PyInt (period - 1)), Suspended (period - 1), tt).
Proof. cbn. unfold timer_loop. destruct (period =? 0); reflexivity. Qed.

Lemma timer_throw_Reset (period current : Z) :
  gen_resume (timer period) (Suspended current) (Throw Reset) tt
  = if period =? 0 then (Raise StopIteration, Finished, tt)
    else (Return (PyInt (period - 1)), Suspended (period - 1), tt).
Proof. cbn. unfold timer_loop. destruct (period =? 0); reflexivity. Qed.

(** A turn of the generator loop at a suspended [timer], and a turn of
    the [Timer] loop after the poll that the generator loop is about to
    make, do the same. *)
Lemma run_loops_suspended (polls : nat -> bool) (first : bool) (period : Z)
    (fuel : nat) :
  forall (current : Z) (k : nat) (announced : list pyval),
  run_Timer_loop polls fuel (Suspended tt)
    (if polls k then reset (mk_Timer current period)
     else mk_Timer current period)
    (S k) announced
  = run_loop (after_poll first polls) fuel period (Suspended current)
             (S k) announced.
Proof.
  induction fuel as [|fuel IH]; intros current k announced; [reflexivity|].
  cbn [run_loop run_Timer_loop after_poll].
  destruct (polls k).
  - unfold reset. cbn [Item35.period Item35.current].
    rewrite Timer_iter_next by discriminate. rewrite timer_throw_Reset.
    destruct (period =? 0); [reflexivity|]. apply IH.
  - rewrite Timer_iter_next by discriminate. rewrite timer_next.
    destruct (current =? 0); [reflexivity|]. apply IH.
Qed.

(** The generator loop raises only when it throws into a generator that
    has not started. *)
Lemma run_loop_suspended_no_raise (polls : nat -> bool) (period : Z)
    (e : exn) (out' : list pyval) (fuel : nat) :
  forall current k out,
  run_loop polls fuel period (Suspended current) k out
  <> Some (Raise e, out').
Proof.
  induction fuel as [|fuel IH]; intros current k out; [discriminate|].
  cbn [run_loop]. destruct (polls k).
  - rewrite timer_throw_Reset. destruct (period =? 0); [discriminate|].
    apply IH.
  - rewrite timer_next. destruct (current =? 0); [discriminate|]. apply IH.
Qed.

(** X9.  The second [run], over a [Timer], announces what the first
    [run], over the generator [timer], announces when the polls of the
    first are those of the second after one poll that asks for no reset:
    the generator is asked before each value, the [Timer] after it.  The
    two loops end together, for every period.  When its first poll asks
    for a reset the first [run] is left by the [Reset] thrown into a
    generator that has not started; the second [run] raises nothing. *)
Theorem run_Timer_run (polls : nat -> bool) (period : Z) (fuel : nat) :
  run_Timer_loop polls fuel Created (Timer_init period) 0 []
  = run_loop (after_poll false polls) fuel period Created 0 [] /\
  run_loop (after_poll true polls) (S fuel) period Created 0 []
  = Some (Raise Reset, []) /\
  (forall e announced,
     run_Timer_loop polls fuel Created (Timer_init period) 0 []
     <> Some (Raise e, announced)).
Proof.
  assert (Hsame : run_Timer_loop polls fuel Created (Timer_init period) 0 []
                  = run_loop (after_poll false polls) fuel period Created 0 []).
  { destruct fuel as [|fuel']; [reflexivity|].
    cbn [run_loop run_Timer_loop after_poll]. unfold Timer_init.
    rewrite Timer_iter_next by discriminate. rewrite timer_start.
    destruct (period =? 0); [reflexivity|].
    apply (run_loops_suspended polls false period fuel' (period - 1) 0%nat). }
  split; [exact Hsame|]. split; [reflexivity|].
  intros e announced. rewrite Hsame.
  destruct fuel as [|fuel']; [discriminate|].
  cbn [run_loop after_poll]. rewrite timer_start.
  destruct (period =? 0); [discriminate|].
  apply run_loop_suspended_no_raise.
Qed.

(** The script, where [check_for_reset] asks for no reset: both [run]
    announce 3, 2, 1, 0 and end. *)
Example run_announces :
  run check_for_reset 5 = Some (Return tt, countdown 4) /\
  run_Timer check_for_reset 5 = Some (Return tt, countdown 4).
Proof. split; vm_compute; reflexivity. Qed.

(** *** Throwing into [my_generator] *)

(** X10.  An exception thrown into the first [my_generator], wherever it
    is suspended, is raised by [throw] and ends the generator.  The
    second [my_generator], suspended at [yield 2], catches a [MyError]:
    [throw] prints the line, skips [yield 3] and returns 4; resumed by
    [next] there it yields 3 and then 4; any other exception thrown in
    there, and any exception thrown in at another [yield], is raised by
    [throw], with nothing printed. *)
Theorem my_generator_throw (out : list (list Z)) :
  (forall p e,
     gen_resume my_generator (Suspended p) (Throw e) out
     = (Raise (escaping e), Finished, out)) /\
  (forall msg,
     gen_resume my_generator_try (Suspended (inr (inl (inl (inl tt)))))
                (Throw (MyError msg)) out
     = (Return (PyInt 4), Suspended (inr (inr tt)),
        out ++ [lit "Got MyError!"])) /\
  gen_resume my_generator_try (Suspended (inr (inl (inl (inl tt))))) Next out
  = (Return (PyInt 3), Suspended (inr (inl (inr tt))), out) /\
  gen_resume my_generator_try (Suspended (inr (inl (inr tt)))) Next out
  = (Return (PyInt 4), Suspended (inr (inr tt)), out) /\
  (forall p e,
     is_MyError e = false \/ p <> inr (inl (inl (inl tt))) ->
     gen_resume my_generator_try (Suspended p) (Throw e) out
     = (Raise (escaping e), Finished, out)).
Proof.
  split; [|split; [|split; [|split]]].
  - intros [[]|[[]|[]]] e; reflexivity.
  - intros msg. reflexivity.
  - reflexivity.
  - reflexivity.
  - intros p e [He|Hp].
    + destruct p as [[]|[[[[]|[]]|[]]|[]]]; cbn; try reflexivity.
      rewrite He. reflexivity.
    + destruct p as [[]|[[[[]|[]]|[]]|[]]]; cbn; try reflexivity.
      contradiction Hp. reflexivity.
Qed.

(** The script: [next(it)], [next(it)], [it.throw(MyError('test
    error'))] on the second [my_generator]. *)
Example my_generator_try_script :
  let it0 := Created in
  let '(r1, it1, out1) := gen_resume my_generator_try it0 Next [] in
  let '(r2, it2, out2) := gen_resume my_generator_try it1 Next out1 in
  let '(r3, it3, out3) :=
    gen_resume my_generator_try it2 (Throw (MyError "test error")) out2 in
  (r1, r2, r3, out3)
  = (Return (PyInt 1), Return (PyInt 2), Return (PyInt 4),
     [lit "Got MyError!"]).
Proof. vm_compute. reflexivity. Qed.

End Item35_run_facts.

(** ** Chap4, Item 31: an iterator gives its items once *)
Section Item31_more_facts.
Import Item31.
Context (int_ : list Z -> result Z).

Ltac eff_unfold := unfold mbind, eff_bind, mret, eff_ret, pure, raise.

(** [list(it)] on an iterator known to the heap: the items it still has,
    and nothing left in it afterwards. *)
Lemma list_iterator (id : nat) (h : heap) (st : iter_state) :
  iters h !! id = Some st ->
  exists its,
    list_ int_ (IteratorObj id) h
    = (state_items int_ st (files h), mk_heap (next_id h) its (files h)) /\
    (forall items, state_items int_ st (files h) = Return items ->
                   its !! id = Some (Remaining [])).
Proof.
  intros Hid. unfold list_, iter_. eff_unfold.
  destruct (for_iter_spec int_ id
              (fun value items => Return (items ++ [value])) []
              h st Hid) as (its & E & Hex).
  exists its. rewrite E. rewrite state_fold_list in *.
  split; [reflexivity|]. intros items Hitems. exact (Hex _ Hitems).
Qed.

(** X11.  The iterator [read_visits] returns gives the numbers of the
    file to the first [list(it)] and nothing to the second: an iterator
    that is used up raises no error, it is empty.  The numbers are what
    [int] makes of the lines of the file; a line that spells no number
    ends the first [list(it)] with the exception [int] raises. *)
Theorem read_visits_exhausted (data_path : string) (h : heap) :
  ((it ← read_visits data_path;
    first ← list_ int_ it;
    second ← list_ int_ it;
    mret (first, second)) h).1
  = match files h !! data_path with
    | Some lines => items ← ints_of int_ lines; Return (items, [])
    | None => Raise (FileNotFoundError data_path)
    end.
Proof.
  unfold read_visits, alloc. eff_unfold.
  destruct (list_iterator (next_id h)
              (mk_heap (S (next_id h))
                       (<[next_id h := NotStarted data_path]> (iters h))
                       (files h))
              (NotStarted data_path)) as (its & E & Hex).
  { apply lookup_insert_eq. }
  rewrite E. cbn [state_items files] in *.
  destruct (files h !! data_path) as [lines|]; [|reflexivity].
  destruct (ints_of int_ lines) as [items|e]; [|reflexivity].
  specialize (Hex _ eq_refl).
  destruct (list_iterator (next_id h)
              (mk_heap (S (next_id h)) its (files h)) (Remaining []) Hex)
    as (its' & E' & _).
  cbn [next_id]. rewrite E'. reflexivity.
Qed.

(** A loop over a new [read_visits] generator. *)
Lemma read_visits_loop {T} (data_path : string) (body : Z -> T -> result T)
    (s : T) (h : heap) :
  exists its,
    (numbers ← read_visits data_path;
     it ← iter_ numbers;
     for_iter int_ it body s) h
    = (state_fold int_ (NotStarted data_path) (files h) body s,
       mk_heap (S (next_id h)) its (files h)).
Proof.
  destruct (alloc_for_iter int_ (NotStarted data_path) body s h) as (its & E).
  exists its. etransitivity; [|exact E]. reflexivity.
Qed.

(** X12.  [normalize_func(lambda: read_visits(path))], where each call of
    [get_iter] makes a new iterator, computes the percentages of the
    numbers in the file, as [normalize] does on the container
    [ReadVisits(path)]; with a [get_iter] that returns one and the same
    iterator at each call it returns the empty list. *)
Theorem normalize_func_new_iterators (data_path : string) (id : nat)
    (h : heap) :
  (normalize_func int_ (read_visits data_path) h).1
  = (items ← contents int_ (ReadVisitsObj data_path) h; percentages items) /\
  (normalize_func int_ (read_visits data_path) h).1
  = (normalize int_ (ReadVisitsObj data_path) h).1 /\
  (normalize_func int_ (mret (IteratorObj id)) h).1
  = (_ ← contents int_ (IteratorObj id) h; Return []).
Proof.
  assert (H1 : (normalize_func int_ (read_visits data_path) h).1
               = (items ← contents int_ (ReadVisitsObj data_path) h;
                  percentages items)).
  { unfold normalize_func, sum_.
    change ((numbers ← read_visits data_path;
             total ← (it ← iter_ numbers;
                      for_iter int_ it
                               (fun value total => Return (total + value)) 0);
             numbers' ← read_visits data_path;
             it ← iter_ numbers';
             for_iter int_ it (append_percent total) []) h)
      with (match (numbers ← read_visits data_path;
                   it ← iter_ numbers;
                   for_iter int_ it
                            (fun value total => Return (total + value)) 0) h
            with
            | (Return total, h') =>
                (numbers' ← read_visits data_path;
                 it ← iter_ numbers';
                 for_iter int_ it (append_percent total) []) h'
            | (Raise e, h') => (Raise e, h')
            end).
    destruct (read_visits_loop data_path
                (fun value total => Return (total + value)) 0 h) as (its & E).
    rewrite E, state_fold_sum. cbn [contents].
    destruct (state_items int_ (NotStarted data_path) (files h))
      as [items|e] eqn:Ef; [|reflexivity].
    cbn [mbind result_bind].
    destruct (read_visits_loop data_path
                (append_percent (foldl Z.add 0 items)) []
                (mk_heap (S (next_id h)) its (files h))) as (its' & E').
    rewrite E'. cbn [files].
    rewrite (state_fold_parsed int_ _ _ _ items); [reflexivity|exact Ef]. }
  split; [exact H1|]. split.
  - rewrite H1. symmetry. apply normalize_container. reflexivity.
  - apply (normalize_iterator int_ id h).
Qed.

End Item31_more_facts.

(** ** Chap3, Items 20 and 25: ways to report a division that fails *)
Section Item25_facts.
Import Item20 Item25.

(** A quotient is a [float], never [None]. *)
Lemma truediv_float (a b q : pyval) :
  truediv a b = Return q -> exists f, q = PyFloat f.
Proof.
  unfold truediv, float_of_int, float_div.
  destruct (operand_of a) as [x|f|], (operand_of b) as [y|g|];
    try discriminate.
  - destruct (y =? 0); [discriminate|].
    destruct (is_infinite _); [discriminate|]. intros [= <-]. eauto.
  - destruct (is_infinite _); [discriminate|]. cbn.
    destruct (float_is_zero g); [discriminate|]. intros [= <-]. eauto.
  - destruct (is_infinite _); [discriminate|]. cbn.
    destruct (float_is_zero _); [discriminate|]. intros [= <-]. eauto.
  - destruct (float_is_zero g); [discriminate|]. intros [= <-]. eauto.
Qed.

(** X13.  The first two [careful_divide] report the same thing in two
    ways.  When [a / b] gives a quotient, the first returns it and the
    second returns it with [True]; the quotient is never [None], so
    [result is None] holds of the first exactly when [not success] holds
    of the second, which is exactly when [a / b] raised
    [ZeroDivisionError].  Any other exception leaves both. *)
Theorem careful_divide_none_pair (a b : pyval) :
  match truediv a b with
  | Return q =>
      careful_divide_none a b = Return q /\
      careful_divide_pair a b = Return (PyTuple [PyBool true; q]) /\
      q <> PyNone
  | Raise ZeroDivisionError =>
      careful_divide_none a b = Return PyNone /\
      careful_divide_pair a b = Return (PyTuple [PyBool false; PyNone])
  | Raise e =>
      careful_divide_none a b = Raise e /\ careful_divide_pair a b = Raise e
  end.
Proof.
  unfold careful_divide_none, careful_divide_pair, try_except.
  destruct (truediv a b) as [q|e] eqn:E.
  - split; [reflexivity|]. split; [reflexivity|].
    destruct (truediv_float a b q E) as [f ->]. discriminate.
  - destruct e; split; reflexivity.
Qed.

(** X14.  [safe_division] on two numbers.  With both flags it raises
    nothing.  With [ignore_zero_division] a zero divisor gives
    [float('inf')], whatever the sign of the number divided, zero
    included, unless the number is an [int] too large for a [float] and
    the divisor a [float]: then the [OverflowError] of the conversion
    comes first, and the result is 0 with [ignore_overflow] and the
    [OverflowError] without.  With [ignore_zero_division] it never raises
    [ZeroDivisionError], with [ignore_overflow] never [OverflowError];
    with no flag it is [number / divisor]. *)
Theorem safe_division_flags (number divisor : pyval) :
  is_number number -> is_number divisor ->
  (exists v, safe_division number divisor true true = Return v) /\
  (forall ignore_overflow,
     eq_zero divisor = true ->
     ~ (int_too_large number /\
        exists g, operand_of divisor = FloatOperand g) ->
     safe_division number divisor ignore_overflow true = Return inf) /\
  (forall ignore_overflow ignore_zero_division,
     eq_zero divisor = true -> int_too_large number ->
     (exists g, operand_of divisor = FloatOperand g) ->
     safe_division number divisor ignore_overflow ignore_zero_division
     = if ignore_overflow then Return (PyInt 0) else Raise OverflowError) /\
  (forall ignore_overflow,
     safe_division number divisor ignore_overflow true
     <> Raise ZeroDivisionError) /\
  (forall ignore_zero_division,
     safe_division number divisor true ignore_zero_division
     <> Raise OverflowError) /\
  safe_division number divisor false false = truediv number divisor.
Proof.
  intros Hn Hd.
  assert (Hhuge : eq_zero divisor = true -> int_too_large number ->
                  (exists g, operand_of divisor = FloatOperand g) ->
                  truediv number divisor = Raise OverflowError).
  { intros Hzero (n & Hop & Hov) (g & Hg).
    unfold truediv. rewrite Hop, Hg, Hov. reflexivity. }
  unfold safe_division.
  destruct (truediv_outcome number divisor Hn Hd) as [[f Hf]|[Hz|Ho]].
  - rewrite Hf. split; [eauto|]. split; [|split].
    + intros io Hzero Hfit.
      destruct (truediv_by_zero number divisor Hn Hzero) as [H|(H & _)];
        congruence.
    + intros io iz Hzero Hl Hg. rewrite (Hhuge Hzero Hl Hg) in Hf.
      discriminate.
    + repeat split; discriminate.
  - rewrite Hz. split; [eauto|]. split; [reflexivity|]. split.
    + intros io iz Hzero Hl Hg. rewrite (Hhuge Hzero Hl Hg) in Hz.
      discriminate.
    + split; [discriminate|]. split; [|reflexivity].
      intros []; discriminate.
  - rewrite Ho. split; [eauto|]. split; [|split].
    + intros io Hzero Hfit.
      destruct (truediv_by_zero number divisor Hn Hzero) as [H|(_ & Hl & Hg)];
        [congruence|].
      exfalso. apply Hfit. split; assumption.
    + intros io iz _ _ _. reflexivity.
    + split; [intros []; discriminate|]. split; [discriminate | reflexivity].
Qed.

Lemma safe_division_flags_witness :
  (exists v, safe_division (PyInt (2 ^ 1024)) (PyInt 0) true true
             = Return v) /\
  safe_division (PyInt (2 ^ 1024)) (PyInt 0) false true = Return inf /\
  safe_division (PyInt (2 ^ 1024)) (PyFloat (S754_zero false)) true true
  = Return (PyInt 0).
Proof.
  assert (Hn : is_number (PyInt (2 ^ 1024)))
    by (unfold is_number; cbn; congruence).
  assert (Hd : is_number (PyInt 0)) by (unfold is_number; cbn; congruence).
  assert (Hf : is_number (PyFloat (S754_zero false)))
    by (unfold is_number; cbn; congruence).
  assert (Hl : int_too_large (PyInt (2 ^ 1024))).
  { exists (2 ^ 1024). split; [reflexivity|]. vm_compute. reflexivity. }
  destruct (safe_division_flags _ _ Hn Hd) as (H1 & H2 & _).
  destruct (safe_division_flags _ _ Hn Hf) as (_ & _ & H3 & _).
  split; [exact H1|]. split.
  - apply H2; [reflexivity|]. intros (_ & g & Hg). discriminate.
  - apply (H3 true true); [reflexivity|exact Hl|].
    exists (S754_zero false). reflexivity.
Defined.

(** [assert safe_division(2, 5) == 0.4] *)
Example safe_division_2_5 :
  safe_division (PyInt 2) (PyInt 5) false false
  = Return (PyFloat (float_lit 4 (-1))).
Proof. vm_compute. reflexivity. Qed.

End Item25_facts.

(** ** Chap3, Item 26: the traced [fibonacci] *)
Section Item26_facts.
Import Item26.

Ltac eff_unfold := unfold mbind, eff_bind, mret, eff_ret, pure, raise.

Lemma fib_SS (n : nat) : fib (S (S n)) = fib n + fib (S n).
Proof. reflexivity. Qed.

Lemma fib_pos (n : nat) : 0 <= fib n.
Proof.
  induction n as [n IH] using lt_wf_ind.
  destruct n as [|[|n]]; [cbn; lia | cbn; lia|].
  rewrite fib_SS.
  pose proof (IH n ltac:(lia)). pose proof (IH (S n) ltac:(lia)). lia.
Qed.

Lemma in_0_1_small (n : nat) :
  in_0_1 (Z.of_nat n) = match n with O | S O => true | _ => false end.
Proof.
  unfold in_0_1. destruct n as [|[|n]]; [reflexivity | reflexivity|].
  destruct (Z.eqb_spec (Z.of_nat (S (S n))) 0); [lia|].
  destruct (Z.eqb_spec (Z.of_nat (S (S n))) 1); [lia|]. reflexivity.
Qed.

Lemma traced_weaken (m n : nat) (printed : list line) :
  (m <= n)%nat -> traced m printed ->
  Forall (fun l : line => 0 <= l.1 <= Z.of_nat n /\ l.2 = fib (Z.to_nat l.1))
         printed.
Proof.
  intros Hmn (H & _ & _). eapply Forall_impl; [exact H|].
  intros l [Hl ->]. split; [lia | reflexivity].
Qed.

(** A call with an argument that is not negative returns when the
    interpreter lets enough calls nest. *)
Lemma fibonacci_returns (k : nat) :
  forall n : nat, (n <= k)%nat ->
  forall (depth : nat) (out : list line), (n < depth)%nat ->
  exists printed,
    fibonacci depth (Z.of_nat n) out = (Return (fib n), out ++ printed) /\
    traced n printed.
Proof.
  induction k as [|k IH]; intros n Hn depth out Hd.
  - assert (n = 0%nat) as -> by lia.
    destruct depth as [|depth]; [lia|].
    exists [(0, 0)]. split; [reflexivity|].
    split; [|split; reflexivity].
    constructor; [cbn; split; [lia | reflexivity] | constructor].
  - destruct n as [|[|m]].
    + destruct depth as [|depth]; [lia|].
      exists [(0, 0)]. split; [reflexivity|].
      split; [|split; reflexivity].
      constructor; [cbn; split; [lia | reflexivity] | constructor].
    + destruct depth as [|depth]; [lia|].
      exists [(1, 1)]. split; [reflexivity|].
      split; [|split; reflexivity].
      constructor; [cbn; split; [lia | reflexivity] | constructor].
    + destruct depth as [|depth]; [lia|].
      cbn [fibonacci]. rewrite in_0_1_small.
      replace (Z.of_nat (S (S m)) - 2) with (Z.of_nat m) by lia.
      replace (Z.of_nat (S (S m)) - 1) with (Z.of_nat (S m)) by lia.
      destruct (IH m ltac:(lia) depth out ltac:(lia)) as (p1 & E1 & T1).
      destruct (IH (S m) ltac:(lia) depth (out ++ p1) ltac:(lia))
        as (p2 & E2 & T2).
      eff_unfold. rewrite E1, E2. unfold print.
      exists (p1 ++ p2 ++ [(Z.of_nat (S (S m)), fib (S (S m)))]).
      split.
      { rewrite fib_SS, <- !app_assoc. reflexivity. }
      split; [|split].
      * apply Forall_app. split; [apply (traced_weaken m); [lia | exact T1]|].
        apply Forall_app. split; [apply (traced_weaken (S m)); [lia | exact T2]|].
        constructor; [|constructor]. cbn [fst snd].
        rewrite Nat2Z.id. split; [lia | reflexivity].
      * rewrite !app_assoc. apply last_snoc.
      * destruct T1 as (_ & _ & L1), T2 as (_ & _ & L2).
        rewrite !length_app. cbn [length].
        rewrite (fib_SS (S m)). lia.
Qed.

(** A call with a negative argument never reaches [0] or [1]: it ends
    when the interpreter lets no further call nest, with nothing
    printed. *)
Lemma fibonacci_negative (depth : nat) :
  forall (n : Z) (out : list line),
  n < 0 -> fibonacci depth n out = (Raise RecursionError, out).
Proof.
  induction depth as [|depth IH]; intros n out Hn; [reflexivity|].
  cbn [fibonacci]. unfold in_0_1.
  destruct (Z.eqb_spec n 0); [lia|]. destruct (Z.eqb_spec n 1); [lia|].
  cbn [orb]. eff_unfold. rewrite IH by lia. reflexivity.
Qed.

(** X15.  The traced [fibonacci(n)], for [n] not negative and when more
    than [n] calls may nest, returns the [n]-th Fibonacci number; it has
    then printed one line for each call, [2 * fib(n+1) - 1] lines, every
    line with the Fibonacci number of its argument and the line of the
    call itself last.  For a negative [n] it returns nothing, however
    many calls may nest: the recursion never meets [0] or [1], and the
    interpreter ends it with a [RecursionError], nothing printed. *)
Theorem fibonacci_traced (n : Z) (depth : nat) (out : list line) :
  (0 <= n -> (Z.to_nat n < depth)%nat ->
   exists printed,
     fibonacci depth n out = (Return (fib (Z.to_nat n)), out ++ printed) /\
     traced (Z.to_nat n) printed) /\
  (n < 0 -> fibonacci depth n out = (Raise RecursionError, out)).
Proof.
  split.
  - intros Hn Hd.
    destruct (fibonacci_returns (Z.to_nat n) (Z.to_nat n) (le_n _) depth out Hd)
      as (printed & E & T).
    rewrite Z2Nat.id in E by exact Hn. eauto.
  - apply fibonacci_negative.
Qed.

Lemma fibonacci_traced_witness :
  exists printed,
    fibonacci 5 4 [] = (Return (fib (Z.to_nat 4)), [] ++ printed) /\
    traced (Z.to_nat 4) printed.
Proof.
  apply (proj1 (fibonacci_traced 4 5 [])); [lia | cbn; lia].
Defined.

(** [fibonacci(4)] as the script calls it: the nine lines it prints. *)
Example fibonacci_4 :
  fibonacci 5 4 []
  = (Return 3,
     [(0, 0); (1, 1); (2, 1); (1, 1); (0, 0); (1, 1); (2, 1); (3, 2); (4, 3)]).
Proof. vm_compute. reflexivity. Qed.

End Item26_facts.

(** ** Chap4, Item 36: running sums modulo 20 *)
Section Item36_facts.
Import Item36.

Lemma accumulate_from_modulo (values : list Z) :
  forall t s,
  t mod 20 = s mod 20 ->
  Forall2 (fun m s => m mod 20 = s mod 20)
          (accumulate_from sum_modulo_20 t values)
          (accumulate_from Z.add s values) /\
  Forall (fun m => 0 <= m < 20) (accumulate_from sum_modulo_20 t values).
Proof.
  induction values as [|v values IH]; intros t s Hts; cbn [accumulate_from].
  - split; constructor.
  - assert (Hstep : sum_modulo_20 t v mod 20 = (s + v) mod 20).
    { unfold sum_modulo_20. rewrite Z.mod_mod by lia.
      rewrite (Z.add_mod t), (Z.add_mod s), Hts by lia. reflexivity. }
    destruct (IH _ _ Hstep) as [H2 Hr].
    split; constructor; try assumption.
    unfold sum_modulo_20. apply Z.mod_pos_bound. lia.
Qed.

Lemma accumulate_from_sums (values : list Z) :
  forall (s : Z) (k : nat),
  (k < length values)%nat ->
  accumulate_from Z.add s values !! k
  = Some (foldl Z.add s (take (S k) values)).
Proof.
  induction values as [|v values IH]; intros s k Hk; [cbn in Hk; lia|].
  destruct k as [|k]; [destruct values; reflexivity|].
  cbn [accumulate_from lookup list_lookup take foldl].
  apply IH. cbn in Hk. lia.
Qed.

(** X16.  [accumulate(values, sum_modulo_20)] has an item for each
    value; the item at position [k] is congruent modulo 20 to the item of
    [accumulate(values)] there, which is the sum of the first [k+1]
    values; every item after the first lies in 0..19, and the first is
    the first value as it is, reduced or not. *)
Theorem accumulate_modulo_20 (values : list Z) :
  Forall2 (fun m s => m mod 20 = s mod 20)
          (modulo_reduce values) (sum_reduce values) /\
  (forall k, (k < length values)%nat ->
             sum_reduce values !! k
             = Some (foldl Z.add 0 (take (S k) values))) /\
  Forall (fun m => 0 <= m < 20) (tail (modulo_reduce values)) /\
  head (modulo_reduce values) = head values.
Proof.
  unfold modulo_reduce, sum_reduce, accumulate.
  destruct values as [|v values].
  - split; [constructor|]. split; [intros k Hk; cbn in Hk; lia|].
    split; [constructor | reflexivity].
  - destruct (accumulate_from_modulo values v v eq_refl) as [H2 Hr].
    split; [constructor; [reflexivity | exact H2]|].
    split; [|split; [exact Hr | reflexivity]].
    intros [|k] Hk; [reflexivity|].
    cbn [lookup list_lookup take foldl]. rewrite Z.add_0_l.
    apply accumulate_from_sums. cbn in Hk. lia.
Qed.

(** The script: [values = [1, ..., 10]]. *)
Example modulo_reduce_values :
  modulo_reduce [1; 2; 3; 4; 5; 6; 7; 8; 9; 10]
  = [1; 3; 6; 10; 15; 1; 8; 16; 5; 15].
Proof. vm_compute. reflexivity. Qed.

End Item36_facts.

(** ** Chap1, Item 5: [get_first_int] and the expressions it replaces *)
Section Item5_facts.
Import Sequences Item5.
Variable int_str : list Z -> result Z.

Lemma getitem_0 {A} (a : list A) :
  getitem a 0 = match a with [] => Raise IndexError | x :: _ => Return x end.
Proof. destruct a; reflexivity. Qed.

(** X17.  With the default 0, [get_first_int(values, key)] is the dense
    expression [int(values.get(key, [''])[0] or 0)] and the version with
    [if] and [else], whatever [values] holds and whatever [int] makes of
    a [str].  It returns the default, without calling [int], when the key
    is missing and when its first value is blank; otherwise it is [int]
    of the first value; and it raises [IndexError] when the key is there
    with no value at all. *)
Theorem get_first_int_forms (values : query) (key : list Z) :
  int_or_0 int_str values key = get_first_int int_str values key 0 /\
  int_if_else int_str values key = get_first_int int_str values key 0 /\
  forall default,
    get_first_int int_str values key default
    = match values !! key with
      | None => Return default
      | Some [] => Raise IndexError
      | Some ([] :: _) => Return default
      | Some (first :: _) => int_str first
      end.
Proof.
  unfold int_or_0, int_if_else, get_first_int, get_or_blank.
  rewrite !getitem_0.
  destruct (values !! key) as [[|[|c first] rest]|]; cbn;
    repeat split; reflexivity.
Qed.

End Item5_facts.

(** ** Chap3, Item 24: the default dictionary of [decode] *)
Section Item24_facts.
Import Item24.
Context {J : Type} (json_loads : list Z -> option J).

(** X18.  When both calls are given data that [json.loads] rejects, the
    first [decode] returns one and the same dictionary twice, the one
    made when the function was defined: [foo is bar], and both show
    ['stuff'] and ['meep'].  The second [decode] makes a dictionary at
    each call: [foo is not bar], [foo] holds ['stuff'] alone and [bar]
    holds ['meep'] alone. *)
Theorem decode_default (data1 data2 : list Z) (h : heap) :
  json_loads data1 = None -> json_loads data2 = None ->
  (exists l h',
     script_shared J json_loads data1 data2 h
     = (Return (DictRef l, DictRef l), h') /\
     dicts h' !! l = Some {[ "stuff" := 5; "meep" := 1 ]}) /\
  (exists l1 l2 h',
     script_fresh J json_loads data1 data2 h
     = (Return (DictRef l1, DictRef l2), h') /\
     l1 <> l2 /\
     dicts h' !! l1 = Some {[ "stuff" := 5 ]} /\
     dicts h' !! l2 = Some {[ "meep" := 1 ]}).
Proof.
  intros H1 H2. split.
  - exists (next_loc h). eexists.
    unfold script_shared, decode_shared, new_dict, setitem.
    unfold mbind, eff_bind, mret, eff_ret. rewrite H1, H2.
    cbn [dicts next_loc]. rewrite lookup_insert_eq.
    cbn [dicts next_loc]. rewrite lookup_insert_eq.
    split; [reflexivity|]. cbn [dicts]. rewrite lookup_insert_eq.
    reflexivity.
  - exists (next_loc h), (S (next_loc h)). eexists.
    unfold script_fresh, decode_fresh, new_dict, setitem.
    unfold mbind, eff_bind, mret, eff_ret. rewrite H1, H2.
    cbn [dicts next_loc]. rewrite lookup_insert_eq.
    cbn [dicts next_loc]. rewrite lookup_insert_eq.
    split; [reflexivity|]. split; [lia|]. cbn [dicts]. split.
    + rewrite lookup_insert_ne by lia. rewrite lookup_insert_ne by lia.
      rewrite lookup_insert_eq. reflexivity.
    + rewrite lookup_insert_eq. reflexivity.
Qed.

End Item24_facts.

Section Item24_script.
Import Item24.

Lemma decode_default_witness :
  (exists l h',
     script_shared unit (fun _ => None) (lit "bad data") (lit "also bad")
                   (mk_heap 0 ∅)
     = (Return (DictRef l, DictRef l), h') /\
     dicts h' !! l = Some {[ "stuff" := 5; "meep" := 1 ]}) /\
  (exists l1 l2 h',
     script_fresh unit (fun _ => None) (lit "bad data") (lit "also bad")
                  (mk_heap 0 ∅)
     = (Return (DictRef l1, DictRef l2), h') /\
     l1 <> l2 /\
     dicts h' !! l1 = Some {[ "stuff" := 5 ]} /\
     dicts h' !! l2 = Some {[ "meep" := 1 ]}).
Proof.
  exact (decode_default (fun _ => None) (lit "bad data") (lit "also bad")
                        (mk_heap 0 ∅) eq_refl eq_refl).
Defined.

End Item24_script.

(** ** Chap1, Item 7: the bits of [random_bits] *)
Section Item7_bits.
Import Item7.

(** One turn of the loop, for a number below [2 ^ i]. *)
Lemma set_random_bit_spec (i random_bits : Z) (w : world) :
  0 <= i -> 0 <= random_bits < 2 ^ i ->
  let s := set_random_bit i (random_bits, w) in
  0 <= s.1 < 2 ^ (i + 1) /\
  (forall j, 0 <= j < i -> Z.testbit s.1 j = Z.testbit random_bits j) /\
  Z.testbit s.1 i = Z.odd (draws w (drawn w)) /\
  drawn s.2 = S (drawn w) /\ draws s.2 = draws w.
Proof.
  intros Hi Hr. unfold set_random_bit, randint. cbn zeta.
  replace (1 - 0 + 1) with 2 by reflexivity.
  rewrite Z.add_0_l, Zmod_odd.
  assert (Hhigh : Z.testbit random_bits i = false).
  { destruct (Z.eq_dec random_bits 0) as [->|Hne]; [apply Z.testbit_0_l|].
    apply Z.bits_above_log2; [lia|]. apply Z.log2_lt_pow2; lia. }
  rewrite Z.pow_add_r, Z.pow_1_r by lia.
  destruct (Z.odd (draws w (drawn w))); cbn [Z.eqb fst snd].
  - rewrite Z.lor_comm, (lor_shiftl_add 1 random_bits i) by lia.
    split; [lia|]. split; [|split; [|split; reflexivity]].
    + intros j Hj.
      rewrite <- (lor_shiftl_add 1 random_bits i), Z.lor_spec by lia.
      rewrite Z.shiftl_spec_low by lia. reflexivity.
    + rewrite <- (lor_shiftl_add 1 random_bits i), Z.lor_spec by lia.
      rewrite Z.shiftl_spec, Z.sub_diag by lia. reflexivity.
  - split; [lia|]. split; [reflexivity|]. split; [exact Hhigh|].
    split; reflexivity.
Qed.

Lemma random_bits_fold (k : nat) (w : world) :
  let s := fold_left (fun s i => set_random_bit i s)
                     (range 0 (Z.of_nat k)) (0, w) in
  0 <= s.1 < 2 ^ Z.of_nat k /\
  (forall j, 0 <= j < Z.of_nat k ->
             Z.testbit s.1 j = Z.odd (draws w (drawn w + Z.to_nat j)%nat)) /\
  drawn s.2 = (drawn w + k)%nat /\ draws s.2 = draws w.
Proof.
  induction k as [|k IH].
  - change (range 0 (Z.of_nat 0)) with (@nil Z). cbn [fold_left].
    cbn zeta. cbn [fst snd]. change (2 ^ Z.of_nat 0) with 1.
    split; [lia|]. split; [intros j Hj; lia|].
    split; [lia | reflexivity].
  - rewrite Nat2Z.inj_succ, <- Z.add_1_r, range_snoc, fold_left_app by lia.
    cbn [fold_left]. cbn zeta in IH.
    destruct (fold_left (fun s i => set_random_bit i s)
                        (range 0 (Z.of_nat k)) (0, w)) as [rb w1].
    cbn [fst snd] in IH. destruct IH as (Hb & Hbits & Hdrawn & Hdraws).
    destruct (set_random_bit_spec (Z.of_nat k) rb w1 ltac:(lia) Hb)
      as (Hb' & Hlow & Hk & Hdrawn' & Hdraws').
    cbn zeta. split; [exact Hb'|]. split; [|split].
    + intros j Hj. destruct (Z.eq_dec j (Z.of_nat k)) as [->|Hne].
      * rewrite Hk, Hdraws, Hdrawn, Nat2Z.id. reflexivity.
      * rewrite Hlow by lia. apply Hbits. lia.
    + rewrite Hdrawn', Hdrawn. lia.
    + rewrite Hdraws'. exact Hdraws.
Qed.

(** X19.  [random_bits] is a number of 32 bits, 0 <= random_bits <
    2 ** 32; its bit [i] is set exactly when the draw of turn [i] is odd,
    that is when [randint(0, 1)] returned 1 in that turn; the loop draws
    32 numbers. *)
Theorem random_bits_bits (w : world) :
  0 <= (random_bits_loop w).1 < 2 ^ 32 /\
  (forall i, 0 <= i < 32 ->
             Z.testbit (random_bits_loop w).1 i
             = Z.odd (draws w (drawn w + Z.to_nat i)%nat)) /\
  drawn (random_bits_loop w).2 = (drawn w + 32)%nat /\
  draws (random_bits_loop w).2 = draws w.
Proof. exact (random_bits_fold 32 w). Qed.

End Item7_bits.

(** ** Chap2, Item 17: the two [Visits] classes keep the same data *)
Section Item17_visits_facts.
Import Item17 Item17_visits.

Ltac eff_unfold := unfold mbind, eff_bind, mret, eff_ret, pure, raise.

Lemma load_set (st : pystate) :
  globals st !! "set" = None -> load "set" st = (Return (VBuiltin "set"), st).
Proof. intros H. unfold load. rewrite H. reflexivity. Qed.

(** One call of [add] keeps the invariant and adds the city. *)
Lemma Visits_add_inv (c : visits_class) (data : nat)
    (m : gmap string (gset string)) (st : pystate) (country city : string) :
  visits_inv c data m st ->
  exists st',
    Visits_add c data country city st = (Return tt, st') /\
    visits_inv c data
      (<[country := {[city]} ∪ default ∅ (m !! country)]> m) st'.
Proof.
  intros (Hset & Hfree & entries & Hdata & Hent & Hinj).
  assert (Hdata_lt : (data < next_loc st)%nat).
  { destruct (Nat.lt_ge_cases data (next_loc st)) as [H|H]; [exact H|].
    rewrite (Hfree data H) in Hdata. discriminate. }
  pose proof (Hent country) as Hc.
  destruct c; cbn [Visits_add is_defaultdict] in *.
  - (* setdefault *)
    unfold call_set. eff_unfold. rewrite (load_set st Hset).
    unfold set_add, dict_setdefault, new, deref, update. eff_unfold.
    cbn [heap globals next_loc stdout].
    rewrite lookup_insert_ne by lia. rewrite Hdata.
    destruct (entries !! country) as [l|] eqn:El.
    + destruct Hc as (Hne & items & Hl & Hm).
      assert (Hl_lt : (l < next_loc st)%nat).
      { destruct (Nat.lt_ge_cases l (next_loc st)) as [H|H]; [exact H|].
        rewrite (Hfree l H) in Hl. discriminate. }
      cbn [heap globals next_loc stdout].
      rewrite lookup_insert_ne by lia. rewrite Hl.
      eexists. split; [reflexivity|].
      split; [exact Hset|]. cbn [heap globals next_loc stdout]. split.
      { intros l' Hl'. rewrite !lookup_insert_ne by lia. apply Hfree. lia. }
      exists entries. split.
      { rewrite !lookup_insert_ne by lia. exact Hdata. }
      split; [|exact Hinj].
      intros country'. pose proof (Hent country') as Hc'.
      destruct (entries !! country') as [l'|] eqn:El'.
      * destruct Hc' as (Hne' & items' & Hl' & Hm'). split; [exact Hne'|].
        destruct (decide (country' = country)) as [->|Hcc].
        -- assert (l' = l) as -> by congruence.
           exists ({[city]} ∪ items). rewrite lookup_insert_eq.
           split; [reflexivity|]. rewrite lookup_insert_eq, Hm. reflexivity.
        -- assert (l' <> l).
           { intros ->. apply Hcc. apply (Hinj _ _ l); assumption. }
           exists items'. rewrite lookup_insert_ne by congruence.
           assert (l' < next_loc st)%nat.
           { destruct (Nat.lt_ge_cases l' (next_loc st)) as [H'|H'];
               [exact H'|].
             rewrite (Hfree l' H') in Hl'. discriminate. }
           rewrite lookup_insert_ne by lia.
           split; [exact Hl'|]. rewrite lookup_insert_ne by congruence.
           exact Hm'.
      * rewrite lookup_insert_ne by congruence. exact Hc'.
    + cbn [heap globals next_loc stdout].
      rewrite lookup_insert_ne by lia. rewrite lookup_insert_eq.
      eexists. split; [reflexivity|].
      split; [exact Hset|]. cbn [heap globals next_loc stdout]. split.
      { intros l' Hl'. rewrite !lookup_insert_ne by lia. apply Hfree. lia. }
      exists (<[country := next_loc st]> entries). split.
      { rewrite lookup_insert_ne by lia. rewrite lookup_insert_eq.
        reflexivity. }
      split.
      * intros country'.
        destruct (decide (country' = country)) as [->|Hcc].
        -- rewrite lookup_insert_eq. split; [lia|].
           exists ({[city]} ∪ ∅). rewrite lookup_insert_eq.
           split; [reflexivity|]. rewrite lookup_insert_eq, Hc. reflexivity.
        -- rewrite lookup_insert_ne by congruence.
           pose proof (Hent country') as Hc'.
           destruct (entries !! country') as [l'|] eqn:El'.
           ++ destruct Hc' as (Hne' & items' & Hl' & Hm'). split; [exact Hne'|].
              assert (l' < next_loc st)%nat.
              { destruct (Nat.lt_ge_cases l' (next_loc st)) as [H'|H'];
                  [exact H'|].
                rewrite (Hfree l' H') in Hl'. discriminate. }
              exists items'. rewrite lookup_insert_ne by lia.
              rewrite lookup_insert_ne by congruence.
              rewrite lookup_insert_ne by lia.
              split; [exact Hl'|]. rewrite lookup_insert_ne by congruence.
              exact Hm'.
           ++ rewrite lookup_insert_ne by congruence. exact Hc'.
      * intros c1 c2 l H1 H2.
        destruct (decide (c1 = country)) as [->|H1c],
                 (decide (c2 = country)) as [->|H2c]; [reflexivity| | |].
        -- rewrite lookup_insert_eq in H1. rewrite lookup_insert_ne in H2
             by congruence.
           inversion H1; subst l. pose proof (Hent c2) as Hc2.
           rewrite H2 in Hc2. destruct Hc2 as (_ & items' & Hl' & _).
           rewrite (Hfree (next_loc st) (le_n _)) in Hl'. discriminate.
        -- rewrite lookup_insert_eq in H2. rewrite lookup_insert_ne in H1
             by congruence.
           inversion H2; subst l. pose proof (Hent c1) as Hc1.
           rewrite H1 in Hc1. destruct Hc1 as (_ & items' & Hl' & _).
           rewrite (Hfree (next_loc st) (le_n _)) in Hl'. discriminate.
        -- rewrite lookup_insert_ne in H1, H2 by congruence.
           apply (Hinj _ _ l); assumption.
  - (* defaultdict *)
    unfold set_add, dict_getitem, new, deref, update. eff_unfold.
    rewrite Hdata.
    destruct (entries !! country) as [l|] eqn:El.
    + destruct Hc as (Hne & items & Hl & Hm).
      rewrite Hl.
      eexists. split; [reflexivity|].
      split; [exact Hset|]. cbn [heap globals next_loc stdout]. split.
      { intros l' Hl'. destruct (decide (l' = l)) as [->|Hll].
        - rewrite (Hfree l Hl') in Hl. discriminate.
        - rewrite lookup_insert_ne by congruence. apply Hfree. exact Hl'. }
      exists entries. split.
      { rewrite lookup_insert_ne by congruence. exact Hdata. }
      split; [|exact Hinj].
      intros country'. pose proof (Hent country') as Hc'.
      destruct (entries !! country') as [l'|] eqn:El'.
      * destruct Hc' as (Hne' & items' & Hl' & Hm'). split; [exact Hne'|].
        destruct (decide (country' = country)) as [->|Hcc].
        -- assert (l' = l) as -> by congruence.
           exists ({[city]} ∪ items). rewrite lookup_insert_eq.
           split; [reflexivity|]. rewrite lookup_insert_eq, Hm. reflexivity.
        -- assert (l' <> l).
           { intros ->. apply Hcc. apply (Hinj _ _ l); assumption. }
           exists items'. rewrite lookup_insert_ne by congruence.
           split; [exact Hl'|]. rewrite lookup_insert_ne by congruence.
           exact Hm'.
      * rewrite lookup_insert_ne by congruence. exact Hc'.
    + cbn [heap globals next_loc stdout].
      rewrite lookup_insert_ne by lia. rewrite lookup_insert_eq.
      eexists. split; [reflexivity|].
      split; [exact Hset|]. cbn [heap globals next_loc stdout]. split.
      { intros l' Hl'. rewrite !lookup_insert_ne by lia. apply Hfree. lia. }
      exists (<[country := next_loc st]> entries). split.
      { rewrite lookup_insert_ne by lia. rewrite lookup_insert_eq.
        reflexivity. }
      split.
      * intros country'.
        destruct (decide (country' = country)) as [->|Hcc].
        -- rewrite lookup_insert_eq. split; [lia|].
           exists ({[city]} ∪ ∅). rewrite lookup_insert_eq.
           split; [reflexivity|]. rewrite lookup_insert_eq, Hc. reflexivity.
        -- rewrite lookup_insert_ne by congruence.
           pose proof (Hent country') as Hc'.
           destruct (entries !! country') as [l'|] eqn:El'.
           ++ destruct Hc' as (Hne' & items' & Hl' & Hm'). split; [exact Hne'|].
              assert (l' < next_loc st)%nat.
              { destruct (Nat.lt_ge_cases l' (next_loc st)) as [H'|H'];
                  [exact H'|].
                rewrite (Hfree l' H') in Hl'. discriminate. }
              exists items'. rewrite lookup_insert_ne by lia.
              rewrite lookup_insert_ne by congruence.
              rewrite lookup_insert_ne by lia.
              split; [exact Hl'|]. rewrite lookup_insert_ne by congruence.
              exact Hm'.
           ++ rewrite lookup_insert_ne by congruence. exact Hc'.
      * intros c1 c2 l H1 H2.
        destruct (decide (c1 = country)) as [->|H1c],
                 (decide (c2 = country)) as [->|H2c]; [reflexivity| | |].
        -- rewrite lookup_insert_eq in H1. rewrite lookup_insert_ne in H2
             by congruence.
           inversion H1; subst l. pose proof (Hent c2) as Hc2.
           rewrite H2 in Hc2. destruct Hc2 as (_ & items' & Hl' & _).
           rewrite (Hfree (next_loc st) (le_n _)) in Hl'. discriminate.
        -- rewrite lookup_insert_eq in H2. rewrite lookup_insert_ne in H1
             by congruence.
           inversion H2; subst l. pose proof (Hent c1) as Hc1.
           rewrite H1 in Hc1. destruct Hc1 as (_ & items' & Hl' & _).
           rewrite (Hfree (next_loc st) (le_n _)) in Hl'. discriminate.
        -- rewrite lookup_insert_ne in H1, H2 by congruence.
           apply (Hinj _ _ l); assumption.
Qed.

Lemma add_all_inv (c : visits_class) (data : nat)
    (adds : list (string * string)) :
  forall (m : gmap string (gset string)) (st : pystate),
  visits_inv c data m st ->
  exists st',
    add_all c data adds st = (Return tt, st') /\
    visits_inv c data
      (foldl (fun m '(country, city) =>
                <[country := {[city]} ∪ default ∅ (m !! country)]> m)
             m adds) st'.
Proof.
  induction adds as [|[country city] adds IH]; intros m st Hinv.
  - exists st. split; [reflexivity | exact Hinv].
  - destruct (Visits_add_inv c data m st country city Hinv) as (st1 & E1 & H1).
    destruct (IH _ st1 H1) as (st2 & E2 & H2).
    exists st2. split; [|exact H2].
    cbn [add_all]. eff_unfold. rewrite E1. exact E2.
Qed.

Lemma Visits_init_inv (c : visits_class) (st : pystate) :
  globals st !! "set" = None ->
  globals st !! "defaultdict" = Some VDefaultdict ->
  (forall l, (next_loc st <= l)%nat -> heap st !! l = None) ->
  exists st',
    Visits_init c st = (Return (next_loc st), st') /\
    visits_inv c (next_loc st) ∅ st'.
Proof.
  intros Hset Hdd Hfree.
  assert (Hinv : visits_inv c (next_loc st) ∅
                   (mk_pystate (globals st)
                      (<[next_loc st := HDict (is_defaultdict c) ∅]> (heap st))
                      (S (next_loc st)) (stdout st))).
  { split; [exact Hset|]. cbn [heap globals next_loc stdout]. split.
    - intros l Hl. rewrite lookup_insert_ne by lia. apply Hfree. lia.
    - exists ∅. split; [apply lookup_insert_eq|]. split.
      + intros country. rewrite !lookup_empty. reflexivity.
      + intros c1 c2 l H. rewrite lookup_empty in H. discriminate. }
  eexists. split; [|exact Hinv].
  destruct c; cbn [Visits_init is_defaultdict].
  - reflexivity.
  - eff_unfold. unfold load at 1. rewrite Hdd.
    rewrite (load_set st Hset). reflexivity.
Qed.

Lemma shown_inv (c : visits_class) (data : nat)
    (m : gmap string (gset string)) (st : pystate) :
  visits_inv c data m st -> shown data st = Some m.
Proof.
  intros (_ & _ & entries & Hdata & Hent & _).
  unfold shown. rewrite Hdata. f_equal.
  apply map_eq. intros country. unfold snapshot. rewrite lookup_omap.
  pose proof (Hent country) as Hc.
  destruct (entries !! country) as [l|]; cbn.
  - destruct Hc as (_ & items & Hl & Hm). rewrite Hl, Hm. reflexivity.
  - symmetry. exact Hc.
Qed.

(** X20.  Where [set] is the builtin and [defaultdict] has been
    imported, both classes [Visits] of Item 17 keep the same data: after
    any calls of [add] on a new instance, [self.data] shows for each
    country the set of the cities added for it, whether the class uses
    [setdefault] on a [dict] or a [defaultdict(set)].  No call raises. *)
Theorem Visits_classes_agree (adds : list (string * string)) (st : pystate) :
  globals st !! "set" = None ->
  globals st !! "defaultdict" = Some VDefaultdict ->
  (forall l, (next_loc st <= l)%nat -> heap st !! l = None) ->
  forall c : visits_class,
  exists data st',
    visit c adds st = (Return data, st') /\
    shown data st' = Some (visited adds).
Proof.
  intros Hset Hdd Hfree c.
  destruct (Visits_init_inv c st Hset Hdd Hfree) as (st1 & E1 & H1).
  destruct (add_all_inv c (next_loc st) adds ∅ st1 H1) as (st2 & E2 & H2).
  exists (next_loc st), st2. split.
  - unfold visit. eff_unfold. rewrite E1, E2. reflexivity.
  - apply (shown_inv c). exact H2.
Qed.

Lemma Visits_classes_agree_witness :
  (exists data st',
     visit Visits_setdefault [("England", "Bath"); ("England", "London")]
           (import_defaultdict empty_state).2
     = (Return data, st') /\
     shown data st'
     = Some (visited [("England", "Bath"); ("England", "London")])) /\
  (exists data st',
     visit Visits_defaultdict [("England", "Bath"); ("England", "London")]
           (import_defaultdict empty_state).2
     = (Return data, st') /\
     shown data st'
     = Some (visited [("England", "Bath"); ("England", "London")])).
Proof.
  split;
    apply (Visits_classes_agree [("England", "Bath"); ("England", "London")]
             (import_defaultdict empty_state).2);
    try reflexivity; intros l _; reflexivity.
Defined.

End Item17_visits_facts.

(** ** Chap1, Item 4: templates and the loop over the pantry *)
Section Item4_more_facts.
Import Item4 Item4_more.

(** Without a width nothing is padded. *)
Lemma pad_no_width (fill : Z) (align : alignment) (sign body : list Z) :
  pad fill align None sign body = sign ++ body.
Proof.
  unfold pad. cbn [default Nat.sub replicate Nat.div].
  destruct align; cbn [replicate app]; rewrite ?app_nil_r; reflexivity.
Qed.

(** X21.  The C-style template with a dictionary and the [str.format]
    template with keyword arguments give the same sentence whatever the
    three values are: the text of the templates with each value in the
    place of its name. *)
Theorem templates_agree (soup oyster special : list Z) :
  old_formatted soup oyster special = new_formatted soup oyster special /\
  new_formatted soup oyster special = Ok (sentence soup oyster special).
Proof.
  split; cbv -[pad]; fold (@app Z); rewrite !pad_no_width; reflexivity.
Qed.

(** X22.  In the loop over the pantry the C-style expression and the
    [str.format] expression give the same line for every [int] in the
    first and third place, negative or not, and every [str] in the
    second. *)
Theorem pantry_styles_agree (number : Z) (title : list Z) (rounded : Z) :
  old_style number title rounded = new_style number title rounded.
Proof. cbv -[pad digits Z.ltb Z.abs_N]. reflexivity. Qed.

(** The first line of the loop: [i = 0], [item = 'avocados'],
    [count = 1.25]. *)
Example pantry_first_line :
  old_style 1 (lit "Avocados") 1 = Ok (lit "#1: Avocados   = 1").
Proof. vm_compute. reflexivity. Qed.

Example menu_of_the_script :
  new_formatted (lit "lentil") (lit "kumamoto") (lit "schnitzel")
  = Ok (lit "Today's soup is lentil, buy one get two kumamoto oysters, and our special entr"
        ++ [233] ++ lit "e is schnitzel.").
Proof. vm_compute. reflexivity. Qed.

End Item4_more_facts.

(** ** Chap2, Item 14: two stable sorts in a row *)
Section Item14_facts.
Import Sequences Item14.

(** [sort_by] is the insertion of the items. *)
Lemma sort_by_items {K A} (lt : K -> K -> bool) (key : A -> K)
    (reverse : bool) (l : list A) :
  sort_by lt key reverse l
  = sort_items (fun y x => precedes lt reverse (key y) (key x)) l.
Proof.
  unfold sort_by.
  enough (H : sort_keyed lt reverse (map (fun x => (key x, x)) l)
              = map (fun x => (key x, x))
                    (sort_items
                       (fun y x => precedes lt reverse (key y) (key x)) l)).
  { rewrite H, <- list_fmap_compose. apply list_fmap_id. }
  induction l as [|x l IH]; [reflexivity|].
  cbn [map]. rewrite sort_keyed_cons, IH. cbn [sort_items foldr].
  fold (sort_items (fun y x => precedes lt reverse (key y) (key x)) l).
  generalize (sort_items (fun y x => precedes lt reverse (key y) (key x)) l).
  intros m. induction m as [|y m IHm]; [reflexivity|].
  cbn [map insert_keyed insert_item fst].
  destruct (precedes lt reverse (key y) (key x)); [|reflexivity].
  rewrite IHm. reflexivity.
Qed.

Section Stable.
Context {A : Type} (p1 p2 p12 : A -> A -> bool).

(** [p12] orders by [p2] and, where [p2] says nothing, by [p1]. *)
Hypothesis p12_spec :
  forall z y, p12 z y = p2 z y || (negb (p2 y z) && p1 z y).
Hypothesis p1_asym : forall x y, p1 x y = true -> p1 y x = false.
Hypothesis p1_trans :
  forall x y z, p1 y x = false -> p1 z y = false -> p1 z x = false.
Hypothesis p12_asym : forall x y, p12 x y = true -> p12 y x = false.
Hypothesis p12_trans :
  forall x y z, p12 y x = false -> p12 z y = false -> p12 z x = false.

Lemma insert_item_perm (p : A -> A -> bool) (x : A) (l : list A) :
  insert_item p x l ≡ₚ x :: l.
Proof.
  induction l as [|y l IH]; [reflexivity|]. cbn.
  destruct (p y x); [|reflexivity]. rewrite IH. apply perm_swap.
Qed.

Lemma sort_items_cons (p : A -> A -> bool) (x : A) (l : list A) :
  sort_items p (x :: l) = insert_item p x (sort_items p l).
Proof. reflexivity. Qed.

Lemma sort_items_perm (p : A -> A -> bool) (l : list A) :
  sort_items p l ≡ₚ l.
Proof.
  induction l as [|x l IH]; [reflexivity|]. cbn [sort_items foldr].
  rewrite insert_item_perm. fold (sort_items p l). rewrite IH. reflexivity.
Qed.

(** Two orders that agree on [x] against the items of a list insert [x]
    at the same place. *)
Lemma insert_item_ext (p q : A -> A -> bool) (x : A) (l : list A) :
  Forall (fun z => p z x = q z x) l -> insert_item p x l = insert_item q x l.
Proof.
  induction 1 as [|z l Hz _ IH]; [reflexivity|]. cbn.
  rewrite Hz, IH. reflexivity.
Qed.

(** Two items of which one comes before the other can be inserted in
    either order. *)
Lemma insert_item_comm_lt (x y : A) (l : list A) :
  p12 y x = true ->
  insert_item p12 y (insert_item p12 x l)
  = insert_item p12 x (insert_item p12 y l).
Proof.
  intros Hyx. pose proof (p12_asym _ _ Hyx) as Hxy.
  induction l as [|z l IH].
  - cbn. rewrite Hxy, Hyx. reflexivity.
  - cbn [insert_item].
    destruct (p12 z y) eqn:Hzy.
    + assert (Hzx : p12 z x = true).
      { destruct (p12 z x) eqn:E; [reflexivity|].
        rewrite (p12_trans x z y E (p12_asym _ _ Hzy)) in Hyx.
        discriminate. }
      rewrite Hzx. cbn [insert_item]. rewrite Hzy, Hzx, IH. reflexivity.
    + destruct (p12 z x) eqn:Hzx; cbn [insert_item];
        rewrite ?Hzy, ?Hzx, ?Hxy, ?Hyx; cbn [insert_item];
        rewrite ?Hzy, ?Hzx; reflexivity.
Qed.

Lemma insert_item_comm (x y : A) (l : list A) :
  p12 y x = true \/ p12 x y = true ->
  insert_item p12 y (insert_item p12 x l)
  = insert_item p12 x (insert_item p12 y l).
Proof.
  intros [H|H]; [apply insert_item_comm_lt; exact H|].
  symmetry. apply insert_item_comm_lt. exact H.
Qed.

(** Against an item that [p1] does not put first, [p12] is [p2]. *)
Lemma p12_p2 (y : A) (l : list A) :
  Forall (fun z => p1 z y = false) l ->
  Forall (fun z => p2 z y = p12 z y) l.
Proof.
  intros H. eapply Forall_impl; [exact H|].
  intros z Hz. cbn. rewrite p12_spec, Hz, andb_false_r, orb_false_r.
  reflexivity.
Qed.

(** Sorting by [p2] a list that is sorted by [p1] and has received one
    more item: the item goes where [p12] puts it. *)
Lemma sort_items_insert (x : A) (m : list A) :
  StronglySorted (fun a b => p1 b a = false) m ->
  sort_items p2 (insert_item p1 x m) = insert_item p12 x (sort_items p2 m).
Proof.
  induction 1 as [|y m Hm IH Hy].
  - reflexivity.
  - cbn [insert_item]. destruct (p1 y x) eqn:Hyx.
    + cbn [sort_items foldr]. fold (sort_items p2 (insert_item p1 x m)).
      fold (sort_items p2 m). rewrite IH.
      assert (Hall : Forall (fun z => p1 z y = false) (x :: m)).
      { constructor; [apply p1_asym; exact Hyx | exact Hy]. }
      rewrite (insert_item_ext p2 p12 y).
      2:{ apply p12_p2. rewrite insert_item_perm.
          constructor; [apply p1_asym; exact Hyx|].
          rewrite sort_items_perm. exact Hy. }
      rewrite insert_item_comm.
      2:{ rewrite !p12_spec, Hyx, (p1_asym _ _ Hyx).
          destruct (p2 y x), (p2 x y); reflexivity || (left; reflexivity)
                                       || (right; reflexivity) || auto. }
      f_equal. symmetry. apply insert_item_ext, p12_p2.
      rewrite sort_items_perm. exact Hy.
    + cbn [sort_items foldr]. fold (sort_items p2 m).
      change (insert_item p2 y (sort_items p2 m))
        with (sort_items p2 (y :: m)).
      apply insert_item_ext, p12_p2. rewrite sort_items_perm.
      constructor; [exact Hyx|].
      eapply Forall_impl; [exact Hy|].
      intros z Hz. cbn in Hz. apply (p1_trans x y z); assumption.
Qed.

Lemma insert_item_sorted (x : A) (m : list A) :
  StronglySorted (fun a b => p1 b a = false) m ->
  StronglySorted (fun a b => p1 b a = false) (insert_item p1 x m).
Proof.
  induction 1 as [|y m Hm IH Hy]; cbn.
  - constructor; constructor.
  - destruct (p1 y x) eqn:Hyx.
    + constructor; [exact IH|]. rewrite insert_item_perm.
      constructor; [apply p1_asym; exact Hyx | exact Hy].
    + constructor; [constructor; assumption|].
      constructor; [exact Hyx|].
      eapply Forall_impl; [exact Hy|].
      intros z Hz. cbn in Hz. apply (p1_trans x y z); assumption.
Qed.

Lemma sort_items_sorted (l : list A) :
  StronglySorted (fun a b => p1 b a = false) (sort_items p1 l).
Proof.
  induction l as [|x l IH]; [constructor|].
  cbn [sort_items foldr]. apply insert_item_sorted. exact IH.
Qed.

(** A stable sort by [p1] followed by a stable sort by [p2] is the sort
    by [p12]. *)
Lemma sort_items_twice (l : list A) :
  sort_items p2 (sort_items p1 l) = sort_items p12 l.
Proof.
  induction l as [|x l IH]; [reflexivity|].
  rewrite (sort_items_cons p1), (sort_items_cons p12).
  rewrite sort_items_insert by apply sort_items_sorted.
  rewrite IH. reflexivity.
Qed.

End Stable.

Lemma key_lt_asym (x y : Z * list Z) : key_lt x y = true -> key_lt y x = false.
Proof.
  unfold key_lt. intros H.
  apply orb_true_iff in H. apply orb_false_iff.
  destruct H as [H|H].
  - apply Z.ltb_lt in H. split; [apply Z.ltb_ge; lia|].
    apply andb_false_iff. left. apply Z.eqb_neq. lia.
  - apply andb_true_iff in H as [H1 H2]. apply Z.eqb_eq in H1.
    split; [apply Z.ltb_ge; lia|].
    apply andb_false_iff. right. apply str_lt_asym. exact H2.
Qed.

Lemma key_le_trans (x y z : Z * list Z) :
  key_lt y x = false -> key_lt z y = false -> key_lt z x = false.
Proof.
  unfold key_lt. intros H1 H2.
  apply orb_false_iff in H1 as [H1 H1'], H2 as [H2 H2'].
  apply Z.ltb_ge in H1, H2.
  apply andb_false_iff in H1', H2'. apply orb_false_iff.
  split; [apply Z.ltb_ge; lia|]. apply andb_false_iff.
  destruct (Z.eq_dec z.1 x.1) as [Hzx|Hzx]; [right | left; apply Z.eqb_neq; exact Hzx].
  assert (Hy : y.1 = x.1) by lia.
  destruct H1' as [H1'|H1']; [apply Z.eqb_neq in H1'; lia|].
  destruct H2' as [H2'|H2']; [apply Z.eqb_neq in H2'; lia|].
  apply (str_le_trans x.2 y.2 z.2); assumption.
Qed.

(** X23.  Python's sort is stable, so sorting the tools by name and then
    by weight, heaviest first, gives the list that the single sort with
    the key [(-weight, name)] gives; with the second sort ascending it is
    the list of the key [(weight, name)].  This holds for every list of
    tools, tools of equal weight and name included. *)
Theorem two_sorts_one_key (tools : list Tool) :
  sort_name_then_heaviest tools = sort_heaviest_name tools /\
  sort_name_then_weight tools = sort_weight_name tools.
Proof.
  unfold sort_name_then_heaviest, sort_heaviest_name,
    sort_name_then_weight, sort_weight_name.
  rewrite !sort_by_items. split.
  - apply (sort_items_twice
             (fun y x => precedes str_lt false (name y) (name x))
             (fun y x => precedes Z.ltb true (weight y) (weight x))
             (fun y x => precedes key_lt false (- weight y, name y)
                                  (- weight x, name x))).
    + intros z y. unfold precedes, key_lt. cbn [fst snd].
      destruct (Z.ltb_spec (- weight z) (- weight y)),
               (Z.ltb_spec (weight y) (weight z)),
               (Z.ltb_spec (weight z) (weight y)),
               (Z.eqb_spec (- weight z) (- weight y));
        try lia; reflexivity.
    + intros x y. apply str_lt_asym.
    + intros x y z. unfold precedes. apply str_le_trans.
    + intros x y. apply key_lt_asym.
    + intros x y z. unfold precedes. apply key_le_trans.
  - apply (sort_items_twice
             (fun y x => precedes str_lt false (name y) (name x))
             (fun y x => precedes Z.ltb false (weight y) (weight x))
             (fun y x => precedes key_lt false (weight y, name y)
                                  (weight x, name x))).
    + intros z y. unfold precedes, key_lt. cbn [fst snd].
      destruct (Z.ltb_spec (weight z) (weight y)),
               (Z.ltb_spec (weight y) (weight z)),
               (Z.eqb_spec (weight z) (weight y));
        try lia; reflexivity.
    + intros x y. apply str_lt_asym.
    + intros x y z. unfold precedes. apply str_le_trans.
    + intros x y. apply key_lt_asym.
    + intros x y z. unfold precedes. apply key_le_trans.
Qed.

(** The script: the power tools by weight, heaviest first, then by
    name. *)
Example power_tools_sorted :
  map name (sort_name_then_heaviest power_tools)
  = [lit "jackhammer"; lit "circular saw"; lit "drill"; lit "sander"] /\
  map name (sort_heaviest_name power_tools)
  = [lit "jackhammer"; lit "circular saw"; lit "drill"; lit "sander"].
Proof. split; vm_compute; reflexivity. Qed.

End Item14_facts.

(** ** Chap1, Item 9: the loop with an [else] block *)
Section Item9_else_facts.
Import Item9 Item9_else.

Lemma testing_loop_from (a b : Z) (xs : list Z) :
  forall printed,
  (forallb (fun i => negb (divides_both a b i)) xs = true ->
   for_else xs (testing a b)
     (fun printed => printed ++ [Coprime]) printed
   = printed ++ map Testing xs ++ [Coprime]) /\
  (forallb (fun i => negb (divides_both a b i)) xs = false ->
   exists before d after,
     xs = before ++ d :: after /\
     Forall (fun i => divides_both a b i = false) before /\
     divides_both a b d = true /\
     for_else xs (testing a b)
       (fun printed => printed ++ [Coprime]) printed
     = printed ++ map Testing (before ++ [d]) ++ [Not_coprime]).
Proof.
  induction xs as [|x xs IH]; intros printed.
  - split; [reflexivity | discriminate].
  - cbn [forallb for_else]. unfold testing at 1 3. cbn zeta.
    destruct (divides_both a b x) eqn:Ex; cbn [negb andb].
    + split; [discriminate|]. intros _.
      exists [], x, xs. split; [reflexivity|]. split; [constructor|].
      split; [exact Ex|]. cbn. rewrite <- app_assoc. reflexivity.
    + destruct (IH (printed ++ [Testing x])) as [IHt IHf]. split.
      * intros H. rewrite (IHt H), <- app_assoc. reflexivity.
      * intros H. destruct (IHf H) as (before & d & after & -> & Hb & Hd & E).
        exists (x :: before), d, after. split; [reflexivity|].
        split; [constructor; assumption|]. split; [exact Hd|].
        rewrite E, <- app_assoc. reflexivity.
Qed.

(** X24.  The loop with the [else] block prints ['Coprime'] exactly when
    [coprime(a, b)] holds, after testing every candidate; otherwise it
    tests the candidates up to the first that divides both numbers,
    prints ['Not coprime'] and leaves the [else] block out. *)
Theorem for_else_coprime (a b : Z) :
  (coprime a b = true ->
   testing_loop a b = map Testing (range 2 (Z.min a b + 1)) ++ [Coprime]) /\
  (coprime a b = false ->
   exists before d after,
     range 2 (Z.min a b + 1) = before ++ d :: after /\
     Forall (fun i => divides_both a b i = false) before /\
     divides_both a b d = true /\
     testing_loop a b = map Testing (before ++ [d]) ++ [Not_coprime]).
Proof.
  unfold coprime. rewrite coprime_loop_true.
  exact (testing_loop_from a b (range 2 (Z.min a b + 1)) []).
Qed.

(** The script, with [a = 4] and [b = 9]. *)
Example testing_4_9 :
  testing_loop 4 9 = [Testing 2; Testing 3; Testing 4; Coprime].
Proof. vm_compute. reflexivity. Qed.

End Item9_else_facts.

(** ** Chap4, Item 29: how often [get_batches] is called *)
Section Item29_facts.
Import Item15 Item29.

Ltac eff_unfold := unfold mbind, eff_bind, mret, eff_ret, pure, raise.

Lemma get_batches_8 (count : Z) (calls : nat) :
  get_batches count 8 calls = (Return (count / 8), S calls).
Proof. reflexivity. Qed.

Lemma result_loop_spec (stock : dict Z) (order : list (list Z)) :
  forall (result : dict Z) (calls : nat),
  result_loop stock order result calls
  = (Return (foldl (with_batches stock) result order),
     (calls + length order)%nat).
Proof.
  induction order as [|name order IH]; intros result calls.
  - cbn. rewrite Nat.add_0_r. reflexivity.
  - cbn [result_loop foldl length]. cbn zeta. eff_unfold.
    rewrite get_batches_8, IH. unfold with_batches at 2. cbn zeta.
    f_equal. lia.
Qed.

Lemma found_walrus_spec (stock : dict Z) (order : list (list Z)) :
  forall (found : dict Z) (calls : nat),
  dict_comprehension order
    (fun name =>
       batches ← get_batches (stock_get stock name) 8;
       mret (if batches =? 0 then None else Some batches))
    (fun name batches => mret (name, batches)) found calls
  = (Return (foldl (with_batches stock) found order),
     (calls + length order)%nat).
Proof.
  induction order as [|name order IH]; intros found calls.
  - cbn. rewrite Nat.add_0_r. reflexivity.
  - cbn [dict_comprehension foldl length]. eff_unfold.
    rewrite get_batches_8. unfold with_batches at 2. cbn zeta.
    destruct (stock_get stock name / 8 =? 0); cbn [fst snd];
      rewrite IH; f_equal; lia.
Qed.

Lemma found_twice_spec (stock : dict Z) (order : list (list Z)) :
  forall (found : dict Z) (calls : nat),
  dict_comprehension order
    (fun name =>
       batches ← get_batches (stock_get stock name) 8;
       mret (if batches =? 0 then None else Some tt))
    (fun name _ =>
       batches ← get_batches (stock_get stock name) 8;
       mret (name, batches)) found calls
  = (Return (foldl (with_batches stock) found order),
     (calls + length order + length (in_batches stock order))%nat).
Proof.
  induction order as [|name order IH]; intros found calls.
  - cbn. rewrite !Nat.add_0_r. reflexivity.
  - cbn [dict_comprehension foldl length in_batches List.filter]. eff_unfold.
    rewrite get_batches_8. unfold with_batches at 2. cbn zeta.
    fold (in_batches stock order).
    destruct (stock_get stock name / 8 =? 0); cbn [negb].
    + rewrite IH. f_equal. lia.
    + rewrite get_batches_8. cbn [fst snd length]. rewrite IH. f_equal. lia.
Qed.

Lemma dict_setitem_values (d : dict Z) (key : list Z) (v : Z) :
  v <> 0 -> Forall (fun kv : list Z * Z => kv.2 <> 0) d ->
  Forall (fun kv : list Z * Z => kv.2 <> 0) (dict_setitem d key v).
Proof.
  intros Hv. induction 1 as [|[k w] d Hw Hd IH]; cbn [dict_setitem].
  - constructor; [exact Hv | constructor].
  - destruct (bool_decide (k = key)); constructor;
      solve [exact Hv | exact Hw | exact IH | assumption].
Qed.

(** X25.  The loop, the comprehension that calls [get_batches] in its
    condition and in its value, and the comprehension with the
    assignment expression build the same dictionary, in which no count
    of batches is zero.  The loop and the assignment expression call
    [get_batches] once for each name of the order; the comprehension
    without it calls the function once more for each name it keeps. *)
Theorem repeated_work (stock : dict Z) (order : list (list Z))
    (calls : nat) :
  result_loop stock order [] calls
  = (Return (foldl (with_batches stock) [] order),
     (calls + length order)%nat) /\
  found_walrus stock order calls
  = (Return (foldl (with_batches stock) [] order),
     (calls + length order)%nat) /\
  found_twice stock order calls
  = (Return (foldl (with_batches stock) [] order),
     (calls + length order + length (in_batches stock order))%nat) /\
  Forall (fun kv : list Z * Z => kv.2 <> 0)
         (foldl (with_batches stock) [] order).
Proof.
  split; [apply result_loop_spec|]. split; [apply found_walrus_spec|].
  split; [apply found_twice_spec|].
  generalize (@nil (list Z * Z)) (Forall_nil_2 (fun kv : list Z * Z => kv.2 <> 0)).
  induction order as [|name order IH]; intros d Hd; [exact Hd|].
  cbn [foldl]. apply IH. unfold with_batches.
  destruct (Z.eqb_spec (stock_get stock name / 8) 0) as [_|Hne]; [exact Hd|].
  apply dict_setitem_values; assumption.
Qed.

(** The script: [{'screws': 4, 'wingnuts': 1}], with three calls and
    with five. *)
Example found_of_the_script :
  found_walrus stock order 0%nat
  = (Return [(lit "screws", 4); (lit "wingnuts", 1)], 3%nat) /\
  found_twice stock order 0%nat
  = (Return [(lit "screws", 4); (lit "wingnuts", 1)], 5%nat).
Proof. split; vm_compute; reflexivity. Qed.

End Item29_facts.

(** ** Chap2, Item 18: [Pictures.__missing__] *)
Section Item18_facts.
Import Item15 Item18.

Lemma dict_get_setitem {V} (d : dict V) (key : list Z) (v : V) :
  dict_get (dict_setitem d key v) key = Some v.
Proof.
  induction d as [|[k w] d IH]; cbn.
  - rewrite bool_decide_eq_true_2; reflexivity.
  - destruct (bool_decide (k = key)) eqn:E; cbn; rewrite E;
      [reflexivity | exact IH].
Qed.

Lemma dict_get_setitem_ne {V} (d : dict V) (key other : list Z) (v : V) :
  other <> key -> dict_get (dict_setitem d key v) other = dict_get d other.
Proof.
  intros Hne. induction d as [|[k w] d IH]; cbn.
  - rewrite bool_decide_eq_false_2; [reflexivity | congruence].
  - destruct (bool_decide (k = key)) eqn:E; cbn.
    + apply bool_decide_eq_true_1 in E. subst k.
      rewrite !bool_decide_eq_false_2; [reflexivity | congruence].
    + destruct (bool_decide (k = other)); [reflexivity | exact IH].
Qed.

Context {W H : Type} (open : list Z -> W -> result H * W).

(** X26.  [pictures[path]] on a [Pictures] calls [open] only when the
    path is missing, and then once, with that path.  When it returns,
    the handle is stored under the path, the other keys are as they
    were, and the next access returns the same handle without calling
    [open]; when it raises, the line is printed exactly for an
    [OSError].  The statement with [get] does the same, the one with
    [setdefault] calls [open] whether the path is there or not, and the
    [defaultdict] never calls it. *)
Theorem Pictures_getitem_opens (pictures : dict H) (path : list Z)
    (s : world) :
  with_get open pictures path s = Pictures_getitem open pictures path s /\
  opened (Pictures_getitem open pictures path s).2
  = match dict_get pictures path with
    | Some _ => opened s
    | None => opened s ++ [path]
    end /\
  match (Pictures_getitem open pictures path s).1 with
  | Return (handle, pictures') =>
      dict_get pictures' path = Some handle /\
      (forall other, other <> path ->
         dict_get pictures' other = dict_get pictures other) /\
      printed (Pictures_getitem open pictures path s).2 = printed s /\
      forall s' : world,
        Pictures_getitem open pictures' path s'
        = (Return (handle, pictures'), s')
  | Raise e =>
      dict_get pictures path = None /\
      printed (Pictures_getitem open pictures path s).2
      = (if is_OSError e then printed s ++ [path] else printed s)
  end /\
  opened (with_setdefault open pictures path s).2 = opened s ++ [path] /\
  opened (with_defaultdict pictures path s).2 = opened s.
Proof.
  split; [reflexivity|].
  unfold Pictures_getitem, with_setdefault, with_defaultdict,
    Pictures_missing, open_picture, failing, open_ab, print_failed,
    mbind, eff_bind, mret, eff_ret, raise.
  destruct s as [w o p]. cbn [files opened printed].
  destruct (dict_get pictures path) as [handle|] eqn:Eget.
  - cbn. destruct (open path w) as [[h|e] w'] eqn:Eopen; cbn.
    + repeat split; try reflexivity; try exact Eget.
      intros s'. rewrite Eget. reflexivity.
    + split; [reflexivity|]. split.
      * repeat split; try exact Eget. intros s'. rewrite Eget. reflexivity.
      * destruct (is_OSError e); split; reflexivity.
  - cbn. destruct (open path w) as [[h|e] w'] eqn:Eopen; cbn.
    + split; [reflexivity|]. split; [|split; reflexivity].
      split; [apply dict_get_setitem|].
      split; [intros other Hne; apply dict_get_setitem_ne; exact Hne|].
      split; [reflexivity|].
      intros s'. rewrite dict_get_setitem. reflexivity.
    + destruct (is_OSError e) eqn:Eos; cbn; rewrite ?Eos;
        repeat split; reflexivity.
Qed.

End Item18_facts.

(** ** The four files, run from the top *)
Section Scripts_facts.
Import Scripts.








End Scripts_facts.

(** ** Chap4, Items 30 to 36: where an exception comes from *)
Section Origins_facts.
Import Generator Origins.








Section Combinators.
Context {St : Type} (A : exn -> Prop).

Lemma raises_only_weaken {P} (B : exn -> Prop) (c : code St P) :
  (forall e, A e -> B e) -> raises_only A c -> raises_only B c.
Proof.
  intros HAB [He Hr]. split.
  - intros st e H. apply HAB, (He st e H).
  - intros p s st e H. destruct (Hr p s st e H) as [H'|H']; auto.
Qed.






Hypothesis A_escaping : forall e, A e -> A (escaping e).



End Combinators.



End Origins_facts.

Section More_combinators.
Import Generator Origins Item30 Item35_run.
Context {St : Type} (A : exn -> Prop).










End More_combinators.

(** *** The generator functions of Items 30, 33 and 35 *)
Section Quiet_generators.
Import Generator Origins Item30 Item33 Item35 Item35_run.



















End Quiet_generators.

(** *** Item 34: the waves and what drives them *)
Section Item34_facts.
Import Generator Origins Item34.
Context (sin : spec_float -> spec_float).
Context (format_ : pyval -> list Z -> result (list Z)).

















End Item34_facts.

(** *** Items 33 and 35: [render], [run] and [announce] *)
Section Printing_facts.
Import Generator Origins.
Context (format_ : pyval -> list Z -> result (list Z)).




End Printing_facts.

(** *** Item 36 *)
Section Item36_facts.
Import Item36_any.
Context (add mod_ lt eq : pyval -> pyval -> result pyval).





End Item36_facts.

(** ** Chap4, Items 30 to 36: which function rejects an argument *)
Section Items30_36.
Import Generator Origins.






End Items30_36.
